(** * sa-token-go: session/token manager, nonce manager, OAuth2 server and
    in-memory storage, embedded in Rocq.

    The development follows the Go packages of the repository:

    - [GoStrings]  the functions of package [strings] the code calls;
    - [Memory]     storage/memory/memory.go (the in-process backend of the
                   [adapter.Storage] contract);
    - [Config]     core/config (the configuration record);
    - [Token]      core/token/token.go (the token generator);
    - [Session]    core/session (the attribute bag persisted on every Set);
    - [Manager]    core/manager/manager.go;
    - [Security]   core/security (the nonce manager);
    - [OAuth2]     core/oauth2 (the authorization-code grant server).

    [PermissionSpec] states the permission rules as the specification words
    them, and [Demo] is a concrete environment with a few runs of the code.
    The properties follow the definitions.

    Conventions of the embedding.

    - Time.  [time.Now()] is an explicit argument [now : Time], a number of
      nanoseconds since the Unix epoch; [Unix] truncates it to seconds as
      [Time.Unix] does.  One call of an operation reads one clock value:
      the clock does not tick while an operation runs.  Time passes between
      operations.
    - Integers.  [int64] values are [Z]; where the code adds, subtracts or
      multiplies two of them the wrap-around is written out with [wrap64].
    - Storage.  All components run against the in-memory backend; a stored
      [interface{}] is a [value].  The backend stores pointers for the OAuth2
      records, and the server writes the record back under the same key
      right after it changes it, so value semantics gives the same store.
    - Results.  A Go [(T, error)] is a [result T]; a failed type assertion
      or an out-of-range slice is [Panic].
    - Randomness and third-party libraries (crypto/rand, google/uuid,
      encoding/json, encoding/base64, crypto/sha256, golang-jwt) are the
      fields of the class [GoEnv]. *)

From Stdlib Require Import ZArith String Ascii List Lia DecimalString.
From stdpp Require Import gmap strings list.

Local Open Scope Z_scope.

(** ** Go basics *)

(** [int64] wrap-around. *)
Definition wrap64 (z : Z) : Z := (z + 2 ^ 63) mod 2 ^ 64 - 2 ^ 63.

Definition in_int64 (z : Z) : Prop := - 2 ^ 63 <= z < 2 ^ 63.

(** [time.Time] as nanoseconds since the epoch, [time.Duration] as [int64]
    nanoseconds. *)
Definition Time := Z.
Definition Duration := Z.

Definition Nanosecond : Duration := 1.
Definition Second : Duration := 1000000000.
Definition Minute : Duration := 60 * Second.
Definition Hour : Duration := 60 * Minute.

(** [t.Unix()] *)
Definition Unix (t : Time) : Z := t / Second.

(** [t.Add(d)] *)
Definition Add (t : Time) (d : Duration) : Time := t + d.

(** [time.Duration(n) * time.Second] on [int64]. *)
Definition seconds (n : Z) : Duration := wrap64 (n * Second).

(** [int64(d.Seconds())].  [Duration.Seconds] is a float64; on the
    durations the code converts (whole minutes and hours) the conversion is
    exact and equals the truncating quotient. *)
Definition Seconds_int64 (d : Duration) : Z := Z.quot d Second.

(** A Go [error] value is its message. *)
Definition error := string.

(** The outcome of a call returning [(T, error)]. *)
Inductive result (A : Type) : Type :=
| Ok (a : A)
| Err (e : error)
| Panic.
Arguments Ok {A} a.
Arguments Err {A} e.
Arguments Panic {A}.

Definition is_ok {A} (r : result A) : bool :=
  match r with Ok _ => true | _ => false end.

Definition is_err {A} (r : result A) : bool :=
  match r with Err _ => true | _ => false end.

(** ** Package strings *)
Module GoStrings.

(** [strings.HasPrefix(s, prefix)] *)
Fixpoint HasPrefix (s pre : string) {struct pre} : bool :=
  match pre, s with
  | EmptyString, _ => true
  | String a pre', String b s' => if Ascii.eqb a b then HasPrefix s' pre' else false
  | String _ _, EmptyString => false
  end.

(** [strings.HasSuffix(s, suffix)] *)
Fixpoint HasSuffix (s suf : string) : bool :=
  if String.eqb s suf then true
  else match s with
       | EmptyString => false
       | String _ s' => HasSuffix s' suf
       end.

(** [s[:n]] for [n <= len(s)] *)
Definition slice_to (s : string) (n : nat) : string := substring 0 n s.

(** [s[n:]] for [n <= len(s)] *)
Definition slice_from (s : string) (n : nat) : string :=
  substring n (String.length s - n) s.

(** [strings.TrimSuffix(s, suffix)] *)
Definition TrimSuffix (s suf : string) : string :=
  if HasSuffix s suf then slice_to s (String.length s - String.length suf) else s.

(** [strings.TrimPrefix(s, prefix)] *)
Definition TrimPrefix (s pre : string) : string :=
  if HasPrefix s pre then slice_from s (String.length pre) else s.

(** [strings.Contains(s, substr)] *)
Fixpoint Contains (s sub : string) : bool :=
  if HasPrefix s sub then true
  else match s with
       | EmptyString => false
       | String _ s' => Contains s' sub
       end.

(** [strings.Split(s, sep)] for a separator of one byte, which is how both
    call sites use it ([":"] in the manager, ["*"] in the storage).  The
    result is never empty: [Split("", sep)] is [[""]]. *)
Fixpoint Split (s : string) (sep : ascii) : list string :=
  match s with
  | EmptyString => [EmptyString]
  | String a s' =>
      if Ascii.eqb a sep then EmptyString :: Split s' sep
      else match Split s' sep with
           | x :: l => String a x :: l
           | [] => [String a EmptyString]
           end
  end.

End GoStrings.

(** ** Stored values *)

(** OAuth2 records (core/oauth2). *)
Record AuthorizationCode := {
  Code : string;
  acClientID : string;
  acRedirectURI : string;
  acUserID : string;
  acScopes : list string;
  CreateTime : Z;
  acExpiresIn : Z;
  Used : bool
}.

Record AccessToken := {
  Token_ : string;
  TokenType : string;
  atExpiresIn : Z;
  RefreshToken : string;
  atScopes : list string;
  atUserID : string;
  atClientID : string
}.

(** What the components put behind [interface{}]. *)
Inductive value :=
| VNil
| VString (s : string)
| VInt64 (z : Z)
| VAuthCode (c : AuthorizationCode)
| VAccessToken (t : AccessToken).

(** ** storage/memory *)
Module Memory.

(** [item]: the value and its expiry instant in Unix seconds, 0 for never. *)
Record item := { value_ : value; expiration : Z }.

Abbreviation Storage := (gmap string item).

(** [item.isExpired] *)
Definition isExpired (now : Time) (i : item) : bool :=
  if expiration i =? 0 then false else Unix now >? expiration i.

(** [NewStorage] *)
Definition NewStorage : Storage := ∅.

(** [Storage.Set] *)
Definition Set_ (now : Time) (key : string) (v : value) (d : Duration)
    (s : Storage) : Storage * option error :=
  let exp := if 0 <? d then Unix (Add now d) else 0 in
  (<[key := {| value_ := v; expiration := exp |}]> s, None).

(** [Storage.Get] *)
Definition Get (now : Time) (key : string) (s : Storage) : value + error :=
  match s !! key with
  | None => inr ("key not found: " +:+ key)
  | Some it =>
      if isExpired now it then inr ("key expired: " +:+ key)
      else inl (value_ it)
  end.

(** [Storage.Delete] *)
Definition Delete (key : string) (s : Storage) : Storage * option error :=
  (delete key s, None).

(** [Storage.Exists] *)
Definition Exists_ (now : Time) (key : string) (s : Storage) : bool :=
  match s !! key with
  | None => false
  | Some it => if isExpired now it then false else true
  end.

(** [matchPattern] *)
Definition matchPattern (key pattern : string) : bool :=
  if String.eqb pattern "" || String.eqb pattern "*" then true
  else
    let pattern := GoStrings.TrimPrefix pattern "**/" in
    if GoStrings.HasSuffix pattern "*" then
      GoStrings.HasPrefix key (GoStrings.TrimSuffix pattern "*")
    else if GoStrings.HasPrefix pattern "*" then
      GoStrings.HasSuffix key (GoStrings.TrimPrefix pattern "*")
    else
      match (if GoStrings.Contains pattern "*"
             then GoStrings.Split pattern "*"%char else []) with
      | [p0; p1] => GoStrings.HasPrefix key p0 && GoStrings.HasSuffix key p1
      | _ => String.eqb key pattern
      end.

(** [Storage.Keys].  Go ranges over the map in no fixed order; the
    embedding lists the keys in the order of [map_to_list], and nothing
    proved below depends on it. *)
Definition Keys (now : Time) (pattern : string) (s : Storage)
    : list string * option error :=
  ((List.filter (fun kv : string * item =>
                   negb (isExpired now kv.2) && matchPattern kv.1 pattern)
                (map_to_list s)).*1, None).

(** [Storage.Expire] *)
Definition Expire (now : Time) (key : string) (d : Duration) (s : Storage)
    : Storage * option error :=
  match s !! key with
  | None => (s, Some ("key not found: " +:+ key))
  | Some it =>
      let exp := if 0 <? d then Unix (Add now d) else 0 in
      (<[key := {| value_ := value_ it; expiration := exp |}]> s, None)
  end.

(** [Storage.TTL]: the duration returned and the error. *)
Definition TTL (now : Time) (key : string) (s : Storage)
    : Duration * option error :=
  match s !! key with
  | None => (-2 * Second, Some ("key not found: " +:+ key))
  | Some it =>
      if expiration it =? 0 then (-1 * Second, None)
      else
        let ttl := wrap64 (expiration it - Unix now) in
        if ttl <? 0 then (-2 * Second, None)
        else (seconds ttl, None)
  end.

(** [Storage.Clear] *)
Definition Clear (s : Storage) : Storage * option error := (∅, None).

(** One tick of the [cleanup] goroutine: every expired item is deleted.
    The goroutine runs this once a minute, at instants the callers do not
    control. *)
Definition cleanup_tick (now : Time) (s : Storage) : Storage :=
  filter (fun kv : string * item => isExpired now kv.2 = false) s.

(** Any number of cleanup ticks, at the instants [ts]. *)
Definition cleanup_ticks (ts : list Time) (s : Storage) : Storage :=
  foldl (fun s t => cleanup_tick t s) s ts.

End Memory.

(** ** The environment: randomness and third-party libraries *)

(** The claims of a signed token ([jwt.MapClaims] as [generateJWT] fills it). *)
Record JwtClaims := {
  jwt_loginId : string;
  jwt_device : string;
  jwt_iat : Z;
  jwt_exp : option Z
}.

(** [TokenInfo] (core/manager). *)
Record TokenInfo := {
  LoginID : string;
  Device : string;
  tiCreateTime : Z;
  ActiveTime : Z;
  Tag : string
}.

(** A value of the session's [Data] map, as [Login] and the permission
    accessors fill it. *)
Inductive svalue :=
| SString (s : string)
| SInt64 (z : Z)
| SStrings (l : list string).

(** [Session] (core/session): the exported fields. *)
Record SessionData := {
  sessID : string;
  sessCreateTime : Z;
  Data : gmap string svalue
}.

(** What the code gets from outside the repository.  [Rand] is the state
    of the operating system's random source behind [crypto/rand]. *)
Class GoEnv := {
  Rand : Type;
  (** [rand.Read(b)] for a buffer of the given length: the bytes, or the
      error. *)
  rand_Read : nat -> Rand -> (list Byte.byte + error) * Rand;
  (** [rand.Int(rand.Reader, max)] *)
  rand_Int : Z -> Rand -> (Z + error) * Rand;
  (** [uuid.New().String()].  [uuid.New] has no error result: it returns a
      UUID or does not return ([None]). *)
  uuid_New : Rand -> option string * Rand;
  (** [base64.URLEncoding.EncodeToString] *)
  base64_URLEncoding : list Byte.byte -> string;
  (** [sha256.Sum256] *)
  sha256_Sum256 : list Byte.byte -> list Byte.byte;
  (** [jwt.NewWithClaims(jwt.SigningMethodHS256, claims).SignedString(key)] *)
  jwt_SignedString : JwtClaims -> string -> string + error;
  (** [json.Marshal] and [json.Unmarshal] at the two types the code
      serialises.  Marshalling a struct of strings and integers does not
      fail. *)
  json_Marshal_TokenInfo : TokenInfo -> string;
  json_Unmarshal_TokenInfo : string -> option TokenInfo;
  json_Marshal_Session : SessionData -> string;
  json_Unmarshal_Session : string -> option SessionData
}.

(** The buffer [make([]byte, n)] after a read: it keeps its length. *)
Definition fill (n : nat) (bs : list Byte.byte) : list Byte.byte :=
  firstn n (bs ++ repeat Byte.x00 n).

(** ** encoding/hex and fmt *)

Definition hex_digit (n : N) : ascii :=
  match n with
  | 0%N => "0" | 1%N => "1" | 2%N => "2" | 3%N => "3" | 4%N => "4"
  | 5%N => "5" | 6%N => "6" | 7%N => "7" | 8%N => "8" | 9%N => "9"
  | 10%N => "a" | 11%N => "b" | 12%N => "c" | 13%N => "d" | 14%N => "e"
  | _ => "f"
  end%char.

(** [hex.EncodeToString] *)
Fixpoint hex_EncodeToString (bs : list Byte.byte) : string :=
  match bs with
  | [] => EmptyString
  | b :: bs' =>
      String (hex_digit (Byte.to_N b / 16))
        (String (hex_digit (Byte.to_N b mod 16)) (hex_EncodeToString bs'))
  end.

(** The verb [%d] of [fmt.Sprintf]. *)
Definition fmt_d (z : Z) : string := NilZero.string_of_int (Z.to_int z).

(** ** core/config *)
Module Config.

(** [TokenStyle] is a string type; these are its constants. *)
Definition TokenStyle := string.
Definition TokenStyleUUID : TokenStyle := "uuid".
Definition TokenStyleSimple : TokenStyle := "simple".
Definition TokenStyleRandom32 : TokenStyle := "random32".
Definition TokenStyleRandom64 : TokenStyle := "random64".
Definition TokenStyleRandom128 : TokenStyle := "random128".
Definition TokenStyleJWT : TokenStyle := "jwt".
Definition TokenStyleHash : TokenStyle := "hash".
Definition TokenStyleTimestamp : TokenStyle := "timestamp".
Definition TokenStyleTik : TokenStyle := "tik".

Record Config := {
  TokenName : string;
  Timeout : Z;
  ActiveTimeout : Z;
  IsConcurrent : bool;
  IsShare : bool;
  MaxLoginCount : Z;
  TokenStyle_ : TokenStyle;
  AutoRenew : bool;
  JwtSecretKey : string
}.

(** [DefaultConfig] *)
Definition DefaultConfig : Config := {|
  TokenName := "sa-token";
  Timeout := 2592000;
  ActiveTimeout := -1;
  IsConcurrent := true;
  IsShare := true;
  MaxLoginCount := 12;
  TokenStyle_ := TokenStyleUUID;
  AutoRenew := true;
  JwtSecretKey := ""
|}.

(** [SetTokenStyle] *)
Definition SetTokenStyle (c : Config) (style : TokenStyle) : Config :=
  {| TokenName := TokenName c; Timeout := Timeout c;
     ActiveTimeout := ActiveTimeout c; IsConcurrent := IsConcurrent c;
     IsShare := IsShare c; MaxLoginCount := MaxLoginCount c;
     TokenStyle_ := style; AutoRenew := AutoRenew c;
     JwtSecretKey := JwtSecretKey c |}.

End Config.

(** ** core/token *)
Module Token.
Import Config.

Section Generator.
Context `{GoEnv}.

(** [generateUUID] *)
Definition generateUUID (r : Rand) : result string * Rand :=
  match uuid_New r with
  | (Some u, r') => (Ok u, r')
  | (None, r') => (Panic, r')
  end.

(** [generateSimple] *)
Definition generateSimple (length : nat) (r : Rand) : result string * Rand :=
  match rand_Read length r with
  | (inr err, r') => (Err err, r')
  | (inl bs, r') =>
      let enc := base64_URLEncoding (fill length bs) in
      if (String.length enc <? length)%nat then (Panic, r')
      else (Ok (GoStrings.slice_to enc length), r')
  end.

(** [generateJWT] *)
Definition generateJWT (cfg : Config) (now : Time) (loginID device : string)
    : result string :=
  let claims := {|
    jwt_loginId := loginID;
    jwt_device := device;
    jwt_iat := Unix now;
    jwt_exp := if 0 <? Timeout cfg
               then Some (Unix (Add now (seconds (Timeout cfg)))) else None
  |} in
  let secretKey :=
    if String.eqb (JwtSecretKey cfg) "" then "default-secret-key"
    else JwtSecretKey cfg in
  match jwt_SignedString claims secretKey with
  | inl tok => Ok tok
  | inr err => Err err
  end.

(** [generateHash] *)
Definition generateHash (now : Time) (loginID device : string) (r : Rand)
    : result string * Rand :=
  match rand_Read 16 r with
  | (inr err, r') => (Err err, r')
  | (inl bs, r') =>
      let data := loginID +:+ ":" +:+ device +:+ ":" +:+ fmt_d now +:+ ":"
                  +:+ hex_EncodeToString (fill 16 bs) in
      (Ok (hex_EncodeToString (sha256_Sum256 (list_byte_of_string data))), r')
  end.

(** [generateTimestamp] *)
Definition generateTimestamp (now : Time) (loginID device : string) (r : Rand)
    : result string * Rand :=
  match rand_Read 8 r with
  | (inr err, r') => (Err err, r')
  | (inl bs, r') =>
      let timestamp := now / 1000000 in
      (Ok (fmt_d timestamp +:+ "_" +:+ loginID +:+ "_"
           +:+ hex_EncodeToString (fill 8 bs)), r')
  end.

Definition tik_charset : string :=
  "0123456789ABCDEFGHIJKLMNOPQRSTUVWXYZabcdefghijklmnopqrstuvwxyz".

(** The loop of [generateTik]: [n] more characters after [acc]. *)
Fixpoint generateTik_loop (n : nat) (acc : string) (r : Rand)
    : result string * Rand :=
  match n with
  | O => (Ok acc, r)
  | S n' =>
      match rand_Int (Z.of_nat (String.length tik_charset)) r with
      | (inr err, r') => (Err err, r')
      | (inl num, r') =>
          if (num <? 0) || (Z.of_nat (String.length tik_charset) <=? num)
          then (Panic, r')
          else match String.get (Z.to_nat num) tik_charset with
               | Some c => generateTik_loop n' (acc +:+ String c EmptyString) r'
               | None => (Panic, r')
               end
      end
  end.

(** [generateTik] *)
Definition generateTik (r : Rand) : result string * Rand :=
  generateTik_loop 11 EmptyString r.

(** [Generate] *)
Definition Generate (cfg : Config) (now : Time) (loginID device : string)
    (r : Rand) : result string * Rand :=
  let style := TokenStyle_ cfg in
  if String.eqb style TokenStyleUUID then generateUUID r
  else if String.eqb style TokenStyleSimple then generateSimple 16 r
  else if String.eqb style TokenStyleRandom32 then generateSimple 32 r
  else if String.eqb style TokenStyleRandom64 then generateSimple 64 r
  else if String.eqb style TokenStyleRandom128 then generateSimple 128 r
  else if String.eqb style TokenStyleJWT then (generateJWT cfg now loginID device, r)
  else if String.eqb style TokenStyleHash then generateHash now loginID device r
  else if String.eqb style TokenStyleTimestamp then generateTimestamp now loginID device r
  else if String.eqb style TokenStyleTik then generateTik r
  else generateUUID r.

End Generator.
End Token.

(** ** core/session *)
Module Session.
Section Session.
Context `{GoEnv}.

(** [NewSession] *)
Definition NewSession (now : Time) (id : string) : SessionData :=
  {| sessID := id; sessCreateTime := Unix now; Data := ∅ |}.

(** [Session.save] *)
Definition save (now : Time) (prefix : string) (sess : SessionData)
    (st : Memory.Storage) : Memory.Storage * option error :=
  let key := prefix +:+ "session:" +:+ sessID sess in
  Memory.Set_ now key (VString (json_Marshal_Session sess)) 0 st.

(** [Session.Set]: the session object after the call, and what [save] did. *)
Definition Set_ (now : Time) (prefix : string) (key : string) (v : svalue)
    (sess : SessionData) (st : Memory.Storage)
    : SessionData * (Memory.Storage * option error) :=
  let sess' := {| sessID := sessID sess;
                  sessCreateTime := sessCreateTime sess;
                  Data := <[key := v]> (Data sess) |} in
  (sess', save now prefix sess' st).

End Session.
End Session.

(** ** core/manager *)
Module Manager.
Import Config.

(** The fields of [Manager] that are plain data; the storage and the random
    source are the state the operations thread. *)
Record Manager := {
  config : Config;
  prefix : string
}.

(** [NewManager] *)
Definition NewManager (cfg : option Config) : Manager :=
  {| config := match cfg with Some c => c | None => DefaultConfig end;
     prefix := "satoken:" |}.

(** [getTokenKey] *)
Definition getTokenKey (m : Manager) (tokenValue : string) : string :=
  prefix m +:+ "token:" +:+ tokenValue.

(** [getAccountKey] *)
Definition getAccountKey (m : Manager) (loginID device : string) : string :=
  prefix m +:+ "account:" +:+ loginID +:+ ":" +:+ device.

(** The variadic [device ...string]: the first one, or ["default"]. *)
Definition deviceType (device : list string) : string :=
  match device with
  | d :: _ => d
  | [] => "default"
  end.

(** The [expiration] computed from [config.Timeout]. *)
Definition expiration_of (m : Manager) : Duration :=
  if 0 <? Timeout (config m) then seconds (Timeout (config m)) else 0.

(** [matchPermission] *)
Definition matchPermission (pattern permission : string) : bool :=
  if String.eqb pattern "*" || String.eqb pattern permission then true
  else if GoStrings.HasSuffix pattern ":*" then
    GoStrings.HasPrefix permission (GoStrings.TrimSuffix pattern "*")
  else if GoStrings.Contains pattern "*" then
    let parts := GoStrings.Split pattern ":"%char in
    let permParts := GoStrings.Split permission ":"%char in
    if negb (length parts =? length permParts)%nat then false
    else
      forallb (fun '(part, permPart) =>
                 negb (negb (String.eqb part "*")
                       && negb (String.eqb part permPart)))
              (combine parts permParts)
  else false.

Section Manager.
Context `{GoEnv}.

(** [saveTokenInfo] *)
Definition saveTokenInfo (m : Manager) (now : Time) (tokenValue : string)
    (info : TokenInfo) (expiration : Duration) (st : Memory.Storage)
    : Memory.Storage * option error :=
  let data := json_Marshal_TokenInfo info in
  Memory.Set_ now (getTokenKey m tokenValue) (VString data) expiration st.

(** [getTokenInfo] *)
Definition getTokenInfo (m : Manager) (now : Time) (tokenValue : string)
    (st : Memory.Storage) : result TokenInfo :=
  match Memory.Get now (getTokenKey m tokenValue) st with
  | inr _ | inl VNil => Err "token not found"
  | inl (VString data) =>
      match json_Unmarshal_TokenInfo data with
      | Some info => Ok info
      | None => Err "invalid token data"
      end
  | inl _ => Panic
  end.

(** [IsDisable] *)
Definition IsDisable (m : Manager) (now : Time) (loginID : string)
    (st : Memory.Storage) : bool :=
  Memory.Exists_ now (prefix m +:+ "disable:" +:+ loginID) st.

(** [kickout] *)
Definition kickout (m : Manager) (now : Time) (loginID device : string)
    (st : Memory.Storage) : result unit * Memory.Storage :=
  let accountKey := getAccountKey m loginID device in
  match Memory.Get now accountKey st with
  | inr _ | inl VNil => (Ok tt, st)
  | inl (VString tokenValue) =>
      match Memory.Delete (getTokenKey m tokenValue) st with
      | (st', None) => (Ok tt, st')
      | (st', Some err) => (Err err, st')
      end
  | inl _ => (Panic, st)
  end.

(** [Kickout] *)
Definition Kickout (m : Manager) (now : Time) (loginID : string)
    (device : list string) (st : Memory.Storage)
    : result unit * Memory.Storage :=
  kickout m now loginID (deviceType device) st.

(** [Login] *)
Definition Login (m : Manager) (now : Time) (loginID : string)
    (device : list string) (st : Memory.Storage) (r : Rand)
    : result string * Memory.Storage * Rand :=
  let deviceType := deviceType device in
  if IsDisable m now loginID st then (Err "account is disabled", st, r)
  else
    match (if negb (IsConcurrent (config m))
           then kickout m now loginID deviceType st else (Ok tt, st)) with
    | (Panic, st1) => (Panic, st1, r)
    | (_, st1) =>
        match Token.Generate (config m) now loginID deviceType r with
        | (Panic, r') => (Panic, st1, r')
        | (Err err, r') => (Err ("failed to generate token: " +:+ err), st1, r')
        | (Ok tokenValue, r') =>
            let expiration := expiration_of m in
            let now_s := Unix now in
            let tokenInfo := {| LoginID := loginID; Device := deviceType;
                                tiCreateTime := now_s; ActiveTime := now_s;
                                Tag := "" |} in
            match saveTokenInfo m now tokenValue tokenInfo expiration st1 with
            | (st2, Some err) => (Err err, st2, r')
            | (st2, None) =>
                let accountKey := getAccountKey m loginID deviceType in
                match Memory.Set_ now accountKey (VString tokenValue)
                        expiration st2 with
                | (st3, Some err) =>
                    (Err ("failed to save account mapping: " +:+ err), st3, r')
                | (st3, None) =>
                    let sess := Session.NewSession now loginID in
                    let '(sess, (st4, _)) :=
                      Session.Set_ now (prefix m) "loginId" (SString loginID)
                        sess st3 in
                    let '(sess, (st5, _)) :=
                      Session.Set_ now (prefix m) "device" (SString deviceType)
                        sess st4 in
                    let '(sess, (st6, _)) :=
                      Session.Set_ now (prefix m) "loginTime" (SInt64 now_s)
                        sess st5 in
                    (Ok tokenValue, st6, r')
                end
            end
        end
    end.

(** [Logout] *)
Definition Logout (m : Manager) (now : Time) (loginID : string)
    (device : list string) (st : Memory.Storage)
    : result unit * Memory.Storage :=
  let accountKey := getAccountKey m loginID (deviceType device) in
  match Memory.Get now accountKey st with
  | inr _ | inl VNil => (Ok tt, st)
  | inl (VString tokenValue) =>
      let '(st1, _) := Memory.Delete (getTokenKey m tokenValue) st in
      let '(st2, _) := Memory.Delete accountKey st1 in
      (Ok tt, st2)
  | inl _ => (Panic, st)
  end.

(** [LogoutByToken] *)
Definition LogoutByToken (m : Manager) (tokenValue : string)
    (st : Memory.Storage) : result unit * Memory.Storage :=
  let '(st1, _) := Memory.Delete (getTokenKey m tokenValue) st in
  (Ok tt, st1).

(** The body of the goroutine [IsLogin] starts for auto-renewal.  It runs
    detached, at an instant of its own; its errors are dropped. *)
Definition renew (m : Manager) (now : Time) (tokenValue : string)
    (st : Memory.Storage) : result unit * Memory.Storage :=
  let expiration := seconds (Timeout (config m)) in
  let '(st1, _) := Memory.Expire now (getTokenKey m tokenValue) expiration st in
  match getTokenInfo m now tokenValue st1 with
  | Ok info =>
      let info' := {| LoginID := LoginID info; Device := Device info;
                      tiCreateTime := tiCreateTime info;
                      ActiveTime := Unix now; Tag := Tag info |} in
      let '(st2, _) := saveTokenInfo m now tokenValue info' expiration st1 in
      (Ok tt, st2)
  | Err _ => (Ok tt, st1)
  | Panic => (Panic, st1)
  end.

(** What a call of [IsLogin] leaves behind: the answer and whether the
    renewal goroutine was started. *)
Record IsLoginResult := {
  logged_in : bool;
  renewal_started : bool
}.

(** [IsLogin] *)
Definition IsLogin (m : Manager) (now : Time) (tokenValue : string)
    (st : Memory.Storage) : result IsLoginResult * Memory.Storage :=
  let no := {| logged_in := false; renewal_started := false |} in
  if String.eqb tokenValue "" then (Ok no, st)
  else
    let tokenKey := getTokenKey m tokenValue in
    if negb (Memory.Exists_ now tokenKey st) then (Ok no, st)
    else
      let continue (_ : unit) :=
        (Ok {| logged_in := true;
               renewal_started :=
                 AutoRenew (config m) && (0 <? Timeout (config m)) |}, st) in
      if 0 <? ActiveTimeout (config m) then
        match getTokenInfo m now tokenValue st with
        | Panic => (Panic, st)
        | Err _ => continue tt
        | Ok info =>
            let elapsed := wrap64 (Unix now - ActiveTime info) in
            if ActiveTimeout (config m) <? elapsed then
              let '(_, st1) := LogoutByToken m tokenValue st in
              (Ok no, st1)
            else continue tt
        end
      else continue tt.

(** [GetTokenValue] *)
Definition GetTokenValue (m : Manager) (now : Time) (loginID : string)
    (device : list string) (st : Memory.Storage) : result string :=
  match Memory.Get now (getAccountKey m loginID (deviceType device)) st with
  | inr _ | inl VNil => Err ("token not found for login id: " +:+ loginID)
  | inl (VString tokenValue) => Ok tokenValue
  | inl _ => Panic
  end.

(** The loop of [GetTokenValueListByLoginID] over the keys. *)
Fixpoint collect_tokens (now : Time) (keys : list string)
    (st : Memory.Storage) (tokens : list string) : result (list string) :=
  match keys with
  | [] => Ok tokens
  | key :: keys' =>
      match Memory.Get now key st with
      | inr _ | inl VNil => collect_tokens now keys' st tokens
      | inl (VString tokenValue) =>
          collect_tokens now keys' st (tokens ++ [tokenValue])
      | inl _ => Panic
      end
  end.

(** [GetTokenValueListByLoginID] *)
Definition GetTokenValueListByLoginID (m : Manager) (now : Time)
    (loginID : string) (st : Memory.Storage) : result (list string) :=
  let pattern := prefix m +:+ "account:" +:+ loginID +:+ ":*" in
  match Memory.Keys now pattern st with
  | (_, Some err) => Err err
  | (keys, None) => collect_tokens now keys st []
  end.

End Manager.

Section Accessors.
Context `{GoEnv}.

(** [LoginByToken] *)
Definition LoginByToken (m : Manager) (now : Time) (loginID tokenValue : string)
    (device : list string) (st : Memory.Storage)
    : Memory.Storage * option error :=
  let deviceType := deviceType device in
  let expiration := expiration_of m in
  let now_s := Unix now in
  let tokenInfo := {| LoginID := loginID; Device := deviceType;
                      tiCreateTime := now_s; ActiveTime := now_s;
                      Tag := "" |} in
  match saveTokenInfo m now tokenValue tokenInfo expiration st with
  | (st1, Some err) => (st1, Some err)
  | (st1, None) =>
      Memory.Set_ now (getAccountKey m loginID deviceType)
        (VString tokenValue) expiration st1
  end.

(** [CheckLogin]: the error, the storage, and whether [IsLogin] started the
    renewal. *)
Definition CheckLogin (m : Manager) (now : Time) (tokenValue : string)
    (st : Memory.Storage) : result unit * Memory.Storage * bool :=
  match IsLogin m now tokenValue st with
  | (Ok res, st') =>
      if logged_in res then (Ok tt, st', renewal_started res)
      else (Err "not login", st', renewal_started res)
  | (Err e, st') => (Err e, st', false)
  | (Panic, st') => (Panic, st', false)
  end.

(** [GetLoginID] *)
Definition GetLoginID (m : Manager) (now : Time) (tokenValue : string)
    (st : Memory.Storage) : result string * Memory.Storage * bool :=
  match IsLogin m now tokenValue st with
  | (Ok res, st') =>
      if logged_in res then
        match getTokenInfo m now tokenValue st' with
        | Ok info => (Ok (LoginID info), st', renewal_started res)
        | Err e => (Err e, st', renewal_started res)
        | Panic => (Panic, st', renewal_started res)
        end
      else (Err "not login", st', renewal_started res)
  | (Err e, st') => (Err e, st', false)
  | (Panic, st') => (Panic, st', false)
  end.

(** [GetLoginIDNotCheck] *)
Definition GetLoginIDNotCheck (m : Manager) (now : Time) (tokenValue : string)
    (st : Memory.Storage) : result string :=
  match getTokenInfo m now tokenValue st with
  | Ok info => Ok (LoginID info)
  | Err e => Err e
  | Panic => Panic
  end.

(** [SetTokenTag] *)
Definition SetTokenTag (m : Manager) (now : Time) (tokenValue tag : string)
    (st : Memory.Storage) : result unit * Memory.Storage :=
  match getTokenInfo m now tokenValue st with
  | Err e => (Err e, st)
  | Panic => (Panic, st)
  | Ok info =>
      let info' := {| LoginID := LoginID info; Device := Device info;
                      tiCreateTime := tiCreateTime info;
                      ActiveTime := ActiveTime info; Tag := tag |} in
      match saveTokenInfo m now tokenValue info' (expiration_of m) st with
      | (st', None) => (Ok tt, st')
      | (st', Some err) => (Err err, st')
      end
  end.

(** [GetTokenTag] *)
Definition GetTokenTag (m : Manager) (now : Time) (tokenValue : string)
    (st : Memory.Storage) : result string :=
  match getTokenInfo m now tokenValue st with
  | Ok info => Ok (Tag info)
  | Err e => Err e
  | Panic => Panic
  end.

End Accessors.

(** [Disable] *)
Definition Disable (m : Manager) (now : Time) (loginID : string)
    (duration : Duration) (st : Memory.Storage)
    : Memory.Storage * option error :=
  Memory.Set_ now (prefix m +:+ "disable:" +:+ loginID) (VString "1") duration st.

(** [Untie] *)
Definition Untie (m : Manager) (loginID : string) (st : Memory.Storage)
    : Memory.Storage * option error :=
  Memory.Delete (prefix m +:+ "disable:" +:+ loginID) st.

(** [GetDisableTime] *)
Definition GetDisableTime (m : Manager) (now : Time) (loginID : string)
    (st : Memory.Storage) : Z * option error :=
  match Memory.TTL now (prefix m +:+ "disable:" +:+ loginID) st with
  | (_, Some err) => (-2, Some err)
  | (ttl, None) => (Seconds_int64 ttl, None)
  end.

End Manager.

(** ** core/manager and core/session: sessions, permissions and roles *)
Module ManagerSession.
Import Config Manager.

(** [toStringSlice].  A list of strings is a [[]string] when [Set] puts it
    into the session and a [[]interface{}] of strings once the session was
    decoded from its JSON text; [SStrings] stands for both, and both cases
    of the type switch give the list.  Every other value gives the empty
    list. *)
Definition toStringSlice (v : svalue) : list string :=
  match v with
  | SStrings l => l
  | _ => []
  end.

Section ManagerSession.
Context `{GoEnv}.

(** [session.Load] *)
Definition Load (now : Time) (id : string) (prefix_ : string)
    (st : Memory.Storage) : result SessionData :=
  match Memory.Get now (prefix_ +:+ "session:" +:+ id) st with
  | inr err => Err err
  | inl VNil => Err "session not found"
  | inl (VString data) =>
      match json_Unmarshal_Session data with
      | Some sess => Ok sess
      | None => Err "failed to unmarshal session"
      end
  | inl _ => Panic
  end.

(** [Session.Destroy] *)
Definition Destroy (prefix_ : string) (sess : SessionData)
    (st : Memory.Storage) : Memory.Storage * option error :=
  Memory.Delete (prefix_ +:+ "session:" +:+ sessID sess) st.

(** [GetSession]: a session that cannot be loaded is replaced by a new
    one, which is not saved. *)
Definition GetSession (m : Manager) (now : Time) (loginID : string)
    (st : Memory.Storage) : result SessionData :=
  match Load now loginID (prefix m) st with
  | Ok sess => Ok sess
  | Err _ => Ok (Session.NewSession now loginID)
  | Panic => Panic
  end.

(** [DeleteSession] *)
Definition DeleteSession (m : Manager) (now : Time) (loginID : string)
    (st : Memory.Storage) : result unit * Memory.Storage :=
  match GetSession m now loginID st with
  | Ok sess =>
      match Destroy (prefix m) sess st with
      | (st', None) => (Ok tt, st')
      | (st', Some err) => (Err err, st')
      end
  | Err err => (Err err, st)
  | Panic => (Panic, st)
  end.

(** [SetPermissions] *)
Definition SetPermissions (m : Manager) (now : Time) (loginID : string)
    (permissions : list string) (st : Memory.Storage)
    : result unit * Memory.Storage :=
  match GetSession m now loginID st with
  | Ok sess =>
      match (Session.Set_ now (prefix m) "permissions" (SStrings permissions)
               sess st).2 with
      | (st', None) => (Ok tt, st')
      | (st', Some err) => (Err err, st')
      end
  | Err err => (Err err, st)
  | Panic => (Panic, st)
  end.

(** [GetPermissions] *)
Definition GetPermissions (m : Manager) (now : Time) (loginID : string)
    (st : Memory.Storage) : result (list string) :=
  match GetSession m now loginID st with
  | Ok sess =>
      match Data sess !! "permissions" with
      | None => Ok []
      | Some perms => Ok (toStringSlice perms)
      end
  | Err err => Err err
  | Panic => Panic
  end.

(** [HasPermission] *)
Definition HasPermission (m : Manager) (now : Time) (loginID permission : string)
    (st : Memory.Storage) : result bool :=
  match GetPermissions m now loginID st with
  | Ok perms => Ok (existsb (fun p => matchPermission p permission) perms)
  | Err _ => Ok false
  | Panic => Panic
  end.

(** [HasPermissionsAnd] *)
Fixpoint HasPermissionsAnd (m : Manager) (now : Time) (loginID : string)
    (permissions : list string) (st : Memory.Storage) : result bool :=
  match permissions with
  | [] => Ok true
  | perm :: rest =>
      match HasPermission m now loginID perm st with
      | Ok true => HasPermissionsAnd m now loginID rest st
      | Ok false => Ok false
      | Err err => Err err
      | Panic => Panic
      end
  end.

(** [HasPermissionsOr] *)
Fixpoint HasPermissionsOr (m : Manager) (now : Time) (loginID : string)
    (permissions : list string) (st : Memory.Storage) : result bool :=
  match permissions with
  | [] => Ok false
  | perm :: rest =>
      match HasPermission m now loginID perm st with
      | Ok true => Ok true
      | Ok false => HasPermissionsOr m now loginID rest st
      | Err err => Err err
      | Panic => Panic
      end
  end.

(** [SetRoles] *)
Definition SetRoles (m : Manager) (now : Time) (loginID : string)
    (roles : list string) (st : Memory.Storage)
    : result unit * Memory.Storage :=
  match GetSession m now loginID st with
  | Ok sess =>
      match (Session.Set_ now (prefix m) "roles" (SStrings roles) sess st).2 with
      | (st', None) => (Ok tt, st')
      | (st', Some err) => (Err err, st')
      end
  | Err err => (Err err, st)
  | Panic => (Panic, st)
  end.

(** [GetRoles] *)
Definition GetRoles (m : Manager) (now : Time) (loginID : string)
    (st : Memory.Storage) : result (list string) :=
  match GetSession m now loginID st with
  | Ok sess =>
      match Data sess !! "roles" with
      | None => Ok []
      | Some roles => Ok (toStringSlice roles)
      end
  | Err err => Err err
  | Panic => Panic
  end.

(** [HasRole] *)
Definition HasRole (m : Manager) (now : Time) (loginID role : string)
    (st : Memory.Storage) : result bool :=
  match GetRoles m now loginID st with
  | Ok roles => Ok (existsb (fun r => String.eqb r role) roles)
  | Err _ => Ok false
  | Panic => Panic
  end.

(** [HasRolesAnd] *)
Fixpoint HasRolesAnd (m : Manager) (now : Time) (loginID : string)
    (roles : list string) (st : Memory.Storage) : result bool :=
  match roles with
  | [] => Ok true
  | role :: rest =>
      match HasRole m now loginID role st with
      | Ok true => HasRolesAnd m now loginID rest st
      | Ok false => Ok false
      | Err err => Err err
      | Panic => Panic
      end
  end.

(** [HasRolesOr] *)
Fixpoint HasRolesOr (m : Manager) (now : Time) (loginID : string)
    (roles : list string) (st : Memory.Storage) : result bool :=
  match roles with
  | [] => Ok false
  | role :: rest =>
      match HasRole m now loginID role st with
      | Ok true => Ok true
      | Ok false => HasRolesOr m now loginID rest st
      | Err err => Err err
      | Panic => Panic
      end
  end.

End ManagerSession.
End ManagerSession.

(** ** core/security: the nonce manager *)
Module Security.

(** [NonceManager]: the configured time to live.  The mutex serialises
    [Verify]; in the embedding a call is one atomic step. *)
Record NonceManager := { ttl : Duration }.

(** [NewNonceManager] *)
Definition NewNonceManager (ttl : Duration) : NonceManager :=
  {| ttl := if ttl =? 0 then 5 * Minute else ttl |}.

Definition nonceKey (nonce : string) : string := "satoken:nonce:" +:+ nonce.

Section Nonce.
Context `{GoEnv}.

(** [NonceManager.Generate] *)
Definition Generate (nm : NonceManager) (now : Time) (st : Memory.Storage)
    (r : Rand) : result string * Memory.Storage * Rand :=
  match rand_Read 32 r with
  | (inr err, r') => (Err err, st, r')
  | (inl bs, r') =>
      let nonce := hex_EncodeToString (fill 32 bs) in
      match Memory.Set_ now (nonceKey nonce) (VInt64 (Unix now)) (ttl nm) st with
      | (st', Some err) => (Err err, st', r')
      | (st', None) => (Ok nonce, st', r')
      end
  end.

End Nonce.

(** [NonceManager.Verify] *)
Definition Verify (nm : NonceManager) (now : Time) (nonce : string)
    (st : Memory.Storage) : bool * Memory.Storage :=
  if String.eqb nonce "" then (false, st)
  else
    let key := nonceKey nonce in
    if negb (Memory.Exists_ now key st) then (false, st)
    else
      let '(st', _) := Memory.Delete key st in
      (true, st').

(** [NonceManager.VerifyAndConsume] *)
Definition VerifyAndConsume (nm : NonceManager) (now : Time) (nonce : string)
    (st : Memory.Storage) : option error * Memory.Storage :=
  match Verify nm now nonce st with
  | (false, st') => (Some "invalid or expired nonce", st')
  | (true, st') => (None, st')
  end.

Section After.
Context `{GoEnv}.

(** What may happen to the storage after a nonce [N] was consumed, short
    of generating [N] again: any verification, a sweep of the storage, the
    generation of another nonce. *)
Inductive later_step (nm : NonceManager) (N : string)
  : Memory.Storage -> Memory.Storage -> Prop :=
| later_verify now n st :
    later_step nm N st (Verify nm now n st).2
| later_cleanup now st :
    later_step nm N st (Memory.cleanup_tick now st)
| later_generate now st r n st' r' :
    Generate nm now st r = (Ok n, st', r') -> n <> N ->
    later_step nm N st st'.

End After.

End Security.

(** ** core/oauth2 *)
Module OAuth2.

Definition GrantType := string.
Definition GrantTypeAuthorizationCode : GrantType := "authorization_code".
Definition GrantTypeRefreshToken : GrantType := "refresh_token".
Definition GrantTypeClientCredentials : GrantType := "client_credentials".
Definition GrantTypePassword : GrantType := "password".

Record Client := {
  ClientID : string;
  ClientSecret : string;
  RedirectURIs : list string;
  GrantTypes : list GrantType;
  Scopes : list string
}.

(** [OAuth2Server]: the registered clients and the two lifetimes; the
    storage is threaded through the operations. *)
Record OAuth2Server := {
  clients : gmap string Client;
  codeExpiration : Duration;
  tokenExpiration : Duration
}.

(** [NewOAuth2Server] *)
Definition NewOAuth2Server : OAuth2Server :=
  {| clients := ∅; codeExpiration := 10 * Minute; tokenExpiration := 2 * Hour |}.

(** [RegisterClient] *)
Definition RegisterClient (s : OAuth2Server) (client : Client) : OAuth2Server :=
  {| clients := <[ClientID client := client]> (clients s);
     codeExpiration := codeExpiration s;
     tokenExpiration := tokenExpiration s |}.

(** [GetClient] *)
Definition GetClient (s : OAuth2Server) (clientID : string) : result Client :=
  match clients s !! clientID with
  | Some client => Ok client
  | None => Err "client not found"
  end.

(** The server after the clients [cs] were registered, in that order. *)
Definition registered (cs : list Client) : OAuth2Server :=
  foldl RegisterClient NewOAuth2Server cs.

Definition codeKey (code : string) : string := "satoken:oauth2:code:" +:+ code.
Definition tokenKey (token : string) : string := "satoken:oauth2:token:" +:+ token.
Definition refreshKey (token : string) : string :=
  "satoken:oauth2:refresh:" +:+ token.

Definition mark_used (c : AuthorizationCode) : AuthorizationCode :=
  {| Code := Code c; acClientID := acClientID c;
     acRedirectURI := acRedirectURI c; acUserID := acUserID c;
     acScopes := acScopes c; CreateTime := CreateTime c;
     acExpiresIn := acExpiresIn c; Used := true |}.

Section Server.
Context `{GoEnv}.

(** [GenerateAuthorizationCode] *)
Definition GenerateAuthorizationCode (s : OAuth2Server) (now : Time)
    (clientID redirectURI userID : string) (scopes : list string)
    (st : Memory.Storage) (r : Rand)
    : result AuthorizationCode * Memory.Storage * Rand :=
  match GetClient s clientID with
  | Err err => (Err err, st, r)
  | Panic => (Panic, st, r)
  | Ok client =>
      if negb (existsb (fun uri => String.eqb uri redirectURI)
                 (RedirectURIs client))
      then (Err "invalid redirect_uri", st, r)
      else
        match rand_Read 32 r with
        | (inr err, r') => (Err err, st, r')
        | (inl bs, r') =>
            let code := hex_EncodeToString (fill 32 bs) in
            let authCode := {|
              Code := code; acClientID := clientID;
              acRedirectURI := redirectURI; acUserID := userID;
              acScopes := scopes; CreateTime := Unix now;
              acExpiresIn := Seconds_int64 (codeExpiration s);
              Used := false |} in
            match Memory.Set_ now (codeKey code) (VAuthCode authCode)
                    (codeExpiration s) st with
            | (st', Some err) => (Err err, st', r')
            | (st', None) => (Ok authCode, st', r')
            end
        end
  end.

(** [generateAccessToken] *)
Definition generateAccessToken (s : OAuth2Server) (now : Time)
    (userID clientID : string) (scopes : list string)
    (st : Memory.Storage) (r : Rand)
    : result AccessToken * Memory.Storage * Rand :=
  match rand_Read 32 r with
  | (inr err, r1) => (Err err, st, r1)
  | (inl tokenBytes, r1) =>
      let accessToken := hex_EncodeToString (fill 32 tokenBytes) in
      match rand_Read 32 r1 with
      | (inr err, r2) => (Err err, st, r2)
      | (inl refreshBytes, r2) =>
          let refreshToken := hex_EncodeToString (fill 32 refreshBytes) in
          let token := {|
            Token_ := accessToken; TokenType := "Bearer";
            atExpiresIn := Seconds_int64 (tokenExpiration s);
            RefreshToken := refreshToken; atScopes := scopes;
            atUserID := userID; atClientID := clientID |} in
          match Memory.Set_ now (tokenKey accessToken) (VAccessToken token)
                  (tokenExpiration s) st with
          | (st1, Some err) => (Err err, st1, r2)
          | (st1, None) =>
              match Memory.Set_ now (refreshKey refreshToken)
                      (VAccessToken token) (30 * 24 * Hour) st1 with
              | (st2, Some err) => (Err err, st2, r2)
              | (st2, None) => (Ok token, st2, r2)
              end
          end
      end
  end.

(** [ExchangeCodeForToken] *)
Definition ExchangeCodeForToken (s : OAuth2Server) (now : Time)
    (code clientID clientSecret redirectURI : string)
    (st : Memory.Storage) (r : Rand)
    : result AccessToken * Memory.Storage * Rand :=
  match GetClient s clientID with
  | Err err => (Err err, st, r)
  | Panic => (Panic, st, r)
  | Ok client =>
      if negb (String.eqb (ClientSecret client) clientSecret)
      then (Err "invalid client credentials", st, r)
      else
        let key := codeKey code in
        match Memory.Get now key st with
        | inr _ => (Err "invalid authorization code", st, r)
        | inl (VAuthCode authCode) =>
            if Used authCode
            then (Err "authorization code already used", st, r)
            else if negb (String.eqb (acClientID authCode) clientID)
            then (Err "client mismatch", st, r)
            else if negb (String.eqb (acRedirectURI authCode) redirectURI)
            then (Err "redirect_uri mismatch", st, r)
            else if wrap64 (CreateTime authCode + acExpiresIn authCode)
                    <? Unix now
            then
              let '(st1, _) := Memory.Delete key st in
              (Err "authorization code expired", st1, r)
            else
              let authCode' := mark_used authCode in
              let '(st1, _) :=
                Memory.Set_ now key (VAuthCode authCode') Minute st in
              generateAccessToken s now (acUserID authCode')
                (acClientID authCode') (acScopes authCode') st1 r
        | inl _ => (Err "invalid code data", st, r)
        end
  end.

End Server.

(** [ValidateAccessToken] *)
Definition ValidateAccessToken (now : Time) (tokenString : string)
    (st : Memory.Storage) : result AccessToken :=
  match Memory.Get now (tokenKey tokenString) st with
  | inr _ => Err "invalid access token"
  | inl (VAccessToken token) => Ok token
  | inl _ => Err "invalid token data"
  end.

Section Refresh.
Context `{GoEnv}.

(** [RefreshAccessToken] *)
Definition RefreshAccessToken (s : OAuth2Server) (now : Time)
    (refreshToken clientID clientSecret : string)
    (st : Memory.Storage) (r : Rand)
    : result AccessToken * Memory.Storage * Rand :=
  match GetClient s clientID with
  | Err err => (Err err, st, r)
  | Panic => (Panic, st, r)
  | Ok client =>
      if negb (String.eqb (ClientSecret client) clientSecret)
      then (Err "invalid client credentials", st, r)
      else
        match Memory.Get now (refreshKey refreshToken) st with
        | inr _ => (Err "invalid refresh token", st, r)
        | inl (VAccessToken oldToken) =>
            if negb (String.eqb (atClientID oldToken) clientID)
            then (Err "client mismatch", st, r)
            else
              let '(st1, _) := Memory.Delete (tokenKey (Token_ oldToken)) st in
              generateAccessToken s now (atUserID oldToken)
                (atClientID oldToken) (atScopes oldToken) st1 r
        | inl _ => (Err "invalid refresh token data", st, r)
        end
  end.

End Refresh.

(** [RevokeToken] *)
Definition RevokeToken (now : Time) (tokenString : string)
    (st : Memory.Storage) : option error * Memory.Storage :=
  let key := tokenKey tokenString in
  match Memory.Get now key st with
  | inr err => (Some err, st)
  | inl data =>
      let st1 :=
        match data with
        | VAccessToken token =>
            if negb (String.eqb (RefreshToken token) "")
            then (Memory.Delete (refreshKey (RefreshToken token)) st).1
            else st
        | _ => st
        end in
      let '(st2, err) := Memory.Delete key st1 in
      (err, st2)
  end.

End OAuth2.

(** ** A concrete environment, to run the code on examples *)
Module Demo.

(** The random source is a tape: every read takes the next entry, [Some b]
    for a read that succeeds and fills the buffer with the byte [b], [None]
    for a read that fails.  An exhausted tape fails. *)
Definition tape := list (option Byte.byte).

Definition entropy_error : error := "entropy source unavailable".

Definition tape_Read (n : nat) (t : tape) : (list Byte.byte + error) * tape :=
  match t with
  | Some b :: t' => (inl (repeat b n), t')
  | None :: t' => (inr entropy_error, t')
  | [] => (inr entropy_error, [])
  end.

Definition tape_Int (max : Z) (t : tape) : (Z + error) * tape :=
  match t with
  | Some b :: t' => (inl (Z.of_N (Byte.to_N b) mod max), t')
  | None :: t' => (inr entropy_error, t')
  | [] => (inr entropy_error, [])
  end.

(** [uuid.New] is [Must(NewRandom())]: it reads 16 bytes and panics when
    the read fails.  The text is the hexadecimal form of the bytes. *)
Definition tape_uuid (t : tape) : option string * tape :=
  match tape_Read 16 t with
  | (inl bs, t') => (Some (hex_EncodeToString bs), t')
  | (inr _, t') => (None, t')
  end.

(** A comma-separated serialisation of [TokenInfo] stands in for JSON. *)
Definition marshal_TokenInfo (i : TokenInfo) : string :=
  LoginID i +:+ "," +:+ Device i +:+ "," +:+ fmt_d (tiCreateTime i) +:+ ","
  +:+ fmt_d (ActiveTime i) +:+ "," +:+ Tag i.

Definition unmarshal_TokenInfo (s : string) : option TokenInfo :=
  match GoStrings.Split s ","%char with
  | [l; d; c; a; t] =>
      match NilZero.int_of_string c, NilZero.int_of_string a with
      | Some c', Some a' =>
          Some {| LoginID := l; Device := d; tiCreateTime := Z.of_int c';
                  ActiveTime := Z.of_int a'; Tag := t |}
      | _, _ => None
      end
  | _ => None
  end.

#[export] Instance env : GoEnv := {|
  Rand := tape;
  rand_Read := tape_Read;
  rand_Int := tape_Int;
  uuid_New := tape_uuid;
  base64_URLEncoding := hex_EncodeToString;
  sha256_Sum256 := fun bs => fill 32 bs;
  jwt_SignedString := fun c key =>
    inl (jwt_loginId c +:+ "." +:+ jwt_device c +:+ "." +:+ fmt_d (jwt_iat c));
  json_Marshal_TokenInfo := marshal_TokenInfo;
  json_Unmarshal_TokenInfo := unmarshal_TokenInfo;
  json_Marshal_Session := fun s => sessID s;
  json_Unmarshal_Session := fun _ => None
|}.

(** Instants used in the examples, in seconds after the epoch. *)
Definition at_second (n : Z) : Time := n * Second.

Definition manager_with (cfg : Config.Config) : Manager.Manager :=
  Manager.NewManager (Some cfg).

(** The default configuration with another token style. *)
Definition styled (style : Config.TokenStyle) : Config.Config :=
  Config.SetTokenStyle Config.DefaultConfig style.

(** A manager with the default configuration, and the storage after
    ["alice"] logged in on the default device at second 1000. *)
Definition m0 : Manager.Manager := Manager.NewManager None.


Definition alice_login : result string * Memory.Storage * tape :=
  Manager.Login m0 (at_second 1000) "alice" [] Memory.NewStorage [Some Byte.x2a].

Definition alice_token : string :=
  match alice_login.1.1 with Ok t => t | _ => "" end.

Definition alice_store : Memory.Storage := alice_login.1.2.

(** ["alice"] logs in a second time on the same device, at second 1001. *)
Definition alice_relogin : result string * Memory.Storage * tape :=
  Manager.Login m0 (at_second 1001) "alice" [] alice_store [Some Byte.x2b].

Definition alice_token2 : string := "2b2b2b2b2b2b2b2b2b2b2b2b2b2b2b2b".

Definition alice_store2 : Memory.Storage := alice_relogin.1.2.

(** A nonce generated at second 1000 by a manager with the default time
    to live. *)
Definition nonces : Security.NonceManager := Security.NewNonceManager 0.

Definition nonce_run : result string * Memory.Storage * tape :=
  Security.Generate nonces (at_second 1000) Memory.NewStorage [Some Byte.x07].

Definition nonce_N : string :=
  "0707070707070707070707070707070707070707070707070707070707070707".

Definition nonce_store : Memory.Storage := nonce_run.1.2.

(** An OAuth2 server with one client.  A code is issued at second 1000
    and exchanged at second 1001; the same code is presented again 30 and 61
    seconds after the exchange. *)
Definition client : OAuth2.Client :=
  {| OAuth2.ClientID := "app"; OAuth2.ClientSecret := "s3cret";
     OAuth2.RedirectURIs := ["https://app.example/cb"];
     OAuth2.GrantTypes := [OAuth2.GrantTypeAuthorizationCode;
                           OAuth2.GrantTypeRefreshToken];
     OAuth2.Scopes := ["read"] |}.

Definition server : OAuth2.OAuth2Server := OAuth2.registered [client].

Definition code_run : result AuthorizationCode * Memory.Storage * tape :=
  OAuth2.GenerateAuthorizationCode server (at_second 1000) "app"
    "https://app.example/cb" "user1" ["read"] Memory.NewStorage
    [Some Byte.x0c; Some Byte.xa1; Some Byte.xb1; Some Byte.xa2; Some Byte.xb2;
     Some Byte.xa3; Some Byte.xb3].

Definition the_code : string :=
  "0c0c0c0c0c0c0c0c0c0c0c0c0c0c0c0c0c0c0c0c0c0c0c0c0c0c0c0c0c0c0c0c".

Definition exchange (now : Time) (st : Memory.Storage) (t : tape)
  : result AccessToken * Memory.Storage * tape :=
  OAuth2.ExchangeCodeForToken server now the_code "app" "s3cret"
    "https://app.example/cb" st t.

Definition first_exchange : result AccessToken * Memory.Storage * tape :=
  exchange (at_second 1001) code_run.1.2 code_run.2.

Definition replay_within : result AccessToken * Memory.Storage * tape :=
  exchange (at_second 1031) first_exchange.1.2 first_exchange.2.

Definition replay_after : result AccessToken * Memory.Storage * tape :=
  exchange (at_second 1062) first_exchange.1.2 first_exchange.2.

(** The pair the exchange returned, and two refreshes with its refresh
    token, at seconds 1100 and 1200. *)
Definition access1 : string :=
  "a1a1a1a1a1a1a1a1a1a1a1a1a1a1a1a1a1a1a1a1a1a1a1a1a1a1a1a1a1a1a1a1".
Definition refresh1 : string :=
  "b1b1b1b1b1b1b1b1b1b1b1b1b1b1b1b1b1b1b1b1b1b1b1b1b1b1b1b1b1b1b1b1".

Definition first_refresh : result AccessToken * Memory.Storage * tape :=
  OAuth2.RefreshAccessToken server (at_second 1100) refresh1 "app" "s3cret"
    first_exchange.1.2 first_exchange.2.

Definition second_refresh : result AccessToken * Memory.Storage * tape :=
  OAuth2.RefreshAccessToken server (at_second 1200) refresh1 "app" "s3cret"
    first_refresh.1.2 first_refresh.2.

(** A manager that does not allow concurrent logins; ["alice"] logs in at
    second 1000 and again at second 1001. *)
Definition m_single : Manager.Manager :=
  {| Manager.config :=
       {| Config.TokenName := "sa-token"; Config.Timeout := 2592000;
          Config.ActiveTimeout := -1; Config.IsConcurrent := false;
          Config.IsShare := true; Config.MaxLoginCount := 12;
          Config.TokenStyle_ := Config.TokenStyleUUID;
          Config.AutoRenew := true; Config.JwtSecretKey := "" |};
     Manager.prefix := "satoken:" |}.

Definition single_login : result string * Memory.Storage * tape :=
  Manager.Login m_single (at_second 1000) "alice" [] Memory.NewStorage
    [Some Byte.x2a].

Definition single_relogin : result string * Memory.Storage * tape :=
  Manager.Login m_single (at_second 1001) "alice" [] single_login.1.2
    [Some Byte.x2b].

(** The record of ["alice"]'s token. *)
Definition alice_info : TokenInfo :=
  {| LoginID := "alice"; Device := "default"; tiCreateTime := 1000;
     ActiveTime := 1000; Tag := "" |}.

(** A text form of sessions that can be read back stands in for JSON in
    the examples with permissions and roles: the id, the creation time and
    the entries, separated by bars; an entry is [key=value;], a value a
    letter for its kind and its text. *)
Definition enc_svalue (v : svalue) : string :=
  match v with
  | SString x => "s" +:+ x
  | SInt64 z => "i" +:+ fmt_d z
  | SStrings l => "l" +:+ fold_right (fun x acc => x +:+ "," +:+ acc) "" l
  end.

Definition dec_svalue (s : string) : option svalue :=
  match s with
  | String "s" x => Some (SString x)
  | String "i" x =>
      match NilZero.int_of_string x with
      | Some z => Some (SInt64 (Z.of_int z))
      | None => None
      end
  | String "l" x => Some (SStrings (removelast (GoStrings.Split x ","%char)))
  | _ => None
  end.

Definition marshal_Session (s : SessionData) : string :=
  sessID s +:+ "|" +:+ fmt_d (sessCreateTime s) +:+ "|"
  +:+ fold_right (fun kv acc => kv.1 +:+ "=" +:+ enc_svalue kv.2 +:+ ";" +:+ acc)
        "" (map_to_list (Data s)).

Definition dec_entry (e : string) : option (string * svalue) :=
  match GoStrings.Split e "="%char with
  | [k; v] =>
      match dec_svalue v with
      | Some v' => Some (k, v')
      | None => None
      end
  | _ => None
  end.

Definition unmarshal_Session (str : string) : option SessionData :=
  match GoStrings.Split str "|"%char with
  | [id; ct; entries] =>
      match NilZero.int_of_string ct,
            mapM dec_entry (removelast (GoStrings.Split entries ";"%char)) with
      | Some c, Some kvs =>
          Some {| sessID := id; sessCreateTime := Z.of_int c;
                  Data := list_to_map kvs |}
      | _, _ => None
      end
  | _ => None
  end.

(** The environment of the examples with this form of sessions. *)
Definition env_sessions : GoEnv := {|
  Rand := tape;
  rand_Read := tape_Read;
  rand_Int := tape_Int;
  uuid_New := tape_uuid;
  base64_URLEncoding := hex_EncodeToString;
  sha256_Sum256 := fun bs => fill 32 bs;
  jwt_SignedString := fun c key =>
    inl (jwt_loginId c +:+ "." +:+ jwt_device c +:+ "." +:+ fmt_d (jwt_iat c));
  json_Marshal_TokenInfo := marshal_TokenInfo;
  json_Unmarshal_TokenInfo := unmarshal_TokenInfo;
  json_Marshal_Session := marshal_Session;
  json_Unmarshal_Session := unmarshal_Session
|}.

(** ["bob"] gets two permissions at second 2000 and two roles at second
    2001, and logs in at second 2002. *)
Definition bob_permissions : result unit * Memory.Storage :=
  ManagerSession.SetPermissions (H := env_sessions) m0 (at_second 2000) "bob"
    ["user:*"; "order:read"] Memory.NewStorage.

Definition bob_roles : result unit * Memory.Storage :=
  ManagerSession.SetRoles (H := env_sessions) m0 (at_second 2001) "bob"
    ["admin"; "auditor"] bob_permissions.2.

Definition bob_login : result string * Memory.Storage * tape :=
  Manager.Login (H := env_sessions) m0 (at_second 2002) "bob" []
    bob_roles.2 [Some Byte.x3c].

Definition bob_token : string := "3c3c3c3c3c3c3c3c3c3c3c3c3c3c3c3c".

(** After the two logins of ["alice"] on the default device, with
    concurrent login allowed: the pair is kicked out at second 1002; or it
    is logged out at second 1005 and again at second 1006. *)
Definition relogin_kickout : result unit * Memory.Storage :=
  Manager.Kickout m0 (at_second 1002) "alice" [] alice_store2.

Definition relogin_logout : result unit * Memory.Storage :=
  Manager.Logout m0 (at_second 1005) "alice" [] alice_store2.

Definition relogin_logout_again : result unit * Memory.Storage :=
  Manager.Logout m0 (at_second 1006) "alice" [] relogin_logout.2.

End Demo.

(** ** The permission matcher as the specification words it *)
Module PermissionSpec.

(** The separator as a string of one byte. *)
Definition sep_of (c : ascii) : string := String c EmptyString.

(** "P ends with [suf]". *)
Definition ends_with (s suf : string) : Prop := exists pre, s = pre +:+ suf.

(** "Q starts with [pre]". *)
Definition starts_with (s pre : string) : Prop := exists rest, s = pre +:+ rest.

(** "P contains [sub]". *)
Definition contains (s sub : string) : Prop :=
  exists a b, s = a +:+ sub +:+ b.

(** [l] is [s] split on [":"]: the segments joined by colons give [s] back
    and no segment holds a colon. *)
Definition segments (s : string) (l : list string) : Prop :=
  l <> [] /\ String.concat ":" l = s /\ Forall (fun x => ~ contains x ":") l.

(** A segment of the pattern agrees with the query's: it is ["*"] or the
    same text. *)
Definition segment_agrees (p q : string) : Prop := p = "*" \/ p = q.

(** The four rules.  Rule 4 (otherwise exact match only) adds no case to
    rule 1. *)
Definition matches (P Q : string) : Prop :=
  (P = "*" \/ P = Q)
  \/ (ends_with P ":*" /\ exists pre, P = pre +:+ "*" /\ starts_with Q pre)
  \/ (~ ends_with P ":*" /\ contains P "*"
      /\ exists lp lq, segments P lp /\ segments Q lq
                       /\ length lp = length lq
                       /\ Forall2 segment_agrees lp lq).

End PermissionSpec.

(** * Properties *)

(** ** Arithmetic of the clock *)

Lemma wrap64_id z : in_int64 z -> wrap64 z = z.
Proof.
  unfold in_int64, wrap64. intros Hz.
  rewrite Z.mod_small; lia.
Qed.

Lemma Unix_Add_seconds now n : Unix (Add now (n * Second)) = Unix now + n.
Proof.
  unfold Unix, Add, Second.
  rewrite Z.div_add by lia. reflexivity.
Qed.

Lemma Unix_mono a b : a <= b -> Unix a <= Unix b.
Proof. unfold Unix, Second. intros. apply Z.div_le_mono; lia. Qed.

Lemma Unix_Add_nonneg now d : 0 <= d -> Unix now <= Unix (Add now d).
Proof. intros. apply Unix_mono. unfold Add. lia. Qed.

(** ** Results of runs *)

(** A run that returns a result, a storage and a random state is known
    from its result and its random state: the storage is the one it left. *)
Lemma run_eta {A B C} (x : A * B * C) (a : A) (c : C) :
  x.1.1 = a -> x.2 = c -> x = (a, x.1.2, c).
Proof. destruct x as [[a' b'] c']. simpl. by intros -> ->. Qed.

(** ** The in-memory storage *)
Section MemoryFacts.
Import Memory.

Lemma isExpired_never now it : expiration it = 0 -> isExpired now it = false.
Proof. unfold isExpired. intros ->. reflexivity. Qed.

Lemma isExpired_true now it :
  isExpired now it = true <-> expiration it <> 0 /\ expiration it < Unix now.
Proof.
  unfold isExpired. destruct (Z.eqb_spec (expiration it) 0) as [E|E].
  - split; [discriminate | tauto].
  - rewrite Z.gtb_ltb, Z.ltb_lt. tauto.
Qed.

(** Time only makes items expire. *)
Lemma isExpired_mono now now' it :
  Unix now <= Unix now' -> isExpired now it = true -> isExpired now' it = true.
Proof. rewrite !isExpired_true. lia. Qed.

Lemma cleanup_tick_lookup_live t (s : Storage) k it :
  s !! k = Some it -> isExpired t it = false -> cleanup_tick t s !! k = Some it.
Proof.
  intros Hk Hlive. unfold cleanup_tick.
  apply map_lookup_filter_Some. split; [exact Hk | exact Hlive].
Qed.

Lemma cleanup_tick_lookup_None t (s : Storage) k :
  s !! k = None -> cleanup_tick t s !! k = None.
Proof.
  intros Hk. unfold cleanup_tick. apply map_lookup_filter_None. left. exact Hk.
Qed.

(** The sweeper never removes an item that does not expire. *)
Lemma cleanup_ticks_keeps_eternal ts : forall (s : Storage) k it,
  s !! k = Some it -> expiration it = 0 -> cleanup_ticks ts s !! k = Some it.
Proof.
  induction ts as [|t ts IH]; intros s k it Hk Hexp; simpl.
  - exact Hk.
  - apply IH; [|exact Hexp].
    apply cleanup_tick_lookup_live; [exact Hk | by apply isExpired_never].
Qed.

Lemma Get_live now k (s : Storage) it :
  s !! k = Some it -> isExpired now it = false -> Get now k s = inl (value_ it).
Proof. unfold Get. intros -> ->. reflexivity. Qed.

Lemma Get_absent now k (s : Storage) :
  s !! k = None -> Get now k s = inr ("key not found: " +:+ k).
Proof. unfold Get. intros ->. reflexivity. Qed.

Lemma Get_expired now k (s : Storage) it :
  s !! k = Some it -> isExpired now it = true ->
  Get now k s = inr ("key expired: " +:+ k).
Proof. unfold Get. intros -> ->. reflexivity. Qed.

Lemma Get_inl now k (s : Storage) v :
  Get now k s = inl v <->
  exists it, s !! k = Some it /\ isExpired now it = false /\ value_ it = v.
Proof.
  unfold Get. destruct (s !! k) as [it|] eqn:Hk.
  - destruct (isExpired now it) eqn:He; split.
    + discriminate.
    + intros (it' & [= <-] & He' & _). congruence.
    + intros [= <-]. eauto.
    + intros (it' & [= <-] & _ & <-). reflexivity.
  - split; [discriminate | intros (? & ? & _); discriminate].
Qed.

Lemma Exists_Get now k (s : Storage) :
  Exists_ now k s = true <-> exists v, Get now k s = inl v.
Proof.
  unfold Exists_, Get. destruct (s !! k) as [it|]; [destruct (isExpired now it)|];
    split; try discriminate; eauto; intros [? ?]; discriminate.
Qed.

Lemma Exists_absent now k (s : Storage) : s !! k = None -> Exists_ now k s = false.
Proof. unfold Exists_. intros ->. reflexivity. Qed.

Lemma Exists_expired now k (s : Storage) it :
  s !! k = Some it -> isExpired now it = true -> Exists_ now k s = false.
Proof. unfold Exists_. intros -> ->. reflexivity. Qed.

Lemma Exists_live now k (s : Storage) it :
  s !! k = Some it -> isExpired now it = false -> Exists_ now k s = true.
Proof. unfold Exists_. intros -> ->. reflexivity. Qed.

(** [Set] with a positive duration gives an item that is live at the
    instant of the call. *)
Lemma Set_item_live now d v :
  isExpired now {| value_ := v;
                   expiration := if 0 <? d then Unix (Add now d) else 0 |} = false.
Proof.
  unfold isExpired; simpl. destruct (Z.ltb_spec 0 d) as [Hd|Hd]; [|reflexivity].
  destruct (Z.eqb_spec (Unix (Add now d)) 0); [reflexivity|].
  rewrite Z.gtb_ltb. apply Z.ltb_ge. apply Unix_Add_nonneg. lia.
Qed.

(** C8.  A key stored with [Set(key, value, 0)] never expires: at every
    instant, and whatever the sweeper did in between, [Get] returns the
    value, [Exists] is true and [TTL] is the sentinel of -1 second.  [TTL]
    of a key that is absent is the sentinel of -2 seconds (with the "not
    found" error), and so is [TTL] of a key whose item has expired. *)
Theorem memory_sentinel_semantics :
  forall (s : Storage) (key : string) (v : value) (t0 : Time)
         (ts : list Time) (now : Time),
    (Get now key (cleanup_ticks ts (Set_ t0 key v 0 s).1) = inl v
     /\ Exists_ now key (cleanup_ticks ts (Set_ t0 key v 0 s).1) = true
     /\ TTL now key (cleanup_ticks ts (Set_ t0 key v 0 s).1)
        = (-1 * Second, None))
    /\ (forall k, s !! k = None ->
          TTL now k s = (-2 * Second, Some ("key not found: " +:+ k)))
    /\ (forall k it, s !! k = Some it -> isExpired now it = true ->
          in_int64 (expiration it - Unix now) ->
          TTL now k s = (-2 * Second, None)).
Proof.
  intros s key v t0 ts now.
  set (s' := cleanup_ticks ts (Set_ t0 key v 0 s).1).
  assert (Hk : s' !! key = Some {| value_ := v; expiration := 0 |}).
  { subst s'. apply cleanup_ticks_keeps_eternal; [|reflexivity].
    simpl. apply lookup_insert_eq. }
  split; [|split].
  - split; [|split].
    + by rewrite (Get_live _ _ _ _ Hk).
    + by rewrite (Exists_live _ _ _ _ Hk).
    + unfold TTL. rewrite Hk. reflexivity.
  - intros k Hnone. unfold TTL. rewrite Hnone. reflexivity.
  - intros k it Hsome Hexp Hrange. unfold TTL. rewrite Hsome.
    apply isExpired_true in Hexp as [Hne Hlt].
    destruct (Z.eqb_spec (expiration it) 0); [contradiction|].
    rewrite (wrap64_id _ Hrange).
    destruct (Z.ltb_spec (expiration it - Unix now) 0); [reflexivity | lia].
Qed.

(** The sentinels on a store with one item that expired at second 50, read
    at second 100. *)
Lemma memory_sentinel_semantics_witness :
  TTL (Demo.at_second 100) "gone"
      {["gone" := {| value_ := VString "x"; expiration := 50 |}]}
    = (-2 * Second, None)
  /\ TTL (Demo.at_second 100) "never"
      {["gone" := {| value_ := VString "x"; expiration := 50 |}]}
    = (-2 * Second, Some "key not found: never").
Proof.
  pose proof (memory_sentinel_semantics
    {["gone" := {| value_ := VString "x"; expiration := 50 |}]}
    "k" VNil 0 [] (Demo.at_second 100)) as (_ & Habsent & Hexpired).
  split.
  - apply (Hexpired "gone" {| value_ := VString "x"; expiration := 50 |}).
    + reflexivity.
    + reflexivity.
    + vm_compute. split; [intros Hc; discriminate Hc | reflexivity].
  - apply (Habsent "never"). reflexivity.
Defined.

End MemoryFacts.

(** ** Package strings *)
Section StringFacts.
Import GoStrings.

Lemma sapp_cons a s t : String a s +:+ t = String a (s +:+ t).
Proof. reflexivity. Qed.

Lemma sapp_nil_l s : "" +:+ s = s.
Proof. reflexivity. Qed.

Lemma sapp_nil_r s : s +:+ "" = s.
Proof. induction s as [|a s IH]; [reflexivity|]. by rewrite sapp_cons, IH. Qed.

Lemma sapp_assoc s t u : (s +:+ t) +:+ u = s +:+ t +:+ u.
Proof. induction s as [|a s IH]; [reflexivity|]. by rewrite !sapp_cons, IH. Qed.

Lemma slength_app s t :
  String.length (s +:+ t) = (String.length s + String.length t)%nat.
Proof. induction s as [|a s IH]; [reflexivity|]. rewrite sapp_cons. simpl. by rewrite IH. Qed.

Lemma sapp_eq_nil s t : s +:+ t = "" -> s = "" /\ t = "".
Proof. destruct s; [auto | discriminate]. Qed.

Lemma HasPrefix_spec s pre :
  HasPrefix s pre = true <-> exists rest, s = pre +:+ rest.
Proof.
  revert s. induction pre as [|a pre IH]; intros s; simpl.
  - split; [intros _; by exists s | reflexivity].
  - destruct s as [|b s].
    + split; [discriminate | intros [rest Hr]; discriminate].
    + destruct (Ascii.eqb_spec a b) as [->|Hne].
      * rewrite IH. split; intros [rest Hr]; exists rest.
        -- by rewrite sapp_cons, <- Hr.
        -- rewrite sapp_cons in Hr. by injection Hr.
      * split; [discriminate|]. intros [rest Hr]. rewrite sapp_cons in Hr.
        injection Hr as Hab _. congruence.
Qed.

Lemma HasPrefix_app pre rest : HasPrefix (pre +:+ rest) pre = true.
Proof. apply HasPrefix_spec. by exists rest. Qed.

Lemma HasSuffix_eq s suf :
  HasSuffix s suf =
  if String.eqb s suf then true
  else match s with
       | EmptyString => false
       | String _ s' => HasSuffix s' suf
       end.
Proof. destruct s; reflexivity. Qed.

Lemma HasSuffix_spec s suf :
  HasSuffix s suf = true <-> exists pre, s = pre +:+ suf.
Proof.
  induction s as [|a s IH]; rewrite HasSuffix_eq.
  - destruct (String.eqb_spec "" suf) as [<-|Hne].
    + split; [intros _; by exists "" | reflexivity].
    + split; [discriminate|]. intros [pre Hp]. symmetry in Hp.
      apply sapp_eq_nil in Hp as [_ ->]. congruence.
  - destruct (String.eqb_spec (String a s) suf) as [<-|Hne].
    + split; [intros _; by exists "" | reflexivity].
    + rewrite IH. split.
      * intros [pre ->]. exists (String a pre). by rewrite sapp_cons.
      * intros [[|b pre] Hp].
        -- rewrite sapp_nil_l in Hp. congruence.
        -- rewrite sapp_cons in Hp. injection Hp as _ ->. by exists pre.
Qed.

Lemma HasSuffix_app pre suf : HasSuffix (pre +:+ suf) suf = true.
Proof. apply HasSuffix_spec. by exists pre. Qed.

Lemma substring_0_app s t : substring 0 (String.length s) (s +:+ t) = s.
Proof.
  induction s as [|a s IH].
  - rewrite sapp_nil_l. by destruct t.
  - rewrite sapp_cons. cbn [String.length substring]. by rewrite IH.
Qed.

Lemma TrimSuffix_app pre suf : TrimSuffix (pre +:+ suf) suf = pre.
Proof.
  unfold TrimSuffix, slice_to. rewrite HasSuffix_app, slength_app.
  replace (String.length pre + String.length suf - String.length suf)%nat
    with (String.length pre) by lia.
  apply substring_0_app.
Qed.

Lemma Contains_eq s sub :
  Contains s sub =
  if HasPrefix s sub then true
  else match s with
       | EmptyString => false
       | String _ s' => Contains s' sub
       end.
Proof. destruct s; reflexivity. Qed.

Lemma Contains_spec s sub :
  Contains s sub = true <-> exists a b, s = a +:+ sub +:+ b.
Proof.
  induction s as [|c s IH]; rewrite Contains_eq.
  - destruct (HasPrefix "" sub) eqn:Hp.
    + apply HasPrefix_spec in Hp as [rest Hr].
      split; [intros _; by exists "", rest | reflexivity].
    + split; [discriminate|]. intros (a & b & Hab). symmetry in Hab.
      apply sapp_eq_nil in Hab as [-> Hsb].
      apply sapp_eq_nil in Hsb as [-> _]. discriminate Hp.
  - destruct (HasPrefix (String c s) sub) eqn:Hp.
    + apply HasPrefix_spec in Hp as [rest Hr].
      split; [intros _; by exists "", rest | reflexivity].
    + rewrite IH. split.
      * intros (a & b & ->). exists (String c a), b. by rewrite sapp_cons.
      * intros ([|d a] & b & Hab).
        -- rewrite sapp_nil_l in Hab.
           assert (HasPrefix (String c s) sub = true) as Hc
             by (apply HasPrefix_spec; by exists b).
           congruence.
        -- rewrite sapp_cons in Hab. injection Hab as _ ->. by exists a, b.
Qed.

End StringFacts.

(** ** Splitting on a byte *)
Section SplitFacts.
Import GoStrings PermissionSpec.

Lemma contains_nil_sep c : ~ contains "" (sep_of c).
Proof.
  intros (a & b & Hab). symmetry in Hab.
  apply sapp_eq_nil in Hab as [_ Hab]. discriminate Hab.
Qed.

Lemma contains_cons_sep a x c :
  contains (String a x) (sep_of c) <-> a = c \/ contains x (sep_of c).
Proof.
  split.
  - intros ([|d a'] & b & Hab).
    + injection Hab as -> _. by left.
    + rewrite sapp_cons in Hab. injection Hab as _ ->. right. by exists a', b.
  - intros [->|(a' & b & ->)].
    + by exists "", x.
    + by exists (String a a'), b.
Qed.

Lemma Split_nonempty s c : Split s c <> [].
Proof.
  destruct s as [|a s]; simpl; [discriminate|].
  destruct (Ascii.eqb a c); [discriminate|].
  destruct (Split s c); discriminate.
Qed.

Lemma concat_cons sep x y l :
  String.concat sep (x :: y :: l) = x +:+ sep +:+ String.concat sep (y :: l).
Proof. reflexivity. Qed.

Lemma Split_concat s c : String.concat (sep_of c) (Split s c) = s.
Proof.
  induction s as [|a s IH]; [reflexivity|]. simpl Split.
  destruct (Ascii.eqb_spec a c) as [->|Hne].
  - pose proof (Split_nonempty s c) as Hn.
    destruct (Split s c) as [|y l]; [contradiction|].
    rewrite concat_cons, IH. reflexivity.
  - pose proof (Split_nonempty s c) as Hn.
    destruct (Split s c) as [|y l]; [contradiction|].
    destruct l as [|z l].
    + simpl in *. by rewrite IH.
    + rewrite concat_cons in *. rewrite sapp_cons. by rewrite IH.
Qed.

Lemma Split_no_sep s c : Forall (fun x => ~ contains x (sep_of c)) (Split s c).
Proof.
  induction s as [|a s IH]; simpl.
  - constructor; [apply contains_nil_sep | constructor].
  - destruct (Ascii.eqb_spec a c) as [->|Hne].
    + constructor; [apply contains_nil_sep | exact IH].
    + destruct (Split s c) as [|y l].
      * constructor; [|constructor]. rewrite contains_cons_sep.
        intros [?|?]; [done | by eapply contains_nil_sep].
      * inversion IH as [|? ? Hy Hl]; subst. constructor; [|exact Hl].
        rewrite contains_cons_sep. tauto.
Qed.

Lemma Split_single x c : ~ contains x (sep_of c) -> Split x c = [x].
Proof.
  induction x as [|a x IH]; intros Hx; [reflexivity|]. simpl.
  rewrite contains_cons_sep in Hx.
  destruct (Ascii.eqb_spec a c) as [->|Hne]; [tauto|].
  rewrite IH by tauto. reflexivity.
Qed.

Lemma Split_app_sep x c rest :
  ~ contains x (sep_of c) -> Split (x +:+ String c rest) c = x :: Split rest c.
Proof.
  induction x as [|a x IH]; intros Hx.
  - rewrite sapp_nil_l. simpl. by rewrite Ascii.eqb_refl.
  - rewrite sapp_cons. simpl. rewrite contains_cons_sep in Hx.
    destruct (Ascii.eqb_spec a c) as [->|Hne]; [tauto|].
    rewrite IH by tauto. reflexivity.
Qed.

(** Splitting is the only way to cut a string into colon-free segments. *)
Lemma Split_unique c l :
  l <> [] -> Forall (fun x => ~ contains x (sep_of c)) l ->
  Split (String.concat (sep_of c) l) c = l.
Proof.
  induction l as [|x l IH]; intros Hne Hall; [contradiction|].
  inversion Hall as [|? ? Hx Hl]; subst.
  destruct l as [|y l].
  - simpl. by apply Split_single.
  - rewrite concat_cons. unfold sep_of at 1. rewrite sapp_cons, sapp_nil_l.
    rewrite Split_app_sep by exact Hx. f_equal. apply IH; [discriminate | exact Hl].
Qed.

Lemma segments_Split s l : segments s l <-> l = Split s ":"%char.
Proof.
  unfold segments. split.
  - intros (Hne & <- & Hall). symmetry. by apply (Split_unique ":"%char).
  - intros ->. split; [apply Split_nonempty|]. split.
    + apply (Split_concat s ":"%char).
    + apply (Split_no_sep s ":"%char).
Qed.

End SplitFacts.

(** ** The permission matcher *)
Section PermissionFacts.
Import GoStrings PermissionSpec Manager.

Lemma segments_agree_forallb lp lq :
  length lp = length lq ->
  forallb (fun '(part, permPart) =>
             negb (negb (String.eqb part "*")
                   && negb (String.eqb part permPart)))
          (combine lp lq) = true
  <-> Forall2 segment_agrees lp lq.
Proof.
  revert lq. induction lp as [|p lp IH]; intros [|q lq] Hlen; try discriminate.
  - split; [constructor | reflexivity].
  - simpl. rewrite andb_true_iff, IH by (simpl in Hlen; lia).
    assert (negb (negb (String.eqb p "*") && negb (String.eqb p q)) = true
            <-> segment_agrees p q) as ->.
    { unfold segment_agrees.
      destruct (String.eqb_spec p "*"), (String.eqb_spec p q); simpl;
        split; auto; try discriminate; intros [?|?]; contradiction. }
    split.
    + intros [? ?]. by constructor.
    + intros HF. inversion HF; subst. by split.
Qed.

Lemma matchPermission_spec P Q :
  matchPermission P Q = true <-> matches P Q.
Proof.
  unfold matchPermission, matches.
  destruct (String.eqb_spec P "*") as [->|Hstar]; simpl.
  { split; auto. }
  destruct (String.eqb_spec P Q) as [->|Hneq]; simpl.
  { split; auto. }
  destruct (HasSuffix P ":*") eqn:Hsuf.
  - apply HasSuffix_spec in Hsuf as Hends.
    destruct Hends as [pre0 HP].
    assert (P = (pre0 +:+ ":") +:+ "*") as HP' by (by rewrite sapp_assoc).
    rewrite HP' at 1. rewrite TrimSuffix_app, HasPrefix_spec.
    split.
    + intros Hst. right. left. split; [by exists pre0|].
      exists (pre0 +:+ ":"). split; [exact HP' | exact Hst].
    + intros [[?|?]|[(_ & pre & HPpre & Hst)|(Hnot & _)]]; try contradiction.
      * rewrite HP' in HPpre.
        assert (TrimSuffix ((pre0 +:+ ":") +:+ "*") "*" = pre) as Ht
          by (rewrite HPpre; apply TrimSuffix_app).
        rewrite TrimSuffix_app in Ht. by rewrite Ht.
      * exfalso. apply Hnot. by exists pre0.
  - assert (~ ends_with P ":*") as Hnends.
    { intros Hends. apply HasSuffix_spec in Hends. congruence. }
    destruct (Contains P "*") eqn:Hcont.
    + apply Contains_spec in Hcont.
      destruct (Nat.eqb_spec (length (Split P ":"%char))
                             (length (Split Q ":"%char))) as [Hlen|Hlen]; simpl.
      * rewrite (segments_agree_forallb _ _ Hlen). split.
        -- intros HF. right. right. split; [exact Hnends|]. split; [exact Hcont|].
           exists (Split P ":"%char), (Split Q ":"%char).
           split; [by apply segments_Split|]. split; [by apply segments_Split|].
           split; [exact Hlen | exact HF].
        -- intros [[?|?]|[(Hends & _)|(_ & _ & lp & lq & HsP & HsQ & _ & HF)]];
             try contradiction.
           apply segments_Split in HsP, HsQ. by subst.
      * split; [discriminate|].
        intros [[?|?]|[(Hends & _)|(_ & _ & lp & lq & HsP & HsQ & _ & HF)]];
          try contradiction.
        apply segments_Split in HsP, HsQ. subst.
        apply Forall2_length in HF. contradiction.
    + split; [discriminate|].
      intros [[?|?]|[(Hends & _)|(_ & Hc & _)]]; try contradiction.
      apply Contains_spec in Hc. congruence.
Qed.

(** A pattern ending in [":*"] matches exactly the queries that start with
    the text before the trailing star. *)
Lemma matchPermission_prefix_rule pre Q :
  matchPermission (pre +:+ ":*") Q = true <-> starts_with Q (pre +:+ ":").
Proof.
  rewrite matchPermission_spec. unfold matches. split.
  - intros [[Hs|<-]|[(_ & p & HP & Hst)|(Hnot & _)]].
    + destruct pre as [|a pre]; [discriminate Hs|].
      rewrite sapp_cons in Hs. injection Hs as _ Hs.
      apply sapp_eq_nil in Hs as [_ Hs]. discriminate Hs.
    + exists "*". by rewrite sapp_assoc.
    + assert (pre +:+ ":*" = (pre +:+ ":") +:+ "*") as E
        by (by rewrite sapp_assoc).
      rewrite E in HP.
      assert (TrimSuffix ((pre +:+ ":") +:+ "*") "*" = p) as Ht
        by (rewrite HP; apply TrimSuffix_app).
      rewrite TrimSuffix_app in Ht. by rewrite Ht.
    + exfalso. apply Hnot. by exists pre.
  - intros Hst. right. left. split; [by exists pre|].
    exists (pre +:+ ":"). split; [by rewrite sapp_assoc | exact Hst].
Qed.

(** A pattern without a star matches only itself. *)
Lemma matchPermission_exact_rule P Q :
  Contains P "*" = false -> (matchPermission P Q = true <-> P = Q).
Proof.
  intros Hc. rewrite matchPermission_spec. unfold matches.
  assert (~ contains P "*") as Hn.
  { intros H. apply Contains_spec in H. congruence. }
  split.
  - intros [[->|?]|[((pre & ->) & _)|(_ & H & _)]]; auto.
    + exfalso. apply Hn. by exists "", "".
    + exfalso. apply Hn. exists (pre +:+ ":"), "".
      by rewrite sapp_nil_r, sapp_assoc.
    + contradiction.
  - auto.
Qed.

(** C3.  The matcher decides the four rules of the specification: a query
    matches a pattern exactly when the pattern is ["*"] or the query itself,
    or the pattern ends in [":*"] and the query starts with the text before
    the trailing star, or the pattern holds a star elsewhere and the two
    split on [":"] into equally many segments that agree wherever the
    pattern's segment is not ["*"].  In particular ["user:*"] matches
    ["user:write"] and not ["order:write"], and ["user:*:view"] matches
    ["user:profile:view"] and not ["user:view"]. *)
Theorem matchPermission_four_rules :
  (forall P Q, matchPermission P Q = true <-> matches P Q)
  /\ matchPermission "user:*" "user:write" = true
  /\ matchPermission "user:*" "order:write" = false
  /\ matchPermission "user:*:view" "user:profile:view" = true
  /\ matchPermission "user:*:view" "user:view" = false.
Proof.
  split; [exact matchPermission_spec|]. repeat split; reflexivity.
Qed.

End PermissionFacts.

(** ** The manager: storage keys *)
Section ManagerKeys.
Import Manager.

Lemma getTokenKey_inj m t1 t2 : getTokenKey m t1 = getTokenKey m t2 -> t1 = t2.
Proof.
  unfold getTokenKey. intros Hk.
  apply (inj (String.app _)) in Hk. by apply (inj (String.app _)) in Hk.
Qed.

Lemma getAccountKey_device_inj m l d1 d2 :
  getAccountKey m l d1 = getAccountKey m l d2 -> d1 = d2.
Proof.
  unfold getAccountKey. intros Hk.
  do 4 apply (inj (String.app _)) in Hk. exact Hk.
Qed.

Lemma token_key_ne_account m t l d : getTokenKey m t <> getAccountKey m l d.
Proof.
  unfold getTokenKey, getAccountKey. intros Hk.
  apply (inj (String.app _)) in Hk. rewrite !sapp_cons in Hk. discriminate Hk.
Qed.

Lemma token_key_ne_session m t id :
  getTokenKey m t <> prefix m +:+ "session:" +:+ id.
Proof.
  unfold getTokenKey. intros Hk.
  apply (inj (String.app _)) in Hk. rewrite !sapp_cons in Hk. discriminate Hk.
Qed.

Lemma account_key_ne_session m l d id :
  getAccountKey m l d <> prefix m +:+ "session:" +:+ id.
Proof.
  unfold getAccountKey. intros Hk.
  apply (inj (String.app _)) in Hk. rewrite !sapp_cons in Hk. discriminate Hk.
Qed.

End ManagerKeys.

(** ** The manager: login, logout, kickout *)
Section ManagerFacts.
Context `{GoEnv}.
Import Config Manager.

Lemma kickout_cases m now l d st :
  (exists t, Memory.Get now (getAccountKey m l d) st = inl (VString t)
             /\ kickout m now l d st = (Ok tt, delete (getTokenKey m t) st))
  \/ kickout m now l d st = (Ok tt, st)
  \/ kickout m now l d st = (Panic, st).
Proof.
  unfold kickout.
  destruct (Memory.Get now (getAccountKey m l d) st) as [[]|]; eauto.
Qed.

(** What a successful [Login] leaves in the storage: the record of the new
    token, the mapping row of the pair, and the session; every other key is
    as the optional kickout left it. *)
Lemma Login_Ok m now l device st r tok st' r' :
  Login m now l device st r = (Ok tok, st', r') ->
  IsDisable m now l st = false
  /\ Token.Generate (config m) now l (deviceType device) r = (Ok tok, r')
  /\ (exists it, st' !! getAccountKey m l (deviceType device) = Some it
                 /\ Memory.value_ it = VString tok
                 /\ Memory.isExpired now it = false)
  /\ (exists it, st' !! getTokenKey m tok = Some it
                 /\ Memory.isExpired now it = false)
  /\ (forall k, k <> getTokenKey m tok ->
                k <> getAccountKey m l (deviceType device) ->
                k <> prefix m +:+ "session:" +:+ l ->
                st' !! k =
                (if IsConcurrent (config m) then st
                 else (kickout m now l (deviceType device) st).2) !! k).
Proof.
  unfold Login. destruct (IsDisable m now l st) eqn:Hdis; [discriminate|].
  set (d := deviceType device).
  set (st1 := if negb (IsConcurrent (config m)) then kickout m now l d st
              else (Ok tt, st)).
  assert (Hst1 : st1.2 = if IsConcurrent (config m) then st
                         else (kickout m now l d st).2).
  { subst st1. by destruct (IsConcurrent (config m)). }
  destruct st1 as [[[]| |] s1]; simpl in Hst1; try discriminate;
    (destruct (Token.Generate (config m) now l d r) as [[tok'| |] r1];
     try discriminate);
    unfold saveTokenInfo, Session.Set_, Session.save, Memory.Set_; simpl;
    intros [= <- <- <-]; rewrite <- Hst1;
    (split; [reflexivity|]); (split; [reflexivity|]);
    (split; [|split]).
  1,4: eexists; split;
    [ rewrite !lookup_insert_ne
        by (apply not_eq_sym, account_key_ne_session);
      apply lookup_insert_eq
    | split; [reflexivity | apply Set_item_live] ].
  1,3: eexists; split;
    [ rewrite !lookup_insert_ne
        by (apply not_eq_sym, token_key_ne_session);
      rewrite lookup_insert_ne by (apply not_eq_sym, token_key_ne_account);
      apply lookup_insert_eq
    | apply Set_item_live ].
  all: intros k Hk1 Hk2 Hk3;
    rewrite !lookup_insert_ne by congruence; reflexivity.
Qed.

(** [Login] returns the generated token as soon as the account is not
    disabled, the generator delivers and the kickout of the previous token
    (when concurrent login is off) does not panic. *)
Lemma Login_succeeds m now l device st r tok r' :
  IsDisable m now l st = false ->
  Token.Generate (config m) now l (deviceType device) r = (Ok tok, r') ->
  IsConcurrent (config m) = true
  \/ (kickout m now l (deviceType device) st).1 = Ok tt ->
  exists st', Login m now l device st r = (Ok tok, st', r').
Proof.
  intros Hdis Hgen Hk. unfold Login. rewrite Hdis.
  destruct (IsConcurrent (config m)) eqn:Hc; simpl.
  - rewrite Hgen. simpl. eauto.
  - destruct Hk as [Hk|Hk]; [discriminate|].
    destruct (kickout m now l (deviceType device) st) as [k s1].
    simpl in Hk. subst k. rewrite Hgen. simpl. eauto.
Qed.

Lemma Logout_cases m now l device st :
  (exists t, Memory.Get now (getAccountKey m l (deviceType device)) st
             = inl (VString t)
             /\ Logout m now l device st
                = (Ok tt, delete (getAccountKey m l (deviceType device))
                            (delete (getTokenKey m t) st)))
  \/ ((Memory.Get now (getAccountKey m l (deviceType device)) st = inl VNil
       \/ exists e, Memory.Get now (getAccountKey m l (deviceType device)) st
                    = inr e)
      /\ Logout m now l device st = (Ok tt, st))
  \/ Logout m now l device st = (Panic, st).
Proof.
  unfold Logout.
  destruct (Memory.Get now (getAccountKey m l (deviceType device)) st)
    as [[]|]; simpl; eauto 7.
Qed.

(** C6.  [Logout] deletes the TokenInfo the mapping of the pair points to
    and the mapping row itself, touches no other key, and returns no error;
    a second [Logout] of the pair, at the same or a later instant, changes
    nothing and returns no error, so neither the mapping nor the TokenInfo
    it pointed to is in the storage afterwards.  The mapping row, when there
    is one, is taken to hold what [Login] writes there: a string. *)
Theorem logout_idempotent :
  forall (m : Manager) (now now' : Time) (loginID : string)
         (device : list string) (st : Memory.Storage),
    (forall v, Memory.Get now (getAccountKey m loginID (deviceType device)) st
               = inl v -> v = VNil \/ exists t, v = VString t) ->
    Unix now <= Unix now' ->
    exists st1,
      Logout m now loginID device st = (Ok tt, st1)
      /\ (forall t,
            Memory.Get now (getAccountKey m loginID (deviceType device)) st
            = inl (VString t) ->
            st1 !! getTokenKey m t = None
            /\ st1 !! getAccountKey m loginID (deviceType device) = None
            /\ forall k, k <> getTokenKey m t ->
                         k <> getAccountKey m loginID (deviceType device) ->
                         st1 !! k = st !! k)
      /\ Logout m now' loginID device st1 = (Ok tt, st1).
Proof.
  intros m now now' l device st Htyped Hmono.
  set (acc := getAccountKey m l (deviceType device)) in *.
  destruct (Logout_cases m now l device st)
    as [(t & Hget & Hlo)|[(Hget & Hlo)|Hlo]].
  - exists (delete acc (delete (getTokenKey m t) st)).
    split; [exact Hlo|]. split.
    + intros t' Hget'. fold acc in Hget. rewrite Hget in Hget'.
      injection Hget' as <-. split; [|split].
      * subst acc.
        rewrite lookup_delete_ne by apply not_eq_sym, token_key_ne_account.
        apply lookup_delete_eq.
      * apply lookup_delete_eq.
      * intros k Hk1 Hk2. by rewrite !lookup_delete_ne by congruence.
    + unfold Logout. fold acc. rewrite Get_absent by apply lookup_delete_eq.
      reflexivity.
  - fold acc in Hget. exists st. split; [exact Hlo|]. split.
    + intros t Hget'. destruct Hget as [Hget|[e Hget]]; congruence.
    + destruct (Logout_cases m now' l device st)
        as [(t & Hget' & _)|[(_ & Hlo')|Hlo']]; try exact Hlo'.
      * exfalso. fold acc in Hget'.
        apply Get_inl in Hget' as (it & Hit & Hlive & Hv).
        destruct (Memory.isExpired now it) eqn:Hexp.
        -- apply (isExpired_mono now now') in Hexp; [congruence | exact Hmono].
        -- rewrite (Get_live _ _ _ _ Hit Hexp), Hv in Hget.
           destruct Hget as [Hget|[e Hget]]; discriminate.
      * exfalso. unfold Logout in Hlo'. fold acc in Hlo'.
        destruct (Memory.Get now' acc st) as [v|] eqn:Hget'; [|discriminate].
        apply Get_inl in Hget' as (it & Hit & Hlive & Hv).
        destruct (Memory.isExpired now it) eqn:Hexp.
        -- apply (isExpired_mono now now') in Hexp; [congruence | exact Hmono].
        -- rewrite (Get_live _ _ _ _ Hit Hexp), Hv in Hget.
           destruct Hget as [Hget|[e Hget]]; [|discriminate].
           injection Hget as ->. discriminate Hlo'.
  - exfalso. unfold Logout in Hlo. fold acc in Hlo.
    destruct (Memory.Get now acc st) as [v|] eqn:Hget; [|discriminate].
    destruct (Htyped v eq_refl) as [->|[t ->]]; discriminate.
Qed.


End ManagerFacts.

(** ** The manager on the example storage *)
Section ManagerExamples.
Import Config Manager.
#[local] Existing Instance Demo.env.


(** ["alice"] logs out at second 1005 and again at second 1010. *)
Lemma logout_idempotent_witness :
  exists st1,
    Logout Demo.m0 (Demo.at_second 1005) "alice" [] Demo.alice_store = (Ok tt, st1)
    /\ (forall t,
          Memory.Get (Demo.at_second 1005)
            (getAccountKey Demo.m0 "alice" (deviceType [])) Demo.alice_store
          = inl (VString t) ->
          st1 !! getTokenKey Demo.m0 t = None
          /\ st1 !! getAccountKey Demo.m0 "alice" (deviceType []) = None
          /\ forall k, k <> getTokenKey Demo.m0 t ->
                       k <> getAccountKey Demo.m0 "alice" (deviceType []) ->
                       st1 !! k = Demo.alice_store !! k)
    /\ Logout Demo.m0 (Demo.at_second 1010) "alice" [] st1 = (Ok tt, st1).
Proof.
  apply (logout_idempotent Demo.m0 (Demo.at_second 1005) (Demo.at_second 1010)
           "alice" [] Demo.alice_store).
  - intros v Hv. vm_compute in Hv. injection Hv as <-. right. eexists. reflexivity.
  - vm_compute. intros Hc. discriminate Hc.
Defined.

End ManagerExamples.

(** ** Kickout and the mapping row *)
Section KickoutFacts.
Context `{GoEnv}.
Import Config Manager.

Lemma IsLogin_no_record m now t st :
  Memory.Exists_ now (getTokenKey m t) st = false ->
  IsLogin m now t st
  = (Ok {| logged_in := false; renewal_started := false |}, st).
Proof.
  intros Hex. unfold IsLogin. rewrite Hex. simpl. by destruct (String.eqb t "").
Qed.

(** A mapping row that holds a string never makes [kickout] fail. *)
Lemma kickout_string_row m now l d (st : Memory.Storage) it t :
  st !! getAccountKey m l d = Some it -> Memory.value_ it = VString t ->
  (kickout m now l d st).1 = Ok tt.
Proof.
  intros Hit Hv. unfold kickout, Memory.Get. rewrite Hit.
  destruct (Memory.isExpired now it); [reflexivity|]. by rewrite Hv.
Qed.

(** C4.  When the mapping of the pair points to the token [t], [Kickout]
    deletes the TokenInfo record of [t] and nothing else: the mapping row
    stays as it was, where [Logout] removes it.  From then on [IsLogin t] is
    false.  A later [Login] of the pair is not disturbed by the row left
    behind: with the account not disabled and the generator delivering a
    token, it returns that token, whether concurrent login is allowed or
    not, and the row then holds the new token. *)
Theorem kickout_asymmetry :
  forall (m : Manager) (now : Time) (loginID : string) (device : list string)
         (t : string) (st : Memory.Storage),
    Memory.Get now (getAccountKey m loginID (deviceType device)) st
    = inl (VString t) ->
    Kickout m now loginID device st = (Ok tt, delete (getTokenKey m t) st)
    /\ delete (getTokenKey m t) st !! getAccountKey m loginID (deviceType device)
       = st !! getAccountKey m loginID (deviceType device)
    /\ (Logout m now loginID device st).2
         !! getAccountKey m loginID (deviceType device) = None
    /\ (forall now',
          IsLogin m now' t (delete (getTokenKey m t) st)
          = (Ok {| logged_in := false; renewal_started := false |},
             delete (getTokenKey m t) st))
    /\ (forall now' r tok r',
          IsDisable m now' loginID (delete (getTokenKey m t) st) = false ->
          Token.Generate (config m) now' loginID (deviceType device) r
          = (Ok tok, r') ->
          exists st2,
            Login m now' loginID device (delete (getTokenKey m t) st) r
            = (Ok tok, st2, r')
            /\ GetTokenValue m now' loginID device st2 = Ok tok).
Proof.
  intros m now l device t st Hget.
  assert (Hrow : delete (getTokenKey m t) st !! getAccountKey m l (deviceType device)
                 = st !! getAccountKey m l (deviceType device))
    by (apply lookup_delete_ne, token_key_ne_account).
  split; [|split; [exact Hrow|split; [|split]]].
  - unfold Kickout, kickout. rewrite Hget. reflexivity.
  - unfold Logout. rewrite Hget. simpl. apply lookup_delete_eq.
  - intros now'. apply IsLogin_no_record, Exists_absent, lookup_delete_eq.
  - intros now' r tok r' Hdis Hgen.
    apply Get_inl in Hget as (it & Hit & _ & Hv).
    destruct (Login_succeeds m now' l device (delete (getTokenKey m t) st)
                r tok r' Hdis Hgen) as [st2 Hlogin].
    { right. apply (kickout_string_row _ _ _ _ _ it t); [|exact Hv].
      by rewrite Hrow. }
    exists st2. split; [exact Hlogin|].
    apply Login_Ok in Hlogin as (_ & _ & (it' & Hit' & Hv' & Hlive) & _).
    unfold GetTokenValue. rewrite (Get_live _ _ _ _ Hit' Hlive), Hv'.
    reflexivity.
Qed.

End KickoutFacts.

Section KickoutExample.
Import Config Manager.
#[local] Existing Instance Demo.env.

(** ["alice"] is kicked out at second 1005. *)
Lemma kickout_asymmetry_witness :
  Kickout Demo.m0 (Demo.at_second 1005) "alice" [] Demo.alice_store
  = (Ok tt, delete (getTokenKey Demo.m0 Demo.alice_token) Demo.alice_store)
  /\ IsLogin Demo.m0 (Demo.at_second 1006) Demo.alice_token
       (delete (getTokenKey Demo.m0 Demo.alice_token) Demo.alice_store)
     = (Ok {| logged_in := false; renewal_started := false |},
        delete (getTokenKey Demo.m0 Demo.alice_token) Demo.alice_store).
Proof.
  destruct (kickout_asymmetry Demo.m0 (Demo.at_second 1005) "alice" []
              Demo.alice_token Demo.alice_store) as (Hk & _ & _ & Hl & _).
  - vm_compute. reflexivity.
  - split; [exact Hk | exact (Hl (Demo.at_second 1006))].
Defined.

End KickoutExample.

(** ** Enumerating the tokens of an account *)
Section EnumerationFacts.
Context `{GoEnv}.
Import Config Manager.

Lemma filter_fst_sublist {A B} (f : A * B -> bool) (l : list (A * B)) :
  sublist (List.filter f l).*1 l.*1.
Proof.
  induction l as [|x l IH]; simpl; [constructor|].
  destruct (f x); simpl; by constructor.
Qed.

Lemma Keys_NoDup now pattern (st : Memory.Storage) :
  NoDup (Memory.Keys now pattern st).1.
Proof.
  unfold Memory.Keys. simpl.
  eapply sublist_NoDup; [apply (NoDup_fst_map_to_list st)|].
  apply filter_fst_sublist.
Qed.

Lemma Keys_elem now pattern (st : Memory.Storage) k :
  k ∈ (Memory.Keys now pattern st).1 ->
  Memory.matchPattern k pattern = true.
Proof.
  unfold Memory.Keys. simpl. intros Hk.
  apply list_elem_of_fmap in Hk as ([k' it] & -> & Hin).
  apply list_elem_of_In, filter_In in Hin as [_ Hf].
  apply andb_true_iff in Hf as [_ Hm]. exact Hm.
Qed.

Lemma account_pattern_split l :
  "satoken:" +:+ "account:" +:+ l +:+ ":*"
  = ("satoken:" +:+ "account:" +:+ l +:+ ":") +:+ "*".
Proof. by rewrite !sapp_assoc. Qed.

(** The pattern [GetTokenValueListByLoginID] builds selects the keys that
    start with the account prefix of the login id. *)
Lemma matchPattern_account k l :
  Memory.matchPattern k ("satoken:" +:+ "account:" +:+ l +:+ ":*")
  = GoStrings.HasPrefix k ("satoken:" +:+ "account:" +:+ l +:+ ":").
Proof.
  unfold Memory.matchPattern.
  assert (GoStrings.TrimPrefix ("satoken:" +:+ "account:" +:+ l +:+ ":*") "**/"
          = "satoken:" +:+ "account:" +:+ l +:+ ":*") as -> by reflexivity.
  assert ((("satoken:" +:+ "account:" +:+ l +:+ ":*" =? "")%string
           || ("satoken:" +:+ "account:" +:+ l +:+ ":*" =? "*")%string)
          = false) as -> by reflexivity.
  rewrite account_pattern_split.
  rewrite HasSuffix_app, TrimSuffix_app. reflexivity.
Qed.

Lemma collect_tokens_spec now (st : Memory.Storage) keys :
  forall acc toks,
    collect_tokens now keys st acc = Ok toks ->
    exists ks toks',
      toks = acc ++ toks' /\ sublist ks keys
      /\ Forall2 (fun k t => Memory.Get now k st = inl (VString t)) ks toks'.
Proof.
  induction keys as [|k keys IH]; intros acc toks; simpl.
  - intros [= <-]. exists [], []. rewrite app_nil_r. repeat split; constructor.
  - destruct (Memory.Get now k st) as [[| t | | |]|e] eqn:Hget; try discriminate.
    + intros Hc. destruct (IH _ _ Hc) as (ks & toks' & -> & Hsub & HF).
      exists ks, toks'. repeat split; [by constructor | exact HF].
    + intros Hc. destruct (IH _ _ Hc) as (ks & toks' & -> & Hsub & HF).
      exists (k :: ks), (t :: toks'). rewrite <- app_assoc. simpl.
      repeat split; [by constructor | by constructor].
    + intros Hc. destruct (IH _ _ Hc) as (ks & toks' & -> & Hsub & HF).
      exists ks, toks'. repeat split; [by constructor | exact HF].
Qed.

(** The loop over the keys ends without a panic when every key it reads
    holds a string or nil. *)
Lemma collect_tokens_total now (st : Memory.Storage) keys :
  forall acc,
    Forall (fun k => forall v, Memory.Get now k st = inl v ->
                               v = VNil \/ exists t, v = VString t) keys ->
    exists toks, collect_tokens now keys st acc = Ok toks.
Proof.
  induction keys as [|k keys IH]; intros acc Hall; simpl; [eauto|].
  inversion Hall as [|? ? Hk Hks]; subst.
  destruct (Memory.Get now k st) as [v|e] eqn:Hget; [|by apply IH].
  destruct (Hk v eq_refl) as [->|[t ->]]; by apply IH.
Qed.

Lemma account_keys_devices m l ks :
  prefix m = "satoken:" ->
  Forall (fun k => GoStrings.HasPrefix k
                     ("satoken:" +:+ "account:" +:+ l +:+ ":") = true) ks ->
  exists ds, ks = getAccountKey m l <$> ds.
Proof.
  intros Hp. induction 1 as [|k ks Hk _ [ds ->]].
  - by exists [].
  - apply HasPrefix_spec in Hk as [d ->]. exists (d :: ds). simpl.
    unfold getAccountKey. rewrite Hp. by rewrite !sapp_assoc.
Qed.

(** The tokens [GetTokenValueListByLoginID] returns are the values of the
    mapping rows of distinct devices. *)
Lemma token_list_devices cfg now l (st : Memory.Storage) toks :
  GetTokenValueListByLoginID (NewManager cfg) now l st = Ok toks ->
  exists ds,
    NoDup ds
    /\ Forall2 (fun d t => Memory.Get now (getAccountKey (NewManager cfg) l d) st
                           = inl (VString t)) ds toks.
Proof.
  unfold GetTokenValueListByLoginID.
  pose proof (Keys_NoDup now (prefix (NewManager cfg) +:+ "account:" +:+ l +:+ ":*")
                st) as Hnd.
  pose proof (Keys_elem now (prefix (NewManager cfg) +:+ "account:" +:+ l +:+ ":*")
                st) as Hel.
  destruct (Memory.Keys now (prefix (NewManager cfg) +:+ "account:" +:+ l +:+ ":*")
              st) as [keys [e|]]; [discriminate|].
  simpl in Hnd, Hel. intros Hc.
  apply collect_tokens_spec in Hc as (ks & toks' & -> & Hsub & HF).
  destruct (account_keys_devices (NewManager cfg) l ks eq_refl) as [ds ->].
  { apply Forall_forall. intros k Hk.
    rewrite <- matchPattern_account. apply Hel.
    eapply elem_of_sublist; eassumption. }
  exists ds. split.
  - eapply NoDup_fmap_1. eapply sublist_NoDup; eassumption.
  - simpl. by apply Forall2_fmap_l in HF.
Qed.

(** C10.  The mapping of a pair lives under the one key
    [<prefix>account:<loginID>:<device>].  A successful [Login] overwrites
    it, so the token recorded for the pair is the one just issued; with
    concurrent login allowed the records of the other tokens are left as
    they were, valid and no longer reachable from the mapping.
    [GetTokenValueListByLoginID] never fails with an error, and the tokens
    it returns are the values of the mapping rows of pairwise distinct
    devices: at most one per device. *)
Theorem account_mapping_single_slot :
  forall (cfg : option Config) (now : Time) (loginID : string)
         (device : list string) (st : Memory.Storage) (r : Rand)
         (tok : string) (st' : Memory.Storage) (r' : Rand),
    Login (NewManager cfg) now loginID device st r = (Ok tok, st', r') ->
    getAccountKey (NewManager cfg) loginID (deviceType device)
    = "satoken:" +:+ "account:" +:+ loginID +:+ ":" +:+ deviceType device
    /\ GetTokenValue (NewManager cfg) now loginID device st' = Ok tok
    /\ (IsConcurrent (config (NewManager cfg)) = true ->
        forall t1, t1 <> tok ->
          st' !! getTokenKey (NewManager cfg) t1
          = st !! getTokenKey (NewManager cfg) t1)
    /\ (forall now' l,
          match GetTokenValueListByLoginID (NewManager cfg) now' l st' with
          | Ok toks =>
              exists ds,
                NoDup ds
                /\ Forall2 (fun d t =>
                              Memory.Get now' (getAccountKey (NewManager cfg) l d) st'
                              = inl (VString t)) ds toks
          | Err _ => False
          | Panic => True
          end).
Proof.
  intros cfg now l device st r tok st' r' Hlogin.
  apply Login_Ok in Hlogin as (_ & _ & (it & Hit & Hv & Hlive) & _ & Hframe).
  split; [reflexivity|]. split; [|split].
  - unfold GetTokenValue. rewrite (Get_live _ _ _ _ Hit Hlive), Hv. reflexivity.
  - intros Hc t1 Hne. rewrite Hframe, Hc; [reflexivity| | |].
    + intros Hk. apply getTokenKey_inj in Hk. contradiction.
    + apply token_key_ne_account.
    + apply token_key_ne_session.
  - intros now' l'.
    destruct (GetTokenValueListByLoginID (NewManager cfg) now' l' st')
      as [toks| |] eqn:Hlist; [| |exact I].
    + by apply token_list_devices.
    + unfold GetTokenValueListByLoginID in Hlist. simpl in Hlist.
      revert Hlist. generalize (@nil string).
      induction (List.filter _ _).*1 as [|k ks IH]; intros acc; simpl;
        [discriminate|].
      destruct (Memory.Get now' k st') as [[]|]; try discriminate; apply IH.
Qed.

End EnumerationFacts.

Section EnumerationExample.
Import Config Manager.
#[local] Existing Instance Demo.env.

(** After the second login of ["alice"] the mapping holds the new token and
    the record of the first one is untouched. *)
Lemma account_mapping_single_slot_witness :
  GetTokenValue Demo.m0 (Demo.at_second 1001) "alice" [] Demo.alice_store2
  = Ok Demo.alice_token2
  /\ Demo.alice_store2 !! getTokenKey Demo.m0 Demo.alice_token
     = Demo.alice_store !! getTokenKey Demo.m0 Demo.alice_token.
Proof.
  destruct (account_mapping_single_slot (H := Demo.env) None
              (Demo.at_second 1001) "alice" [] Demo.alice_store
              [Some Byte.x2b] Demo.alice_token2 Demo.alice_store2 [])
    as (_ & Hget & Hold & _).
  - apply (run_eta Demo.alice_relogin); vm_compute; reflexivity.
  - split; [exact Hget|]. apply Hold; [reflexivity|].
    vm_compute. intros Hc. discriminate Hc.
Defined.

End EnumerationExample.

(** ** The nonce manager *)
Section NonceFacts.
Context `{GoEnv}.
Import Security.

Lemma fill_length n bs : length (fill n bs) = n.
Proof.
  unfold fill. rewrite length_take, length_app, repeat_length. lia.
Qed.

Lemma hex_EncodeToString_length bs :
  String.length (hex_EncodeToString bs) = (2 * length bs)%nat.
Proof. induction bs as [|b bs IH]; simpl; [reflexivity | rewrite IH; lia]. Qed.

(** A nonce, like every token made of 32 random bytes, has 64 characters. *)
Lemma hex_fill_not_empty n bs : hex_EncodeToString (fill (S n) bs) <> "".
Proof.
  intros Hc. apply (f_equal String.length) in Hc.
  rewrite hex_EncodeToString_length, fill_length in Hc. discriminate Hc.
Qed.

Lemma nonceKey_inj n1 n2 : nonceKey n1 = nonceKey n2 -> n1 = n2.
Proof. unfold nonceKey. apply (inj (String.app _)). Qed.

Lemma Generate_Ok nm now st r N st' r' :
  Generate nm now st r = (Ok N, st', r') ->
  N <> ""
  /\ st' = <[nonceKey N := {| Memory.value_ := VInt64 (Unix now);
                              Memory.expiration :=
                                if 0 <? ttl nm then Unix (Add now (ttl nm))
                                else 0 |}]> st.
Proof.
  unfold Generate. destruct (rand_Read 32 r) as [[bs|e] r1]; [|discriminate].
  simpl. intros [= <- <- <-]. split; [apply hex_fill_not_empty | reflexivity].
Qed.

Lemma Verify_absent nm now n (st : Memory.Storage) :
  st !! nonceKey n = None -> Verify nm now n st = (false, st).
Proof.
  intros Hn. unfold Verify. rewrite (Exists_absent _ _ _ Hn).
  by destruct (String.eqb n "").
Qed.

Lemma Verify_store nm now n (st : Memory.Storage) :
  (Verify nm now n st).2 = st \/ (Verify nm now n st).2 = delete (nonceKey n) st.
Proof.
  unfold Verify. destruct (String.eqb n ""); [by left|].
  destruct (Memory.Exists_ now (nonceKey n) st); simpl; auto.
Qed.

(** Once the key of [N] is gone it stays gone, as long as [N] is not
    generated again. *)
Lemma later_step_absent nm N (st st' : Memory.Storage) :
  later_step nm N st st' ->
  st !! nonceKey N = None -> st' !! nonceKey N = None.
Proof.
  intros Hstep Hn. destruct Hstep as [now n st|now st|now st r n st' r' Hgen Hne].
  - destruct (Verify_store nm now n st) as [->| ->]; [exact Hn|].
    apply lookup_delete_None. by right.
  - by apply cleanup_tick_lookup_None.
  - apply Generate_Ok in Hgen as [_ ->].
    rewrite lookup_insert_ne; [exact Hn|].
    intros Hk. apply nonceKey_inj in Hk. contradiction.
Qed.

Lemma later_steps_absent nm N (st st' : Memory.Storage) :
  rtc (later_step nm N) st st' ->
  st !! nonceKey N = None -> st' !! nonceKey N = None.
Proof. induction 1; eauto using later_step_absent. Qed.

(** C7.  A nonce [N] that [Generate] returned and that is verified within
    its time to live is accepted by the first [Verify] and deleted by it;
    every [Verify] of [N] after that answers false, whatever was verified,
    swept or generated (other than [N] again) in between.  [Verify] also
    answers false for the empty string, for a nonce whose key is not in the
    storage, and for one whose record has expired. *)
Theorem nonce_single_use :
  forall (nm : NonceManager) (t0 : Time) (st : Memory.Storage) (r : Rand)
         (N : string) (st0 : Memory.Storage) (r' : Rand),
    Generate nm t0 st r = (Ok N, st0, r') ->
    (forall t1,
       (0 < ttl nm -> Unix t1 <= Unix (Add t0 (ttl nm))) ->
       Verify nm t1 N st0 = (true, delete (nonceKey N) st0)
       /\ forall st2 t2,
            rtc (later_step nm N) (delete (nonceKey N) st0) st2 ->
            Verify nm t2 N st2 = (false, st2))
    /\ (forall t s, Verify nm t "" s = (false, s))
    /\ (forall t n (s : Memory.Storage),
          s !! nonceKey n = None -> Verify nm t n s = (false, s))
    /\ (forall t n (s : Memory.Storage) it,
          s !! nonceKey n = Some it -> Memory.isExpired t it = true ->
          Verify nm t n s = (false, s)).
Proof.
  intros nm t0 st r N st0 r' Hgen.
  apply Generate_Ok in Hgen as [Hne ->].
  split; [|split; [|split]].
  - intros t1 Hin. split.
    + unfold Verify. destruct (String.eqb_spec N ""); [contradiction|].
      erewrite Exists_live; [reflexivity | apply lookup_insert_eq|].
      unfold Memory.isExpired. simpl.
      destruct (Z.ltb_spec 0 (ttl nm)) as [Hpos|Hpos]; [|reflexivity].
      destruct (Z.eqb_spec (Unix (Add t0 (ttl nm))) 0); [reflexivity|].
      rewrite Z.gtb_ltb. apply Z.ltb_ge. by apply Hin.
    + intros st2 t2 Hsteps. apply Verify_absent.
      eapply later_steps_absent; [exact Hsteps | apply lookup_delete_eq].
  - reflexivity.
  - intros t n s Hn. by apply Verify_absent.
  - intros t n s it Hit Hexp. unfold Verify.
    rewrite (Exists_expired _ _ _ _ Hit Hexp). by destruct (String.eqb n "").
Qed.

End NonceFacts.

Section NonceExample.
Import Security.
#[local] Existing Instance Demo.env.

(** The nonce of the example is verified two minutes after it was
    generated, then once more. *)
Lemma nonce_single_use_witness :
  Verify Demo.nonces (Demo.at_second 1120) Demo.nonce_N Demo.nonce_store
  = (true, delete (nonceKey Demo.nonce_N) Demo.nonce_store)
  /\ Verify Demo.nonces (Demo.at_second 1121) Demo.nonce_N
       (delete (nonceKey Demo.nonce_N) Demo.nonce_store)
     = (false, delete (nonceKey Demo.nonce_N) Demo.nonce_store).
Proof.
  destruct (nonce_single_use (H := Demo.env) Demo.nonces (Demo.at_second 1000)
              Memory.NewStorage [Some Byte.x07] Demo.nonce_N Demo.nonce_store [])
    as (Huse & _).
  - apply (run_eta Demo.nonce_run); vm_compute; reflexivity.
  - destruct (Huse (Demo.at_second 1120)) as (Hfirst & Hlater).
    + intros _. vm_compute. intros Hc. discriminate Hc.
    + split; [exact Hfirst|]. apply Hlater. apply rtc_refl.
Defined.

End NonceExample.

(** ** The OAuth2 server *)
Section OAuth2Facts.
Context `{GoEnv}.
Import OAuth2.

Lemma foldl_RegisterClient_expirations cs : forall s,
  codeExpiration (foldl RegisterClient s cs) = codeExpiration s
  /\ tokenExpiration (foldl RegisterClient s cs) = tokenExpiration s.
Proof.
  induction cs as [|c cs IH]; intros s; simpl; [auto|].
  destruct (IH (RegisterClient s c)) as [-> ->]. auto.
Qed.

(** Registering clients leaves the two lifetimes at 10 minutes and 2
    hours. *)
Lemma registered_expirations cs :
  codeExpiration (registered cs) = 10 * Minute
  /\ tokenExpiration (registered cs) = 2 * Hour.
Proof. apply (foldl_RegisterClient_expirations cs NewOAuth2Server). Qed.

Lemma codeKey_ne_tokenKey c a : codeKey c <> tokenKey a.
Proof. unfold codeKey, tokenKey. intros Hk. cbv in Hk. discriminate Hk. Qed.

Lemma codeKey_ne_refreshKey c x : codeKey c <> refreshKey x.
Proof. unfold codeKey, refreshKey. intros Hk. cbv in Hk. discriminate Hk. Qed.

Lemma tokenKey_ne_refreshKey a x : tokenKey a <> refreshKey x.
Proof. unfold tokenKey, refreshKey. intros Hk. cbv in Hk. discriminate Hk. Qed.

Lemma tokenKey_inj a b : tokenKey a = tokenKey b -> a = b.
Proof. unfold tokenKey. apply (inj (String.app _)). Qed.

Lemma refreshKey_inj a b : refreshKey a = refreshKey b -> a = b.
Proof. unfold refreshKey. apply (inj (String.app _)). Qed.

Lemma GetClient_registered s cid client :
  clients s !! cid = Some client -> GetClient s cid = Ok client.
Proof. unfold GetClient. by intros ->. Qed.

(** What a successful [GenerateAuthorizationCode] returns and stores. *)
Lemma GenerateAuthorizationCode_Ok s now cid uri uid scopes st r ac st0 r0 :
  GenerateAuthorizationCode s now cid uri uid scopes st r = (Ok ac, st0, r0) ->
  acClientID ac = cid /\ acRedirectURI ac = uri /\ Used ac = false
  /\ CreateTime ac = Unix now
  /\ acExpiresIn ac = Seconds_int64 (codeExpiration s)
  /\ st0 = <[codeKey (Code ac) :=
               {| Memory.value_ := VAuthCode ac;
                  Memory.expiration :=
                    if 0 <? codeExpiration s
                    then Unix (Add now (codeExpiration s)) else 0 |}]> st.
Proof.
  unfold GenerateAuthorizationCode.
  destruct (GetClient s cid) as [client| |]; try discriminate.
  destruct (existsb _ _); simpl; [|discriminate].
  destruct (rand_Read 32 r) as [[bs|e] r1]; [|discriminate].
  simpl. intros [= <- <- <-]. simpl. repeat split.
Qed.

(** [generateAccessToken] when the two reads of the random source
    succeed. *)
Lemma generateAccessToken_Ok s now uid cid scopes st r b1 ra b2 rb :
  rand_Read 32 r = (inl b1, ra) -> rand_Read 32 ra = (inl b2, rb) ->
  exists tok exp1 exp2,
    generateAccessToken s now uid cid scopes st r
    = (Ok tok,
       <[refreshKey (RefreshToken tok) :=
           {| Memory.value_ := VAccessToken tok; Memory.expiration := exp2 |}]>
         (<[tokenKey (Token_ tok) :=
              {| Memory.value_ := VAccessToken tok;
                 Memory.expiration := exp1 |}]> st),
       rb)
    /\ Token_ tok = hex_EncodeToString (fill 32 b1)
    /\ RefreshToken tok = hex_EncodeToString (fill 32 b2).
Proof.
  intros H1 H2. unfold generateAccessToken, Memory.Set_. rewrite H1, H2.
  exists {| Token_ := hex_EncodeToString (fill 32 b1); TokenType := "Bearer";
            atExpiresIn := Seconds_int64 (tokenExpiration s);
            RefreshToken := hex_EncodeToString (fill 32 b2);
            atScopes := scopes; atUserID := uid; atClientID := cid |}.
  exists (if 0 <? tokenExpiration s then Unix (Add now (tokenExpiration s))
          else 0).
  exists (if 0 <? 30 * 24 * Hour then Unix (Add now (30 * 24 * Hour)) else 0).
  split; [reflexivity|]. split; reflexivity.
Qed.

(** The three ways [ExchangeCodeForToken] goes on after the client and its
    secret were accepted. *)
Lemma Exchange_missing s now code client secret uri st r e :
  clients s !! ClientID client = Some client -> ClientSecret client = secret ->
  Memory.Get now (codeKey code) st = inr e ->
  ExchangeCodeForToken s now code (ClientID client) secret uri st r
  = (Err "invalid authorization code", st, r).
Proof.
  intros Hc <- Hget. unfold ExchangeCodeForToken.
  rewrite (GetClient_registered _ _ _ Hc), String.eqb_refl, Hget. reflexivity.
Qed.

Lemma Exchange_used s now code client secret uri st r ac :
  clients s !! ClientID client = Some client -> ClientSecret client = secret ->
  Memory.Get now (codeKey code) st = inl (VAuthCode ac) -> Used ac = true ->
  ExchangeCodeForToken s now code (ClientID client) secret uri st r
  = (Err "authorization code already used", st, r).
Proof.
  intros Hc <- Hget Hused. unfold ExchangeCodeForToken.
  rewrite (GetClient_registered _ _ _ Hc), String.eqb_refl, Hget, Hused.
  reflexivity.
Qed.

Lemma Exchange_fresh s now code client secret uri st r ac :
  clients s !! ClientID client = Some client -> ClientSecret client = secret ->
  Memory.Get now (codeKey code) st = inl (VAuthCode ac) -> Used ac = false ->
  acClientID ac = ClientID client -> acRedirectURI ac = uri ->
  in_int64 (CreateTime ac + acExpiresIn ac) ->
  Unix now <= CreateTime ac + acExpiresIn ac ->
  ExchangeCodeForToken s now code (ClientID client) secret uri st r
  = generateAccessToken s now (acUserID ac) (ClientID client) (acScopes ac)
      (<[codeKey code := {| Memory.value_ := VAuthCode (mark_used ac);
                            Memory.expiration := Unix now + 60 |}]> st) r.
Proof.
  intros Hc <- Hget Hused Hcid <- Hrange Hlive. unfold ExchangeCodeForToken.
  rewrite (GetClient_registered _ _ _ Hc), String.eqb_refl, Hget, Hused, Hcid.
  rewrite !String.eqb_refl. simpl. rewrite (wrap64_id _ Hrange).
  destruct (Z.ltb_spec (CreateTime ac + acExpiresIn ac) (Unix now)); [lia|].
  unfold Memory.Set_. simpl.
  change Minute with (60 * Second). rewrite Unix_Add_seconds.
  rewrite <- Hcid. reflexivity.
Qed.

(** [RefreshAccessToken] once the client, its secret and the refresh token
    were accepted: the record of the old access token is deleted, nothing
    else, and a new pair is generated. *)
Lemma Refresh_live s now rt client secret st r old :
  clients s !! ClientID client = Some client -> ClientSecret client = secret ->
  Memory.Get now (refreshKey rt) st = inl (VAccessToken old) ->
  atClientID old = ClientID client ->
  RefreshAccessToken s now rt (ClientID client) secret st r
  = generateAccessToken s now (atUserID old) (ClientID client) (atScopes old)
      (delete (tokenKey (Token_ old)) st) r.
Proof.
  intros Hc <- Hget Hcid. unfold RefreshAccessToken.
  rewrite (GetClient_registered _ _ _ Hc), String.eqb_refl, Hget, Hcid.
  rewrite String.eqb_refl. reflexivity.
Qed.

End OAuth2Facts.

(** ** The authorization code: exchanged once, then a tombstone *)
Section ExchangeFacts.
Context `{GoEnv}.
Import OAuth2.

(** C1, as the code has it.  For a registered client and a code that
    [GenerateAuthorizationCode] issued, the exchange with the right secret,
    client and redirect URI, made no later than [CreateTime + ExpiresIn]
    and with the random source delivering, succeeds and stores the code
    again with [Used = true] for one minute.  While this tombstone is kept,
    that is up to 60 seconds after the exchange, a second exchange of the
    code fails with "authorization code already used"; after that the
    tombstone has expired and the exchange fails with "invalid
    authorization code". *)
Theorem exchange_once_then_tombstone :
  forall (cs : list Client) (client : Client) (redirectURI userID : string)
         (scopes : list string) (t0 t1 : Time) (st : Memory.Storage) (r : Rand)
         (ac : AuthorizationCode) (st0 : Memory.Storage) (r0 ra rb : Rand)
         (b1 b2 : list Byte.byte),
    clients (registered cs) !! ClientID client = Some client ->
    GenerateAuthorizationCode (registered cs) t0 (ClientID client) redirectURI
      userID scopes st r = (Ok ac, st0, r0) ->
    0 <= t0 <= t1 -> Unix t0 + 600 < 2 ^ 63 ->
    Unix t1 <= CreateTime ac + acExpiresIn ac ->
    rand_Read 32 r0 = (inl b1, ra) -> rand_Read 32 ra = (inl b2, rb) ->
    exists tok st1,
      ExchangeCodeForToken (registered cs) t1 (Code ac) (ClientID client)
        (ClientSecret client) redirectURI st0 r0 = (Ok tok, st1, rb)
      /\ st1 !! codeKey (Code ac)
         = Some {| Memory.value_ := VAuthCode (mark_used ac);
                   Memory.expiration := Unix t1 + 60 |}
      /\ (forall t2 r2, Unix t2 <= Unix t1 + 60 ->
            ExchangeCodeForToken (registered cs) t2 (Code ac) (ClientID client)
              (ClientSecret client) redirectURI st1 r2
            = (Err "authorization code already used", st1, r2))
      /\ (forall t2 r2, Unix t1 + 60 < Unix t2 ->
            ExchangeCodeForToken (registered cs) t2 (Code ac) (ClientID client)
              (ClientSecret client) redirectURI st1 r2
            = (Err "invalid authorization code", st1, r2)).
Proof.
  intros cs client uri uid scopes t0 t1 st r ac st0 r0 ra rb b1 b2
         Hclient Hgen [Ht0 Ht01] Hmax Hlive Hr1 Hr2.
  apply GenerateAuthorizationCode_Ok in Hgen
    as (Hcid & Huri & Hused & Hct & Hexp & ->).
  destruct (registered_expirations cs) as [Hce _]. rewrite Hce in *.
  assert (Hexp' : acExpiresIn ac = 600) by (rewrite Hexp; reflexivity).
  assert (Hu0 : 0 <= Unix t0)
    by (unfold Unix, Second; apply Z.div_pos; lia).
  assert (Hu1 : Unix t0 <= Unix t1) by (apply Unix_mono; lia).
  destruct (generateAccessToken_Ok (registered cs) t1 (acUserID ac)
              (ClientID client) (acScopes ac)
              (<[codeKey (Code ac) :=
                   {| Memory.value_ := VAuthCode (mark_used ac);
                      Memory.expiration := Unix t1 + 60 |}]>
                 (<[codeKey (Code ac) :=
                      {| Memory.value_ := VAuthCode ac;
                         Memory.expiration :=
                           if 0 <? 10 * Minute
                           then Unix (Add t0 (10 * Minute)) else 0 |}]> st))
              r0 b1 ra b2 rb Hr1 Hr2)
    as (tok & exp1 & exp2 & Hgat & _ & _).
  assert (Hrow : forall it (s0 : Memory.Storage) it1 it2 a x,
            <[refreshKey x := it2]>
              (<[tokenKey a := it1]> (<[codeKey (Code ac) := it]> s0))
              !! codeKey (Code ac) = Some it).
  { intros it s0 it1 it2 a x.
    rewrite lookup_insert_ne by apply not_eq_sym, codeKey_ne_refreshKey.
    rewrite lookup_insert_ne by apply not_eq_sym, codeKey_ne_tokenKey.
    apply lookup_insert_eq. }
  eexists tok, _. split; [|split; [|split]].
  - rewrite (Exchange_fresh (registered cs) t1 (Code ac) client
               (ClientSecret client) uri _ r0 ac Hclient eq_refl);
      [exact Hgat | | exact Hused | exact Hcid | exact Huri | | exact Hlive].
    + apply (Get_live t1 _ _ {| Memory.value_ := VAuthCode ac;
                                Memory.expiration := Unix t0 + 600 |}).
      * change (10 * Minute) with (600 * Second).
        rewrite Unix_Add_seconds. apply lookup_insert_eq.
      * apply not_true_iff_false. intros Hx.
        apply isExpired_true in Hx as [_ Hx]. simpl in Hx. lia.
    + rewrite Hct, Hexp'. unfold in_int64. lia.
  - apply Hrow.
  - intros t2 r2 Hwithin.
    apply (Exchange_used _ t2 _ client _ uri _ r2 (mark_used ac)
             Hclient eq_refl); [|reflexivity].
    apply (Get_live t2 _ _ {| Memory.value_ := VAuthCode (mark_used ac);
                              Memory.expiration := Unix t1 + 60 |}).
    + apply Hrow.
    + apply not_true_iff_false. intros Hx. apply isExpired_true in Hx as [_ Hx].
      simpl in Hx. lia.
  - intros t2 r2 Hafter. eapply Exchange_missing; [exact Hclient | reflexivity |].
    apply (Get_expired t2 _ _ {| Memory.value_ := VAuthCode (mark_used ac);
                                 Memory.expiration := Unix t1 + 60 |}).
    + apply Hrow.
    + apply isExpired_true. simpl. lia.
Qed.

(** After a refresh the record of the old access token is gone and the
    row of the refresh token that was used is still there. *)
Lemma Refresh_leaves_refresh_token s now rt client st r old b1 ra b2 rb :
  clients s !! ClientID client = Some client ->
  Memory.Get now (refreshKey rt) st = inl (VAccessToken old) ->
  atClientID old = ClientID client ->
  rand_Read 32 r = (inl b1, ra) -> rand_Read 32 ra = (inl b2, rb) ->
  hex_EncodeToString (fill 32 b1) <> Token_ old ->
  hex_EncodeToString (fill 32 b2) <> rt ->
  exists tok st',
    RefreshAccessToken s now rt (ClientID client) (ClientSecret client) st r
    = (Ok tok, st', rb)
    /\ ValidateAccessToken now (Token_ old) st' = Err "invalid access token"
    /\ Memory.Get now (refreshKey rt) st' = inl (VAccessToken old).
Proof.
  intros Hclient Hget Hcid Hr1 Hr2 Hnew1 Hnew2.
  destruct (generateAccessToken_Ok s now (atUserID old) (ClientID client)
              (atScopes old) (delete (tokenKey (Token_ old)) st)
              r b1 ra b2 rb Hr1 Hr2)
    as (tok & exp1 & exp2 & Hgat & Ha & Hrt).
  eexists tok, _. split; [|split].
  - erewrite Refresh_live; [exact Hgat | exact Hclient | reflexivity |
                             exact Hget | exact Hcid].
  - unfold ValidateAccessToken. rewrite Get_absent; [reflexivity|].
    rewrite lookup_insert_ne by apply not_eq_sym, tokenKey_ne_refreshKey.
    rewrite lookup_insert_ne; [apply lookup_delete_eq|].
    intros Hk. apply tokenKey_inj in Hk. congruence.
  - apply Get_inl in Hget as (it & Hit & Hlive & Hv).
    rewrite <- Hv. apply Get_live; [|exact Hlive].
    rewrite lookup_insert_ne.
    + rewrite lookup_insert_ne by apply tokenKey_ne_refreshKey.
      rewrite lookup_delete_ne by apply tokenKey_ne_refreshKey. exact Hit.
    + intros Hk. apply refreshKey_inj in Hk. congruence.
Qed.

End ExchangeFacts.

Section ExchangeExamples.
Import OAuth2.
#[local] Existing Instance Demo.env.

Lemma code_run_eq :
  Demo.code_run
  = (Ok {| Code := Demo.the_code; acClientID := "app";
           acRedirectURI := "https://app.example/cb"; acUserID := "user1";
           acScopes := ["read"]; CreateTime := 1000; acExpiresIn := 600;
           Used := false |},
     Demo.code_run.1.2,
     [Some Byte.xa1; Some Byte.xb1; Some Byte.xa2; Some Byte.xb2;
      Some Byte.xa3; Some Byte.xb3]).
Proof. apply run_eta; vm_compute; reflexivity. Qed.

(** The code of the example is exchanged one second after it was issued. *)
Lemma exchange_once_then_tombstone_witness :
  exists tok st1,
    ExchangeCodeForToken (H := Demo.env) Demo.server (Demo.at_second 1001)
      Demo.the_code "app" "s3cret" "https://app.example/cb" Demo.code_run.1.2
      [Some Byte.xa1; Some Byte.xb1; Some Byte.xa2; Some Byte.xb2;
       Some Byte.xa3; Some Byte.xb3]
    = (Ok tok, st1,
       [Some Byte.xa2; Some Byte.xb2; Some Byte.xa3; Some Byte.xb3])
    /\ forall t2 r2, Unix t2 <= Unix (Demo.at_second 1001) + 60 ->
         ExchangeCodeForToken (H := Demo.env) Demo.server t2 Demo.the_code
           "app" "s3cret" "https://app.example/cb" st1 r2
         = (Err "authorization code already used", st1, r2).
Proof.
  destruct (exchange_once_then_tombstone (H := Demo.env) [Demo.client]
              Demo.client "https://app.example/cb" "user1" ["read"]
              (Demo.at_second 1000) (Demo.at_second 1001) Memory.NewStorage
              [Some Byte.x0c; Some Byte.xa1; Some Byte.xb1; Some Byte.xa2;
               Some Byte.xb2; Some Byte.xa3; Some Byte.xb3]
              {| Code := Demo.the_code; acClientID := "app";
                 acRedirectURI := "https://app.example/cb";
                 acUserID := "user1"; acScopes := ["read"];
                 CreateTime := 1000; acExpiresIn := 600; Used := false |}
              Demo.code_run.1.2
              [Some Byte.xa1; Some Byte.xb1; Some Byte.xa2; Some Byte.xb2;
               Some Byte.xa3; Some Byte.xb3]
              [Some Byte.xb1; Some Byte.xa2; Some Byte.xb2; Some Byte.xa3;
               Some Byte.xb3]
              [Some Byte.xa2; Some Byte.xb2; Some Byte.xa3; Some Byte.xb3]
              (repeat Byte.xa1 32) (repeat Byte.xb1 32)
              eq_refl code_run_eq)
    as (tok & st1 & Hex & _ & Hwithin & _).
  - vm_compute. split; intros Hc; discriminate Hc.
  - vm_compute. reflexivity.
  - vm_compute. intros Hc. discriminate Hc.
  - reflexivity.
  - reflexivity.
  - exists tok, st1. split; [exact Hex | exact Hwithin].
Defined.

(** C1 without the time limit does not hold: presented again 30 seconds
    after the exchange the code is "already used", but presented 61 seconds
    after it, when the tombstone has expired, it is answered as a code that
    is not there. *)
Lemma late_replay_is_not_found :
  is_ok Demo.first_exchange.1.1 = true
  /\ Demo.replay_within.1.1 = Err "authorization code already used"
  /\ Demo.replay_after.1.1 = Err "invalid authorization code".
Proof. repeat split; vm_compute; reflexivity. Qed.

(** C2 on the example: the refresh with [refresh1] succeeds and the old
    access token stops validating, but [refresh1] is accepted a second
    time, a hundred seconds later, and buys one more pair. *)
Theorem refresh_token_is_reusable :
  Demo.first_exchange.1.1
  = Ok {| Token_ := Demo.access1; TokenType := "Bearer"; atExpiresIn := 7200;
          RefreshToken := Demo.refresh1; atScopes := ["read"];
          atUserID := "user1"; atClientID := "app" |}
  /\ is_ok Demo.first_refresh.1.1 = true
  /\ ValidateAccessToken (Demo.at_second 1101) Demo.access1
       Demo.first_refresh.1.2 = Err "invalid access token"
  /\ Memory.Exists_ (Demo.at_second 1101) (refreshKey Demo.refresh1)
       Demo.first_refresh.1.2 = true
  /\ is_ok Demo.second_refresh.1.1 = true.
Proof. repeat split; vm_compute; reflexivity. Qed.

End ExchangeExamples.

(** ** The token generator and the random source *)
Section TokenFacts.
Context `{GoEnv}.
Import Config Token.

(** [generateUUID] has no error to return: [uuid.New] gives a UUID or does
    not come back. *)
Lemma generateUUID_no_error r : is_err (generateUUID r).1 = false.
Proof. unfold generateUUID. by destruct (uuid_New r) as [[u|] r']. Qed.

Lemma Generate_uuid cfg now l d r :
  TokenStyle_ cfg = TokenStyleUUID -> Generate cfg now l d r = generateUUID r.
Proof. unfold Generate. by intros ->. Qed.

(** The styles that read the random source in this package hand its error
    to the caller. *)
Lemma Generate_entropy_error cfg now l d r e r' :
  (forall n, rand_Read n r = (inr e, r')) ->
  (forall max, rand_Int max r = (inr e, r')) ->
  TokenStyle_ cfg ∈ [TokenStyleSimple; TokenStyleRandom32; TokenStyleRandom64;
                     TokenStyleRandom128; TokenStyleHash; TokenStyleTimestamp;
                     TokenStyleTik] ->
  Generate cfg now l d r = (Err e, r').
Proof.
  intros Hread Hint Hstyle. unfold Generate.
  repeat (apply elem_of_cons in Hstyle as [->|Hstyle]);
    [| | | | | | | by apply elem_of_nil in Hstyle]; simpl;
    unfold generateSimple, generateHash, generateTimestamp, generateTik;
    simpl; rewrite ?Hread, ?Hint; reflexivity.
Qed.

(** The signed style reads no randomness at all. *)
Lemma Generate_jwt cfg now l d r :
  TokenStyle_ cfg = TokenStyleJWT ->
  Generate cfg now l d r = (generateJWT cfg now l d, r).
Proof. unfold Generate. by intros ->. Qed.

(** C9 on the code.  With the UUID style, which is the default, [Generate]
    never has an error result, whatever the random source and the UUID
    library do: with the source failing, the run of the default
    configuration ends in the panic of [uuid.New].  The styles that read the
    source in this package return its error. *)
Theorem generate_uuid_cannot_report_failure :
  (forall cfg now l d r,
     is_err (Generate (SetTokenStyle cfg TokenStyleUUID) now l d r).1 = false)
  /\ Generate (H := Demo.env) DefaultConfig (Demo.at_second 5) "alice"
       "default" [None] = (Panic, [])
  /\ Generate (H := Demo.env) (Demo.styled TokenStyleSimple) (Demo.at_second 5)
       "alice" "default" [None] = (Err Demo.entropy_error, [])
  /\ Generate (H := Demo.env) (Demo.styled TokenStyleHash) (Demo.at_second 5)
       "alice" "default" [None] = (Err Demo.entropy_error, [])
  /\ Generate (H := Demo.env) (Demo.styled TokenStyleTimestamp)
       (Demo.at_second 5) "alice" "default" [None]
     = (Err Demo.entropy_error, [])
  /\ Generate (H := Demo.env) (Demo.styled TokenStyleTik) (Demo.at_second 5)
       "alice" "default" [Some Byte.x01; None]
     = (Err Demo.entropy_error, []).
Proof.
  split.
  - intros cfg now l d r. rewrite Generate_uuid by reflexivity.
    apply generateUUID_no_error.
  - repeat split; vm_compute; reflexivity.
Qed.

End TokenFacts.

(** * Further properties of the code *)

(** ** The in-memory storage: writes, deadlines and the sweeper *)
Section MemoryMore.
Import Memory.

Lemma Set_lookup now k v d (s : Storage) :
  (Set_ now k v d s).1 !! k
  = Some {| value_ := v;
            expiration := if 0 <? d then Unix (Add now d) else 0 |}.
Proof. apply lookup_insert_eq. Qed.

(** X1.  A value written with [Set] is what [Get] returns, and [Exists] is
    true, at every instant up to the deadline (at every instant at all when
    the duration is not positive); the other keys are not touched.  Past a
    deadline [Get] answers "key expired" and [Exists] is false, although the
    item is still in the map. *)
Theorem set_then_get :
  forall (s : Storage) (k : string) (v : value) (t0 : Time) (d : Duration)
         (t : Time),
    ((0 < d -> Unix t <= Unix (Add t0 d)) ->
     Get t k (Set_ t0 k v d s).1 = inl v
     /\ Exists_ t k (Set_ t0 k v d s).1 = true)
    /\ (0 < d -> Unix (Add t0 d) <> 0 -> Unix (Add t0 d) < Unix t ->
        Get t k (Set_ t0 k v d s).1 = inr ("key expired: " +:+ k)
        /\ Exists_ t k (Set_ t0 k v d s).1 = false
        /\ is_Some ((Set_ t0 k v d s).1 !! k))
    /\ (forall k', k' <> k -> (Set_ t0 k v d s).1 !! k' = s !! k')
    /\ (Set_ t0 k v d s).2 = None.
Proof.
  intros s k v t0 d t. pose proof (Set_lookup t0 k v d s) as Hk.
  split; [|split; [|split]].
  - intros Hin.
    assert (isExpired t {| value_ := v;
                           expiration := if 0 <? d then Unix (Add t0 d) else 0 |}
            = false) as Hlive.
    { apply not_true_iff_false. intros Hx. apply isExpired_true in Hx as [Hne Hlt].
      simpl in *. destruct (Z.ltb_spec 0 d); [|contradiction]. specialize (Hin H).
      lia. }
    split; [by rewrite (Get_live _ _ _ _ Hk Hlive)
           | by rewrite (Exists_live _ _ _ _ Hk Hlive)].
  - intros Hd Hne Hlt.
    assert (isExpired t {| value_ := v;
                           expiration := if 0 <? d then Unix (Add t0 d) else 0 |}
            = true) as Hexp.
    { apply isExpired_true. simpl. destruct (Z.ltb_spec 0 d); [auto | lia]. }
    split; [by rewrite (Get_expired _ _ _ _ Hk Hexp)|].
    split; [by rewrite (Exists_expired _ _ _ _ Hk Hexp) | by rewrite Hk].
  - intros k' Hk'. simpl. by rewrite lookup_insert_ne.
  - reflexivity.
Qed.

(** A value stored for 30 seconds at second 100, read at seconds 130 and
    131. *)
Lemma set_then_get_witness :
  Get (Demo.at_second 130) "k"
    (Set_ (Demo.at_second 100) "k" (VString "v") (30 * Second) NewStorage).1
  = inl (VString "v")
  /\ Get (Demo.at_second 131) "k"
       (Set_ (Demo.at_second 100) "k" (VString "v") (30 * Second) NewStorage).1
     = inr "key expired: k".
Proof.
  split.
  - apply (set_then_get NewStorage "k" (VString "v") (Demo.at_second 100)
             (30 * Second) (Demo.at_second 130)).
    intros _. vm_compute. intros Hc. discriminate Hc.
  - apply (set_then_get NewStorage "k" (VString "v") (Demo.at_second 100)
             (30 * Second) (Demo.at_second 131)).
    + reflexivity.
    + vm_compute. intros Hc. discriminate Hc.
    + reflexivity.
Defined.

(** X2.  [Delete] never fails.  After it the key is not found and does not
    exist, the other keys are as before, deleting a key that is not there
    changes nothing, and deleting twice is deleting once. *)
Theorem delete_is_idempotent :
  forall (s : Storage) (k : string) (now : Time),
    (Delete k s).2 = None
    /\ Get now k (Delete k s).1 = inr ("key not found: " +:+ k)
    /\ Exists_ now k (Delete k s).1 = false
    /\ (forall k', k' <> k -> (Delete k s).1 !! k' = s !! k')
    /\ (s !! k = None -> (Delete k s).1 = s)
    /\ (Delete k (Delete k s).1).1 = (Delete k s).1.
Proof.
  intros s k now. simpl. split; [reflexivity|].
  split; [apply Get_absent, lookup_delete_eq|].
  split; [apply Exists_absent, lookup_delete_eq|].
  split; [intros k' Hk'; by rewrite lookup_delete_ne|].
  split; [apply delete_id|]. apply delete_delete_eq.
Qed.

(** X3.  [Expire] of a key that is not in the map returns the "key not
    found" error and changes nothing.  For a key that is in the map it sets
    the new deadline without looking at the old one: an item that had
    already expired, and that the sweeper has not removed yet, is readable
    again. *)
Theorem expire_sets_deadline :
  forall (s : Storage) (k : string) (now : Time) (d : Duration),
    (s !! k = None ->
     Expire now k d s = (s, Some ("key not found: " +:+ k)))
    /\ (forall it, s !! k = Some it ->
          (Expire now k d s).2 = None
          /\ Get now k (Expire now k d s).1 = inl (value_ it)
          /\ (d <= 0 -> forall t, Get t k (Expire now k d s).1 = inl (value_ it))
          /\ (forall k', k' <> k -> (Expire now k d s).1 !! k' = s !! k')).
Proof.
  intros s k now d. split.
  - intros Hk. unfold Expire. by rewrite Hk.
  - intros it Hk. unfold Expire. rewrite Hk. simpl.
    split; [reflexivity|]. split; [|split].
    + apply Get_inl. eexists. split; [apply lookup_insert_eq|].
      split; [apply Set_item_live | reflexivity].
    + intros Hd t. apply Get_inl. eexists. split; [apply lookup_insert_eq|].
      split; [|reflexivity].
      apply isExpired_never. simpl. destruct (Z.ltb_spec 0 d); [lia | reflexivity].
    + intros k' Hk'. by rewrite lookup_insert_ne.
Qed.

(** An item that expired at second 50 is given ten more seconds at second
    100. *)
Lemma expire_sets_deadline_witness :
  Get (Demo.at_second 100) "k"
    {["k" := {| value_ := VString "v"; expiration := 50 |}]}
  = inr "key expired: k"
  /\ Get (Demo.at_second 100) "k"
       (Expire (Demo.at_second 100) "k" (10 * Second)
          {["k" := {| value_ := VString "v"; expiration := 50 |}]}).1
     = inl (VString "v").
Proof.
  split; [reflexivity|].
  destruct (expire_sets_deadline
              {["k" := {| value_ := VString "v"; expiration := 50 |}]}
              "k" (Demo.at_second 100) (10 * Second)) as [_ Hset].
  destruct (Hset {| value_ := VString "v"; expiration := 50 |} eq_refl)
    as (_ & Hget & _).
  exact Hget.
Defined.

(** X4.  While a key with a deadline is live, [TTL] is the number of whole
    seconds left to the deadline: right after [Set] with [n] seconds it is
    [n] seconds, and it goes down with the clock. *)
Theorem ttl_counts_down :
  forall (s : Storage) (k : string) (v : value) (t0 t : Time) (n : Z),
    0 < n -> (n * Second < 2 ^ 63) -> (0 <= t0 <= t) ->
    Unix t <= Unix t0 + n ->
    TTL t k (Set_ t0 k v (n * Second) s).1
    = ((Unix t0 + n - Unix t) * Second, None).
Proof.
  intros s k v t0 t n Hn Hmax [Ht0 Ht] Hlive.
  assert (0 <= Unix t0) by (unfold Unix, Second; apply Z.div_pos; lia).
  assert (Unix t0 <= Unix t) by (apply Unix_mono; lia).
  unfold TTL. rewrite Set_lookup. simpl.
  assert ((0 <? n * Second) = true) as ->
    by (apply Z.ltb_lt; unfold Second; lia).
  rewrite Unix_Add_seconds.
  destruct (Z.eqb_spec (Unix t0 + n) 0); [lia|].
  assert (Hsmall : 0 <= Unix t0 + n - Unix t <= n) by lia.
  rewrite wrap64_id by (unfold in_int64, Second in *; lia).
  destruct (Z.ltb_spec (Unix t0 + n - Unix t) 0); [lia|].
  unfold seconds. rewrite wrap64_id; [reflexivity|].
  unfold in_int64, Second in *. nia.
Qed.

Lemma ttl_counts_down_witness :
  TTL (Demo.at_second 110) "k"
    (Set_ (Demo.at_second 100) "k" (VString "v") (30 * Second) NewStorage).1
  = ((Unix (Demo.at_second 100) + 30 - Unix (Demo.at_second 110)) * Second, None).
Proof.
  apply (ttl_counts_down NewStorage "k" (VString "v") (Demo.at_second 100)
           (Demo.at_second 110) 30).
  - reflexivity.
  - reflexivity.
  - vm_compute. split; intros Hc; discriminate Hc.
  - vm_compute. intros Hc. discriminate Hc.
Defined.

Lemma cleanup_tick_lookup t (s : Storage) k it :
  cleanup_tick t s !! k = Some it <-> s !! k = Some it /\ isExpired t it = false.
Proof. unfold cleanup_tick. by rewrite map_lookup_filter_Some. Qed.

(** X5.  The sweeper removes exactly the items that have expired; the
    row of a key that is absent or live at the sweep is not touched.  At
    the instant of the sweep or later, [Exists] answers the same with or
    without it and [Get] returns a value exactly when it did, and the same
    one.  What a reader can see of the sweep is the error of a swept key:
    [Get] reports "key not found" where it reported "key expired", [TTL]
    returns the same -2 seconds but now with the "key not found" error, and
    [Expire], which would have revived the item, fails with "key not
    found". *)
Theorem cleanup_seen_only_in_errors :
  forall (s : Storage) (now now' : Time) (k : string),
    Unix now <= Unix now' ->
    Exists_ now' k (cleanup_tick now s) = Exists_ now' k s
    /\ (forall v, Get now' k (cleanup_tick now s) = inl v
                  <-> Get now' k s = inl v)
    /\ ((forall it, s !! k = Some it -> isExpired now it = false) ->
        cleanup_tick now s !! k = s !! k)
    /\ (forall it, s !! k = Some it -> isExpired now it = true ->
          cleanup_tick now s !! k = None
          /\ Get now' k s = inr ("key expired: " +:+ k)
          /\ Get now' k (cleanup_tick now s) = inr ("key not found: " +:+ k)
          /\ (in_int64 (expiration it - Unix now') ->
              TTL now' k s = (-2 * Second, None))
          /\ TTL now' k (cleanup_tick now s)
             = (-2 * Second, Some ("key not found: " +:+ k))
          /\ (forall d, (Expire now' k d s).2 = None
                        /\ Expire now' k d (cleanup_tick now s)
                           = (cleanup_tick now s,
                              Some ("key not found: " +:+ k)))).
Proof.
  intros s now now' k Hmono.
  assert (Hget : forall v, Get now' k (cleanup_tick now s) = inl v
                           <-> Get now' k s = inl v).
  { intros v. rewrite !Get_inl. split.
    - intros (it & Hit & Hlive & Hv). apply cleanup_tick_lookup in Hit as [Hit _].
      eauto.
    - intros (it & Hit & Hlive & Hv). exists it. split; [|auto].
      apply cleanup_tick_lookup. split; [exact Hit|].
      apply not_true_iff_false. intros Hx.
      apply (isExpired_mono now now') in Hx; [congruence | exact Hmono]. }
  assert (Hswept : forall it, s !! k = Some it -> isExpired now it = true ->
                              cleanup_tick now s !! k = None).
  { intros it Hit Hexp. destruct (cleanup_tick now s !! k) as [it'|] eqn:Hc;
      [|reflexivity].
    apply cleanup_tick_lookup in Hc as [Hit' Hlive]. congruence. }
  split; [|split; [exact Hget|split]].
  - destruct (Exists_ now' k s) eqn:He.
    + apply Exists_Get in He as [v Hv]. apply Exists_Get. exists v. by apply Hget.
    + apply not_true_iff_false. intros Hx. apply Exists_Get in Hx as [v Hv].
      apply Hget in Hv. assert (Exists_ now' k s = true) by (apply Exists_Get; eauto).
      congruence.
  - intros Hlive. destruct (s !! k) as [it|] eqn:Hit.
    + apply cleanup_tick_lookup. split; [exact Hit | by apply Hlive].
    + by apply cleanup_tick_lookup_None.
  - intros it Hit Hexp. pose proof (Hswept it Hit Hexp) as Hnone.
    pose proof (isExpired_mono now now' it Hmono Hexp) as Hexp'.
    split; [exact Hnone|]. split; [by apply (Get_expired _ _ _ it)|].
    split; [by apply Get_absent|]. split; [|split].
    + intros Hr. apply isExpired_true in Hexp' as [Hne Hlt].
      unfold TTL. rewrite Hit.
      destruct (Z.eqb_spec (expiration it) 0); [contradiction|].
      rewrite (wrap64_id _ Hr).
      destruct (Z.ltb_spec (expiration it - Unix now') 0); [reflexivity | lia].
    + unfold TTL. by rewrite Hnone.
    + intros d. unfold Expire. by rewrite Hit, Hnone.
Qed.

(** An item that expired at second 50 is swept at second 60 and read at
    second 100. *)
Lemma cleanup_seen_only_in_errors_witness :
  Get (Demo.at_second 100) "k"
    {["k" := {| value_ := VString "v"; expiration := 50 |}]}
  = inr "key expired: k"
  /\ Get (Demo.at_second 100) "k"
       (cleanup_tick (Demo.at_second 60)
          {["k" := {| value_ := VString "v"; expiration := 50 |}]})
     = inr "key not found: k".
Proof.
  destruct (cleanup_seen_only_in_errors
              {["k" := {| value_ := VString "v"; expiration := 50 |}]}
              (Demo.at_second 60) (Demo.at_second 100) "k")
    as (_ & _ & _ & Hswept).
  - vm_compute. intros Hc. discriminate Hc.
  - destruct (Hswept {| value_ := VString "v"; expiration := 50 |})
      as (_ & Hbefore & Hafter & _).
    + reflexivity.
    + reflexivity.
    + split; [exact Hbefore | exact Hafter].
Defined.

(** X6.  [Keys] returns, each once and without an error, exactly the keys
    of the live items that [matchPattern] accepts; an expired item is left
    out even before the sweeper removes it. *)
Theorem keys_are_live_matches :
  forall (s : Storage) (now : Time) (pattern : string) (k : string),
    (k ∈ (Keys now pattern s).1
     <-> exists it, s !! k = Some it /\ isExpired now it = false
                    /\ matchPattern k pattern = true)
    /\ NoDup (Keys now pattern s).1
    /\ (Keys now pattern s).2 = None.
Proof.
  intros s now pattern k. split; [|split; [|reflexivity]].
  - unfold Keys. simpl. rewrite list_elem_of_fmap. split.
    + intros ([k' it] & -> & Hin). apply list_elem_of_In, filter_In in Hin
        as [Hin Hf]. apply list_elem_of_In, elem_of_map_to_list in Hin.
      apply andb_true_iff in Hf as [Hlive Hm]. apply negb_true_iff in Hlive.
      simpl in *. eauto.
    + intros (it & Hit & Hlive & Hm). exists (k, it). split; [reflexivity|].
      apply list_elem_of_In, filter_In. split.
      * by apply list_elem_of_In, elem_of_map_to_list.
      * simpl. by rewrite Hlive, Hm.
  - unfold Keys. simpl.
    eapply sublist_NoDup; [apply (NoDup_fst_map_to_list s)|].
    clear. induction (map_to_list s) as [|x l IH]; simpl; [constructor|].
    destruct (negb _ && _); simpl; by constructor.
Qed.

End MemoryMore.

(** ** The key patterns of the storage *)
Section PatternFacts.
Import GoStrings Memory.

Lemma substring_skip a b :
  substring (String.length a) (String.length b) (a +:+ b) = b.
Proof.
  induction a as [|c a IH].
  - rewrite sapp_nil_l. simpl. pose proof (substring_0_app b "") as Hb.
    by rewrite sapp_nil_r in Hb.
  - rewrite sapp_cons. simpl. exact IH.
Qed.

Lemma TrimPrefix_app pre rest : TrimPrefix (pre +:+ rest) pre = rest.
Proof.
  unfold TrimPrefix, slice_from. rewrite HasPrefix_app, slength_app.
  replace (String.length pre + String.length rest - String.length pre)%nat
    with (String.length rest) by lia.
  apply substring_skip.
Qed.

Lemma TrimPrefix_none s pre : HasPrefix s pre = false -> TrimPrefix s pre = s.
Proof. unfold TrimPrefix. by intros ->. Qed.

Lemma HasPrefix_cons b s a pre :
  HasPrefix (String b s) (String a pre)
  = if Ascii.eqb a b then HasPrefix s pre else false.
Proof. reflexivity. Qed.

(** A string without a star does not start with one, does not end with
    one, and neither does what it is appended to. *)
Lemma star_free_first c p :
  Contains (String c p) "*" = false -> Ascii.eqb "*" c = false.
Proof.
  rewrite Contains_eq.
  change (HasPrefix (String c p) "*")
    with (if Ascii.eqb "*" c then HasPrefix p "" else false).
  destruct (Ascii.eqb "*" c); [|reflexivity].
  by destruct p.
Qed.

Lemma star_free_head p x :
  Contains p "*" = false -> p <> "" -> HasPrefix (p +:+ x) "*" = false.
Proof.
  intros Hp Hne. destruct p as [|c p]; [contradiction|].
  rewrite sapp_cons.
  change (HasPrefix (String c (p +:+ x)) "*")
    with (if Ascii.eqb "*" c then HasPrefix (p +:+ x) "" else false).
  by rewrite (star_free_first c p Hp).
Qed.

Lemma star_free_no_glob p x :
  Contains p "*" = false -> p <> "" -> HasPrefix (p +:+ x) "**/" = false.
Proof.
  intros Hp Hne. destruct p as [|c p]; [contradiction|].
  rewrite sapp_cons, HasPrefix_cons. by rewrite (star_free_first c p Hp).
Qed.

Lemma suffix_of_app a q pre suf :
  a +:+ q = pre +:+ suf -> q <> "" -> suf <> "" ->
  String.length suf = 1%nat -> exists q', q = q' +:+ suf.
Proof.
  revert pre. induction a as [|c a IH]; intros pre Heq Hq Hs Hlen.
  - rewrite sapp_nil_l in Heq. by exists pre.
  - destruct pre as [|c' pre].
    + rewrite sapp_nil_l, sapp_cons in Heq. destruct suf as [|c1 suf]; [done|].
      injection Heq as _ Heq. simpl in Hlen. destruct suf; [|discriminate].
      apply sapp_eq_nil in Heq as [_ ->]. contradiction.
    + rewrite !sapp_cons in Heq. injection Heq as _ Heq. eauto.
Qed.

Lemma star_free_tail a q :
  Contains q "*" = false -> q <> "" -> HasSuffix (a +:+ q) "*" = false.
Proof.
  intros Hq Hne. apply not_true_iff_false. intros Hs.
  apply HasSuffix_spec in Hs as [pre Hpre].
  destruct (suffix_of_app a q pre "*" Hpre Hne) as [q' ->];
    [discriminate | reflexivity|].
  assert (Contains (q' +:+ "*") "*" = true) as Hc
    by (apply Contains_spec; exists q', ""; by rewrite sapp_nil_r).
  congruence.
Qed.

Lemma star_free_spec p :
  Contains p "*" = false -> ~ PermissionSpec.contains p (PermissionSpec.sep_of "*").
Proof.
  intros Hp Hc. unfold PermissionSpec.contains, PermissionSpec.sep_of in Hc.
  apply Contains_spec in Hc. congruence.
Qed.

Lemma Contains_app_star a b : Contains (a +:+ "*" +:+ b) "*" = true.
Proof. apply Contains_spec. by exists a, b. Qed.

Lemma star_free_ne_star p : Contains p "*" = false -> (p =? "*")%string = false.
Proof. intros Hp. apply String.eqb_neq. intros ->. discriminate Hp. Qed.

Lemma pattern_not_trivial p y :
  Contains p "*" = false -> p <> "" ->
  ((p +:+ y =? "")%string || (p +:+ y =? "*")%string) = false.
Proof.
  intros Hp Hne. destruct p as [|c p]; [contradiction|]. rewrite sapp_cons.
  change ((String c (p +:+ y) =? "*")%string)
    with (if Ascii.eqb c "*" then (p +:+ y =? "")%string else false).
  rewrite Ascii.eqb_sym, (star_free_first c p Hp). reflexivity.
Qed.

(** X7.  What [matchPattern] does with a pattern, for texts [p], [q], [r]
    that hold no star ([p] and [q] not empty): the empty pattern and ["*"]
    accept every key; [p*] accepts the keys that start with [p]; [*q] those
    that end with [q]; [p*q] those that start with [p] and end with [q],
    also when the two overlap in the key; [p] alone, and [**/p], accept the
    key [p] only; and a pattern with two stars inside, [p*r*q], is compared
    literally, so it accepts no key but itself. *)
Theorem matchPattern_forms :
  forall key p q r : string,
    Contains p "*" = false -> Contains q "*" = false ->
    Contains r "*" = false -> p <> "" -> q <> "" ->
    matchPattern key "" = true
    /\ matchPattern key "*" = true
    /\ matchPattern key (p +:+ "*") = HasPrefix key p
    /\ matchPattern key ("*" +:+ q) = HasSuffix key q
    /\ matchPattern key (p +:+ "*" +:+ q) = HasPrefix key p && HasSuffix key q
    /\ matchPattern key p = String.eqb key p
    /\ matchPattern key ("**/" +:+ p) = String.eqb key p
    /\ matchPattern key (p +:+ "*" +:+ r +:+ "*" +:+ q)
       = String.eqb key (p +:+ "*" +:+ r +:+ "*" +:+ q).
Proof.
  intros key p q r Hp Hq Hr Hpne Hqne.
  assert (Hexact : forall x, Contains x "*" = false -> x <> "" ->
            (if HasSuffix x "*" then HasPrefix key (TrimSuffix x "*")
             else if HasPrefix x "*" then HasSuffix key (TrimPrefix x "*")
             else match (if Contains x "*" then Split x "*"%char else []) with
                  | [p0; p1] => HasPrefix key p0 && HasSuffix key p1
                  | _ => String.eqb key x
                  end) = String.eqb key x).
  { intros x Hx Hxne.
    pose proof (star_free_tail "" x Hx Hxne) as Ht. rewrite sapp_nil_l in Ht.
    pose proof (star_free_head x "" Hx Hxne) as Hh. rewrite sapp_nil_r in Hh.
    by rewrite Ht, Hh, Hx. }
  split; [reflexivity|]. split; [reflexivity|].
  split; [|split; [|split; [|split; [|split]]]].
  - unfold matchPattern.
    rewrite (pattern_not_trivial p "*" Hp Hpne).
    rewrite (TrimPrefix_none _ _ (star_free_no_glob p "*" Hp Hpne)).
    by rewrite HasSuffix_app, TrimSuffix_app.
  - unfold matchPattern.
    assert ((("*" +:+ q =? "")%string || ("*" +:+ q =? "*")%string) = false)
      as -> by (destruct q; [contradiction | reflexivity]).
    assert (TrimPrefix ("*" +:+ q) "**/" = "*" +:+ q) as ->.
    { apply TrimPrefix_none. destruct q as [|c q]; [contradiction|].
      rewrite sapp_cons, sapp_nil_l, !HasPrefix_cons.
      by rewrite (star_free_first c q Hq). }
    rewrite (star_free_tail "*" q Hq Hqne).
    by rewrite HasPrefix_app, TrimPrefix_app.
  - unfold matchPattern. rewrite (pattern_not_trivial p _ Hp Hpne).
    rewrite (TrimPrefix_none _ _ (star_free_no_glob p _ Hp Hpne)).
    rewrite <- (sapp_assoc p "*" q) at 1.
    rewrite (star_free_tail (p +:+ "*") q Hq Hqne).
    rewrite (star_free_head p _ Hp Hpne), Contains_app_star.
    change (p +:+ "*" +:+ q) with (p +:+ String "*"%char q).
    rewrite (Split_app_sep p "*"%char q (star_free_spec p Hp)).
    rewrite (Split_single q "*"%char (star_free_spec q Hq)). reflexivity.
  - unfold matchPattern.
    assert (((p =? "")%string || (p =? "*")%string) = false) as ->.
    { pose proof (pattern_not_trivial p "" Hp Hpne) as Hx.
      by rewrite sapp_nil_r in Hx. }
    pose proof (star_free_no_glob p "" Hp Hpne) as Hg. rewrite sapp_nil_r in Hg.
    rewrite (TrimPrefix_none _ _ Hg). by apply Hexact.
  - unfold matchPattern.
    assert (((("**/" +:+ p) =? "")%string || (("**/" +:+ p) =? "*")%string)
            = false) as -> by reflexivity.
    rewrite TrimPrefix_app. by apply Hexact.
  - unfold matchPattern.
    rewrite (pattern_not_trivial p _ Hp Hpne).
    rewrite (TrimPrefix_none _ _ (star_free_no_glob p _ Hp Hpne)).
    assert (p +:+ "*" +:+ r +:+ "*" +:+ q = (p +:+ "*" +:+ r +:+ "*") +:+ q)
      as Hassoc by (by rewrite !sapp_assoc).
    rewrite Hassoc at 1. rewrite (star_free_tail _ q Hq Hqne).
    rewrite (star_free_head p _ Hp Hpne), Contains_app_star.
    change (Split (p +:+ "*" +:+ r +:+ "*" +:+ q) "*"%char)
      with (Split (p +:+ String "*"%char (r +:+ String "*"%char q)) "*"%char).
    rewrite (Split_app_sep p "*"%char _ (star_free_spec p Hp)).
    rewrite (Split_app_sep r "*"%char _ (star_free_spec r Hr)).
    rewrite (Split_single q "*"%char (star_free_spec q Hq)). reflexivity.
Qed.

(** The key ["aba"] is accepted by ["ab*ba"], whose two ends overlap in
    it. *)
Lemma matchPattern_forms_witness :
  matchPattern "aba" ("ab" +:+ "*" +:+ "ba")
  = HasPrefix "aba" "ab" && HasSuffix "aba" "ba".
Proof.
  destruct (matchPattern_forms "aba" "ab" "ba" "" eq_refl eq_refl eq_refl)
    as (_ & _ & _ & _ & Hmid & _); [discriminate | discriminate | exact Hmid].
Defined.

End PatternFacts.

(** ** Deadlines of stored items *)
Section DeadlineFacts.
Import Memory.

(** An item written at [t0] for the duration [d] is live up to its
    deadline, and for ever when [d] is not positive. *)
Lemma item_live_until v t0 d t :
  (0 < d -> Unix t <= Unix (Add t0 d)) ->
  isExpired t {| value_ := v;
                 expiration := if 0 <? d then Unix (Add t0 d) else 0 |} = false.
Proof.
  intros Hin. apply not_true_iff_false. intros Hx.
  apply isExpired_true in Hx as [Hne Hlt]. simpl in *.
  destruct (Z.ltb_spec 0 d) as [Hd|Hd]; [|contradiction].
  specialize (Hin Hd). lia.
Qed.

Lemma item_dead_after v t0 d t :
  0 < d -> Unix (Add t0 d) <> 0 -> Unix (Add t0 d) < Unix t ->
  isExpired t {| value_ := v;
                 expiration := if 0 <? d then Unix (Add t0 d) else 0 |} = true.
Proof.
  intros Hd Hne Hlt. apply isExpired_true. simpl.
  destruct (Z.ltb_spec 0 d); [auto | lia].
Qed.

Lemma seconds_whole n : in_int64 (n * Second) -> seconds n = n * Second.
Proof. apply wrap64_id. Qed.

End DeadlineFacts.

(** ** The manager: bans, the rows of a login, tags and renewal *)
Section ManagerMore.
Context `{GoEnv}.
Import Config Manager.

Lemma disable_key_inj m l1 l2 :
  prefix m +:+ "disable:" +:+ l1 = prefix m +:+ "disable:" +:+ l2 -> l1 = l2.
Proof. intros Hk. do 2 apply (inj (String.app _)) in Hk. exact Hk. Qed.

Lemma Disable_lookup m now l d st :
  (Disable m now l d st).1 !! (prefix m +:+ "disable:" +:+ l)
  = Some {| Memory.value_ := VString "1";
            Memory.expiration := if 0 <? d then Unix (Add now d) else 0 |}.
Proof. apply lookup_insert_eq. Qed.

(** X8.  After [Disable], and until the ban runs out (for ever when the
    duration is not positive), [IsDisable] is true and every [Login] of the
    account fails with "account is disabled" without touching the storage
    or the random source.  Other accounts are not affected, and [Untie]
    lifts the ban. *)
Theorem disable_blocks_login :
  forall (m : Manager) (now t : Time) (loginID : string) (d : Duration)
         (st : Memory.Storage),
    (0 < d -> Unix t <= Unix (Add now d)) ->
    IsDisable m t loginID (Disable m now loginID d st).1 = true
    /\ (forall device r,
          Login m t loginID device (Disable m now loginID d st).1 r
          = (Err "account is disabled", (Disable m now loginID d st).1, r))
    /\ (forall l', l' <> loginID ->
          IsDisable m t l' (Disable m now loginID d st).1 = IsDisable m t l' st)
    /\ IsDisable m t loginID (Untie m loginID (Disable m now loginID d st).1).1
       = false.
Proof.
  intros m now t l d st Hin.
  assert (Hdis : IsDisable m t l (Disable m now l d st).1 = true).
  { unfold IsDisable.
    apply (Exists_live _ _ _ _ (Disable_lookup m now l d st)).
    by apply item_live_until. }
  split; [exact Hdis|]. split; [|split].
  - intros device r. unfold Login. by rewrite Hdis.
  - intros l' Hne. unfold IsDisable, Memory.Exists_, Disable, Memory.Set_.
    simpl. rewrite lookup_insert_ne; [reflexivity|].
    intros Hk. apply disable_key_inj in Hk. congruence.
  - unfold IsDisable, Untie. apply Exists_absent. simpl. apply lookup_delete_eq.
Qed.

(** The three rows a successful [Login] writes: the record of the token,
    the mapping row of the pair, and the session, which does not expire. *)
Lemma Login_rows m now l device st r tok st' r' :
  Login m now l device st r = (Ok tok, st', r') ->
  st' !! getTokenKey m tok
  = Some {| Memory.value_ :=
              VString (json_Marshal_TokenInfo
                         {| LoginID := l; Device := deviceType device;
                            tiCreateTime := Unix now; ActiveTime := Unix now;
                            Tag := "" |});
            Memory.expiration :=
              if 0 <? expiration_of m then Unix (Add now (expiration_of m))
              else 0 |}
  /\ st' !! getAccountKey m l (deviceType device)
     = Some {| Memory.value_ := VString tok;
               Memory.expiration :=
                 if 0 <? expiration_of m then Unix (Add now (expiration_of m))
                 else 0 |}
  /\ st' !! (prefix m +:+ "session:" +:+ l)
     = Some {| Memory.value_ :=
                 VString (json_Marshal_Session
                            {| sessID := l; sessCreateTime := Unix now;
                               Data := <["loginTime" := SInt64 (Unix now)]>
                                         (<["device" := SString (deviceType device)]>
                                            (<["loginId" := SString l]> ∅)) |});
               Memory.expiration := 0 |}.
Proof.
  unfold Login. destruct (IsDisable m now l st); [discriminate|].
  set (d := deviceType device).
  destruct (if negb (IsConcurrent (config m)) then kickout m now l d st
            else (Ok tt, st)) as [[[]| |] s1]; try discriminate;
    (destruct (Token.Generate (config m) now l d r) as [[tok'| |] r1];
     try discriminate);
    unfold saveTokenInfo, Session.Set_, Session.save, Memory.Set_,
      Session.NewSession; simpl;
    intros [= <- <- <-]; (split; [|split]).
  1,4: rewrite !lookup_insert_ne by (apply not_eq_sym, token_key_ne_session);
       rewrite lookup_insert_ne by (apply not_eq_sym, token_key_ne_account);
       apply lookup_insert_eq.
  1,3: rewrite !lookup_insert_ne by (apply not_eq_sym, account_key_ne_session);
       apply lookup_insert_eq.
  all: apply lookup_insert_eq.
Qed.

Lemma getTokenInfo_stored m now tok (st : Memory.Storage) it info :
  st !! getTokenKey m tok = Some it ->
  Memory.isExpired now it = false ->
  Memory.value_ it = VString (json_Marshal_TokenInfo info) ->
  json_Unmarshal_TokenInfo (json_Marshal_TokenInfo info) = Some info ->
  getTokenInfo m now tok st = Ok info.
Proof.
  intros Hk Hlive Hv Hrt. unfold getTokenInfo.
  by rewrite (Get_live _ _ _ _ Hk Hlive), Hv, Hrt.
Qed.

(** [IsLogin] on a token whose record is live, when the inactivity check
    is off or passes. *)
Lemma IsLogin_live m now tok (st : Memory.Storage) it :
  tok <> "" ->
  st !! getTokenKey m tok = Some it ->
  Memory.isExpired now it = false ->
  (0 < ActiveTimeout (config m) ->
   exists info, getTokenInfo m now tok st = Ok info
                /\ in_int64 (Unix now - ActiveTime info)
                /\ Unix now - ActiveTime info <= ActiveTimeout (config m)) ->
  IsLogin m now tok st
  = (Ok {| logged_in := true;
           renewal_started :=
             AutoRenew (config m) && (0 <? Timeout (config m)) |}, st).
Proof.
  intros Htok Hk Hlive Hact. unfold IsLogin.
  destruct (String.eqb_spec tok ""); [contradiction|].
  rewrite (Exists_live _ _ _ _ Hk Hlive). simpl.
  destruct (Z.ltb_spec 0 (ActiveTimeout (config m))) as [Ha|Ha]; [|reflexivity].
  destruct (Hact Ha) as (info & -> & Hr & Hle).
  rewrite (wrap64_id _ Hr).
  destruct (Z.ltb_spec (ActiveTimeout (config m)) (Unix now - ActiveTime info));
    [lia | reflexivity].
Qed.

(** X9.  The token a successful [Login] returns is accepted from then on:
    up to the deadline [Timeout] sets (for ever without one), and while the
    inactivity timeout, when one is configured, has not run out, [IsLogin]
    is true and changes nothing, [CheckLogin] returns no error,
    [GetLoginID] and [GetLoginIDNotCheck] give back the login id, and
    [GetTokenValue] of the pair gives back the token.  The record must
    survive its serialisation, and the token must not be the empty
    string, which [IsLogin] never accepts. *)
Theorem login_then_islogin :
  forall (m : Manager) (t0 t : Time) (loginID : string) (device : list string)
         (st : Memory.Storage) (r : Rand) (tok : string)
         (st' : Memory.Storage) (r' : Rand),
    Login m t0 loginID device st r = (Ok tok, st', r') ->
    tok <> "" ->
    (0 < expiration_of m -> Unix t <= Unix (Add t0 (expiration_of m))) ->
    json_Unmarshal_TokenInfo
      (json_Marshal_TokenInfo
         {| LoginID := loginID; Device := deviceType device;
            tiCreateTime := Unix t0; ActiveTime := Unix t0; Tag := "" |})
    = Some {| LoginID := loginID; Device := deviceType device;
              tiCreateTime := Unix t0; ActiveTime := Unix t0; Tag := "" |} ->
    (0 < ActiveTimeout (config m) ->
     in_int64 (Unix t - Unix t0)
     /\ Unix t - Unix t0 <= ActiveTimeout (config m)) ->
    IsLogin m t tok st'
    = (Ok {| logged_in := true;
             renewal_started :=
               AutoRenew (config m) && (0 <? Timeout (config m)) |}, st')
    /\ CheckLogin m t tok st'
       = (Ok tt, st', AutoRenew (config m) && (0 <? Timeout (config m)))
    /\ GetLoginID m t tok st'
       = (Ok loginID, st', AutoRenew (config m) && (0 <? Timeout (config m)))
    /\ GetLoginIDNotCheck m t tok st' = Ok loginID
    /\ GetTokenValue m t loginID device st' = Ok tok.
Proof.
  intros m t0 t l device st r tok st' r' Hlogin Htok Hin Hrt Hact.
  destruct (Login_rows _ _ _ _ _ _ _ _ _ Hlogin) as (Hrec & Hacc & _).
  pose proof (item_live_until
                (VString (json_Marshal_TokenInfo
                            {| LoginID := l; Device := deviceType device;
                               tiCreateTime := Unix t0; ActiveTime := Unix t0;
                               Tag := "" |}))
                t0 (expiration_of m) t Hin) as Hlive.
  pose proof (item_live_until (VString tok) t0 (expiration_of m) t Hin)
    as Hlive'.
  pose proof (getTokenInfo_stored m t tok st' _ _ Hrec Hlive eq_refl Hrt)
    as Hinfo.
  assert (Hlog : IsLogin m t tok st'
                 = (Ok {| logged_in := true;
                          renewal_started :=
                            AutoRenew (config m) && (0 <? Timeout (config m)) |},
                    st')).
  { apply (IsLogin_live m t tok st' _ Htok Hrec Hlive).
    intros Ha. eexists. split; [exact Hinfo|]. simpl. exact (Hact Ha). }
  split; [exact Hlog|]. split; [|split; [|split]].
  - unfold CheckLogin. by rewrite Hlog.
  - unfold GetLoginID. by rewrite Hlog, Hinfo.
  - unfold GetLoginIDNotCheck. by rewrite Hinfo.
  - unfold GetTokenValue. by rewrite (Get_live _ _ _ _ Hacc Hlive').
Qed.

(** X10.  [Login] of a pair that already has a token: with concurrent
    login switched off the record of the previous token is deleted, so that
    [IsLogin] rejects it from then on; with concurrent login on the record
    stays.  In both cases the mapping of the pair now gives the new token,
    and the records of all other tokens are untouched. *)
Theorem login_displaces_previous_token :
  forall (m : Manager) (now : Time) (loginID : string) (device : list string)
         (st : Memory.Storage) (r : Rand) (told tok : string)
         (st' : Memory.Storage) (r' : Rand),
    Memory.Get now (getAccountKey m loginID (deviceType device)) st
    = inl (VString told) ->
    Login m now loginID device st r = (Ok tok, st', r') ->
    tok <> told ->
    (IsConcurrent (config m) = false ->
     st' !! getTokenKey m told = None
     /\ forall t, IsLogin m t told st'
                  = (Ok {| logged_in := false; renewal_started := false |}, st'))
    /\ (IsConcurrent (config m) = true ->
        st' !! getTokenKey m told = st !! getTokenKey m told)
    /\ GetTokenValue m now loginID device st' = Ok tok
    /\ (forall t', t' <> told -> t' <> tok ->
                   st' !! getTokenKey m t' = st !! getTokenKey m t').
Proof.
  intros m now l device st r told tok st' r' Hget Hlogin Hne.
  destruct (Login_Ok _ _ _ _ _ _ _ _ _ Hlogin)
    as (_ & _ & (it & Hacc & Hv & Hlive) & _ & Hframe).
  assert (Hk : (kickout m now l (deviceType device) st).2
               = delete (getTokenKey m told) st).
  { unfold kickout. by rewrite Hget. }
  assert (Hother : forall t', t' <> tok ->
            st' !! getTokenKey m t'
            = (if IsConcurrent (config m) then st
               else delete (getTokenKey m told) st) !! getTokenKey m t').
  { intros t' Ht'. rewrite <- Hk. apply Hframe.
    - intros Heq. apply getTokenKey_inj in Heq. congruence.
    - apply token_key_ne_account.
    - apply token_key_ne_session. }
  split; [|split; [|split]].
  - intros Hc. rewrite Hc in Hother.
    assert (Hnone : st' !! getTokenKey m told = None).
    { rewrite Hother by congruence. apply lookup_delete_eq. }
    split; [exact Hnone|]. intros t. apply IsLogin_no_record.
    by apply Exists_absent.
  - intros Hc. rewrite Hc in Hother. apply Hother. congruence.
  - unfold GetTokenValue. by rewrite (Get_live _ _ _ _ Hacc Hlive), Hv.
  - intros t' Ht1 Ht2. rewrite (Hother t' Ht2).
    destruct (IsConcurrent (config m)); [reflexivity|].
    apply lookup_delete_ne. intros Heq. apply getTokenKey_inj in Heq. congruence.
Qed.

(** X11.  A successful [Login] replaces the session of the account by a
    fresh one that holds the login id, the device and the login time and
    nothing else, whatever the session held before; the session row is
    keyed by the login id alone and never expires. *)
Theorem login_resets_session :
  forall (m : Manager) (now t : Time) (loginID : string) (device : list string)
         (st : Memory.Storage) (r : Rand) (tok : string)
         (st' : Memory.Storage) (r' : Rand),
    Login m now loginID device st r = (Ok tok, st', r') ->
    Memory.Get t (prefix m +:+ "session:" +:+ loginID) st'
    = inl (VString
             (json_Marshal_Session
                {| sessID := loginID; sessCreateTime := Unix now;
                   Data := <["loginTime" := SInt64 (Unix now)]>
                             (<["device" := SString (deviceType device)]>
                                (<["loginId" := SString loginID]> ∅)) |}))
    /\ Memory.TTL t (prefix m +:+ "session:" +:+ loginID) st'
       = (-1 * Second, None).
Proof.
  intros m now t l device st r tok st' r' Hlogin.
  destruct (Login_rows _ _ _ _ _ _ _ _ _ Hlogin) as (_ & _ & Hsess).
  split.
  - by rewrite (Get_live _ _ _ _ Hsess) by reflexivity.
  - unfold Memory.TTL. by rewrite Hsess.
Qed.

Lemma disable_key_ne_token m l t :
  prefix m +:+ "disable:" +:+ l <> getTokenKey m t.
Proof.
  unfold getTokenKey. intros Hk.
  apply (inj (String.app _)) in Hk. rewrite !sapp_cons in Hk. discriminate Hk.
Qed.

Lemma disable_key_ne_account m l l' d :
  prefix m +:+ "disable:" +:+ l <> getAccountKey m l' d.
Proof.
  unfold getAccountKey. intros Hk.
  apply (inj (String.app _)) in Hk. rewrite !sapp_cons in Hk. discriminate Hk.
Qed.

(** X12.  [LoginByToken] writes the record of the given token and the
    mapping row of the pair and nothing else, and it checks nothing: it
    does not fail on a disabled account, leaves the ban as it is, does not
    delete the previous token of the pair even when concurrent login is off,
    and writes no session.  Up to the deadline [Timeout] sets the mapping
    gives the token and the token's record exists, so [IsLogin] accepts it
    when no inactivity timeout is configured. *)
Theorem login_by_token_skips_checks :
  forall (m : Manager) (now t : Time) (loginID tok : string)
         (device : list string) (st : Memory.Storage),
    (0 < expiration_of m -> Unix t <= Unix (Add now (expiration_of m))) ->
    (LoginByToken m now loginID tok device st).2 = None
    /\ GetTokenValue m t loginID device
         (LoginByToken m now loginID tok device st).1 = Ok tok
    /\ Memory.Exists_ t (getTokenKey m tok)
         (LoginByToken m now loginID tok device st).1 = true
    /\ (forall k, k <> getTokenKey m tok ->
                  k <> getAccountKey m loginID (deviceType device) ->
                  (LoginByToken m now loginID tok device st).1 !! k = st !! k)
    /\ IsDisable m t loginID (LoginByToken m now loginID tok device st).1
       = IsDisable m t loginID st
    /\ (tok <> "" -> ActiveTimeout (config m) <= 0 ->
        IsLogin m t tok (LoginByToken m now loginID tok device st).1
        = (Ok {| logged_in := true;
                 renewal_started :=
                   AutoRenew (config m) && (0 <? Timeout (config m)) |},
           (LoginByToken m now loginID tok device st).1)).
Proof.
  intros m now t l tok device st Hin.
  unfold LoginByToken, saveTokenInfo, Memory.Set_. simpl.
  set (info := json_Marshal_TokenInfo _).
  set (acc := getAccountKey m l (deviceType device)).
  set (st1 := <[acc := _]> (<[getTokenKey m tok := _]> st)).
  assert (Hacc : st1 !! acc
            = Some {| Memory.value_ := VString tok;
                      Memory.expiration :=
                        if 0 <? expiration_of m
                        then Unix (Add now (expiration_of m)) else 0 |})
    by apply lookup_insert_eq.
  assert (Hrec : st1 !! getTokenKey m tok
            = Some {| Memory.value_ := VString info;
                      Memory.expiration :=
                        if 0 <? expiration_of m
                        then Unix (Add now (expiration_of m)) else 0 |}).
  { subst st1. rewrite lookup_insert_ne by apply not_eq_sym, token_key_ne_account.
    apply lookup_insert_eq. }
  assert (Hframe : forall k, k <> getTokenKey m tok -> k <> acc ->
                             st1 !! k = st !! k).
  { intros k Hk1 Hk2. subst st1. by rewrite !lookup_insert_ne by congruence. }
  pose proof (item_live_until (VString tok) now (expiration_of m) t Hin) as Hl1.
  pose proof (item_live_until (VString info) now (expiration_of m) t Hin) as Hl2.
  split; [reflexivity|]. split; [|split; [|split; [|split]]].
  - unfold GetTokenValue. fold acc. by rewrite (Get_live _ _ _ _ Hacc Hl1).
  - exact (Exists_live _ _ _ _ Hrec Hl2).
  - exact Hframe.
  - unfold IsDisable, Memory.Exists_. rewrite Hframe; [reflexivity| |].
    + apply disable_key_ne_token.
    + apply disable_key_ne_account.
  - intros Htok Hact. apply (IsLogin_live m t tok st1 _ Htok Hrec Hl2). lia.
Qed.

(** X13.  [SetTokenTag] on a token with a readable record stores the tag:
    [GetTokenTag] returns it and the login id of the record is unchanged.
    The record is written anew with the full [Timeout] counted from the
    instant of the call, whatever deadline it had, and no other key is
    touched.  On a token without a readable record [SetTokenTag] returns
    the error of the lookup and changes nothing. *)
Theorem token_tag_round_trip :
  forall (m : Manager) (now t : Time) (tok tag : string)
         (st : Memory.Storage) (info : TokenInfo),
    getTokenInfo m now tok st = Ok info ->
    json_Unmarshal_TokenInfo
      (json_Marshal_TokenInfo
         {| LoginID := LoginID info; Device := Device info;
            tiCreateTime := tiCreateTime info;
            ActiveTime := ActiveTime info; Tag := tag |})
    = Some {| LoginID := LoginID info; Device := Device info;
              tiCreateTime := tiCreateTime info;
              ActiveTime := ActiveTime info; Tag := tag |} ->
    (0 < expiration_of m -> Unix t <= Unix (Add now (expiration_of m))) ->
    exists st',
      SetTokenTag m now tok tag st = (Ok tt, st')
      /\ GetTokenTag m t tok st' = Ok tag
      /\ GetLoginIDNotCheck m t tok st' = Ok (LoginID info)
      /\ (exists it, st' !! getTokenKey m tok = Some it
                     /\ Memory.expiration it
                        = if 0 <? expiration_of m
                          then Unix (Add now (expiration_of m)) else 0)
      /\ (forall k, k <> getTokenKey m tok -> st' !! k = st !! k)
      /\ (forall tok' e, getTokenInfo m now tok' st = Err e ->
            SetTokenTag m now tok' tag st = (Err e, st)
            /\ GetTokenTag m now tok' st = Err e).
Proof.
  intros m now t tok tag st info Hinfo Hrt Hin.
  unfold SetTokenTag. rewrite Hinfo.
  unfold saveTokenInfo, Memory.Set_. simpl.
  eexists. split; [reflexivity|].
  set (info' := {| LoginID := LoginID info; Device := Device info;
                   tiCreateTime := tiCreateTime info;
                   ActiveTime := ActiveTime info; Tag := tag |}) in *.
  set (st' := <[getTokenKey m tok := _]> st).
  assert (Hrec : st' !! getTokenKey m tok
            = Some {| Memory.value_ := VString (json_Marshal_TokenInfo info');
                      Memory.expiration :=
                        if 0 <? expiration_of m
                        then Unix (Add now (expiration_of m)) else 0 |})
    by apply lookup_insert_eq.
  pose proof (item_live_until (VString (json_Marshal_TokenInfo info')) now
                (expiration_of m) t Hin) as Hlive.
  pose proof (getTokenInfo_stored m t tok st' _ info' Hrec Hlive eq_refl Hrt)
    as Hget.
  split; [|split; [|split; [|split]]].
  - unfold GetTokenTag. by rewrite Hget.
  - unfold GetLoginIDNotCheck. by rewrite Hget.
  - eexists. split; [exact Hrec | reflexivity].
  - intros k Hk. subst st'. by rewrite lookup_insert_ne by congruence.
  - intros tok' e He. unfold SetTokenTag, GetTokenTag. by rewrite He.
Qed.

(** What the renewal does to a token whose record holds a string: the
    record gets the deadline counted from the instant of the renewal, and
    no other key is touched. *)
Lemma renew_rows m now tok (st : Memory.Storage) it data :
  st !! getTokenKey m tok = Some it ->
  Memory.value_ it = VString data ->
  exists st' data',
    renew m now tok st = (Ok tt, st')
    /\ st' !! getTokenKey m tok
       = Some {| Memory.value_ := VString data';
                 Memory.expiration :=
                   if 0 <? seconds (Timeout (config m))
                   then Unix (Add now (seconds (Timeout (config m)))) else 0 |}
    /\ forall k, k <> getTokenKey m tok -> st' !! k = st !! k.
Proof.
  intros Hk Hv. unfold renew, Memory.Expire. rewrite Hk, Hv.
  set (d := seconds (Timeout (config m))).
  set (st1 := <[getTokenKey m tok := _]> st).
  assert (H1 : st1 !! getTokenKey m tok
               = Some {| Memory.value_ := VString data;
                         Memory.expiration :=
                           if 0 <? d then Unix (Add now d) else 0 |})
    by apply lookup_insert_eq.
  unfold getTokenInfo.
  rewrite (Get_live _ _ _ _ H1) by apply Set_item_live. simpl.
  destruct (json_Unmarshal_TokenInfo data) as [info|].
  - unfold saveTokenInfo, Memory.Set_. simpl.
    eexists _, _. split; [reflexivity|]. split.
    + apply lookup_insert_eq.
    + intros k Hne. subst st1. by rewrite !lookup_insert_ne by congruence.
  - exists st1, data. split; [reflexivity|]. split; [exact H1|].
    intros k Hne. subst st1. by rewrite lookup_insert_ne by congruence.
Qed.

(** X14.  The renewal [IsLogin] starts extends the record of the token
    and nothing else: the mapping row of the pair keeps the deadline of the
    login.  So once the [Timeout] of the login has passed, a token that a
    renewal kept alive is still accepted by [IsLogin], while
    [GetTokenValue] no longer finds it, and [Kickout] and [Logout] of the
    pair return no error and change nothing: the token can no longer be
    ended through its account. *)
Theorem renewal_outlives_mapping :
  forall (m : Manager) (t0 t1 t2 : Time) (loginID : string)
         (device : list string) (st : Memory.Storage) (r : Rand)
         (tok : string) (st1 : Memory.Storage) (r' : Rand),
    AutoRenew (config m) = true ->
    0 < Timeout (config m) ->
    in_int64 (Timeout (config m) * Second) ->
    ActiveTimeout (config m) <= 0 ->
    Login m t0 loginID device st r = (Ok tok, st1, r') ->
    tok <> "" ->
    Unix t0 + Timeout (config m) <> 0 ->
    Unix t0 + Timeout (config m) < Unix t2 ->
    Unix t2 <= Unix t1 + Timeout (config m) ->
    exists st2,
      renew m t1 tok st1 = (Ok tt, st2)
      /\ IsLogin m t2 tok st2
         = (Ok {| logged_in := true; renewal_started := true |}, st2)
      /\ GetTokenValue m t2 loginID device st2
         = Err ("token not found for login id: " +:+ loginID)
      /\ Kickout m t2 loginID device st2 = (Ok tt, st2)
      /\ Logout m t2 loginID device st2 = (Ok tt, st2).
Proof.
  intros m t0 t1 t2 l device st r tok st1 r' Hauto HT Hrange Hact Hlogin Htok
    Hne Hlate Hin.
  destruct (Login_rows _ _ _ _ _ _ _ _ _ Hlogin) as (Hrec & Hacc & _).
  destruct (renew_rows m t1 tok st1 _ _ Hrec eq_refl)
    as (st2 & data' & Hrenew & Hrec2 & Hframe).
  exists st2. split; [exact Hrenew|].
  assert (Hexp : expiration_of m = Timeout (config m) * Second).
  { unfold expiration_of. destruct (Z.ltb_spec 0 (Timeout (config m))); [|lia].
    by apply seconds_whole. }
  assert (Hpos : 0 < Timeout (config m) * Second) by (unfold Second; lia).
  rewrite (seconds_whole _ Hrange) in Hrec2.
  rewrite Hexp in Hacc.
  assert (Hacc2 : st2 !! getAccountKey m l (deviceType device)
                  = Some {| Memory.value_ := VString tok;
                            Memory.expiration :=
                              if 0 <? Timeout (config m) * Second
                              then Unix (Add t0 (Timeout (config m) * Second))
                              else 0 |}).
  { rewrite Hframe; [exact Hacc|]. apply not_eq_sym, token_key_ne_account. }
  assert (Hdead : Memory.Get t2 (getAccountKey m l (deviceType device)) st2
                  = inr ("key expired: "
                         +:+ getAccountKey m l (deviceType device))).
  { apply (Get_expired _ _ _ _ Hacc2). apply item_dead_after; [exact Hpos| |];
      rewrite Unix_Add_seconds; assumption. }
  split; [|split; [|split]].
  - assert (Hyes : AutoRenew (config m) && (0 <? Timeout (config m)) = true).
    { rewrite Hauto. simpl. by apply Z.ltb_lt. }
    rewrite (IsLogin_live m t2 tok st2 _ Htok Hrec2); [by rewrite Hyes| |lia].
    apply item_live_until. intros _. by rewrite Unix_Add_seconds.
  - unfold GetTokenValue. by rewrite Hdead.
  - unfold Kickout, kickout. by rewrite Hdead.
  - unfold Logout. by rewrite Hdead.
Qed.


(** X16.  [GetDisableTime] after [Disable]: a ban with a positive duration
    reports the whole seconds left until its deadline, a ban with a
    duration that is not positive reports -1 at every instant, and a ban
    whose deadline has passed reports -2 without an error.  An account that
    was never banned, or whose ban [Untie] lifted, reports -2 with the
    storage's "key not found" error. *)
Theorem disable_time_sentinels :
  forall (m : Manager) (now t : Time) (loginID : string) (d : Duration)
         (st : Memory.Storage),
    (0 < d -> Unix (Add now d) <> 0 -> Unix t <= Unix (Add now d) ->
     in_int64 ((Unix (Add now d) - Unix t) * Second) ->
     GetDisableTime m t loginID (Disable m now loginID d st).1
     = (Unix (Add now d) - Unix t, None))
    /\ (d <= 0 ->
        GetDisableTime m t loginID (Disable m now loginID d st).1 = (-1, None))
    /\ (0 < d -> Unix (Add now d) <> 0 -> Unix (Add now d) < Unix t ->
        in_int64 (Unix (Add now d) - Unix t) ->
        GetDisableTime m t loginID (Disable m now loginID d st).1 = (-2, None))
    /\ GetDisableTime m t loginID (Untie m loginID st).1
       = (-2, Some ("key not found: " +:+ prefix m +:+ "disable:" +:+ loginID)).
Proof.
  intros m now t l d st.
  pose proof (Disable_lookup m now l d st) as Hk.
  split; [|split; [|split]].
  - intros Hd Hne Hle Hr. unfold GetDisableTime, Memory.TTL. rewrite Hk. simpl.
    destruct (Z.ltb_spec 0 d); [|lia].
    destruct (Z.eqb_spec (Unix (Add now d)) 0); [contradiction|].
    assert (Hr' : in_int64 (Unix (Add now d) - Unix t)).
    { unfold in_int64, Second in *. lia. }
    rewrite (wrap64_id _ Hr').
    destruct (Z.ltb_spec (Unix (Add now d) - Unix t) 0); [lia|].
    rewrite (seconds_whole _ Hr). unfold Seconds_int64.
    by rewrite Z.quot_mul.
  - intros Hd. unfold GetDisableTime, Memory.TTL. rewrite Hk. simpl.
    destruct (Z.ltb_spec 0 d); [lia|]. reflexivity.
  - intros Hd Hne Hlt Hr. unfold GetDisableTime, Memory.TTL. rewrite Hk. simpl.
    destruct (Z.ltb_spec 0 d); [|lia].
    destruct (Z.eqb_spec (Unix (Add now d)) 0); [contradiction|].
    rewrite (wrap64_id _ Hr).
    destruct (Z.ltb_spec (Unix (Add now d) - Unix t) 0); [reflexivity | lia].
  - unfold GetDisableTime, Memory.TTL, Untie. simpl.
    by rewrite lookup_delete_eq.
Qed.

End ManagerMore.

(** ** The manager on the example storage, continued *)
Section ManagerMoreExamples.
Import Config Manager.
#[local] Existing Instance Demo.env.

(** ["alice"] is banned for an hour at second 100 and tries to log in at
    second 200. *)
Lemma disable_blocks_login_witness :
  Login Demo.m0 (Demo.at_second 200) "alice" []
    (Disable Demo.m0 (Demo.at_second 100) "alice" Hour Memory.NewStorage).1
    [Some Byte.x2a]
  = (Err "account is disabled",
     (Disable Demo.m0 (Demo.at_second 100) "alice" Hour Memory.NewStorage).1,
     [Some Byte.x2a]).
Proof.
  destruct (disable_blocks_login (H := Demo.env) Demo.m0 (Demo.at_second 100)
              (Demo.at_second 200) "alice" Hour Memory.NewStorage)
    as (_ & Hlogin & _).
  - intros _. vm_compute. intros Hc. discriminate Hc.
  - exact (Hlogin [] [Some Byte.x2a]).
Defined.

Lemma alice_login_eq :
  Demo.alice_login = (Ok Demo.alice_token, Demo.alice_store, []).
Proof. apply (run_eta Demo.alice_login); vm_compute; reflexivity. Qed.

(** ["alice"] is asked for a day after her login. *)
Lemma login_then_islogin_witness :
  IsLogin Demo.m0 (Demo.at_second 87400) Demo.alice_token Demo.alice_store
  = (Ok {| logged_in := true; renewal_started := true |}, Demo.alice_store)
  /\ GetLoginID Demo.m0 (Demo.at_second 87400) Demo.alice_token Demo.alice_store
     = (Ok "alice", Demo.alice_store, true).
Proof.
  destruct (login_then_islogin (H := Demo.env) Demo.m0 (Demo.at_second 1000)
              (Demo.at_second 87400) "alice" [] Memory.NewStorage
              [Some Byte.x2a] Demo.alice_token Demo.alice_store [])
    as (Hlog & _ & Hid & _).
  - exact alice_login_eq.
  - vm_compute. intros Hc. discriminate Hc.
  - intros _. vm_compute. intros Hc. discriminate Hc.
  - vm_compute. reflexivity.
  - intros Hc. vm_compute in Hc. discriminate Hc.
  - split; [exact Hlog | exact Hid].
Defined.

(** With concurrent login off, the second login of ["alice"] ends her
    first token. *)
Lemma login_displaces_previous_token_witness :
  Demo.single_relogin.1.2 !! getTokenKey Demo.m_single Demo.alice_token = None
  /\ GetTokenValue Demo.m_single (Demo.at_second 1001) "alice" []
       Demo.single_relogin.1.2 = Ok Demo.alice_token2.
Proof.
  destruct (login_displaces_previous_token (H := Demo.env) Demo.m_single
              (Demo.at_second 1001) "alice" [] Demo.single_login.1.2
              [Some Byte.x2b] Demo.alice_token Demo.alice_token2
              Demo.single_relogin.1.2 [])
    as (Hoff & _ & Hget & _).
  - vm_compute. reflexivity.
  - apply (run_eta Demo.single_relogin); vm_compute; reflexivity.
  - vm_compute. intros Hc. discriminate Hc.
  - split; [apply Hoff; reflexivity | exact Hget].
Defined.

(** The session of ["alice"] after her second login. *)
Lemma login_resets_session_witness :
  Memory.Get (Demo.at_second 5000) "satoken:session:alice" Demo.alice_store2
  = inl (VString "alice").
Proof.
  destruct (login_resets_session (H := Demo.env) Demo.m0 (Demo.at_second 1001)
              (Demo.at_second 5000) "alice" [] Demo.alice_store
              [Some Byte.x2b] Demo.alice_token2 Demo.alice_store2 [])
    as (Hget & _).
  - apply (run_eta Demo.alice_relogin); vm_compute; reflexivity.
  - exact Hget.
Defined.

(** ["bob"] is banned for good at second 900 and logged in by token on
    the device ["web"] at second 1000. *)
Lemma login_by_token_skips_checks_witness :
  IsDisable Demo.m0 (Demo.at_second 1500) "bob"
    (LoginByToken Demo.m0 (Demo.at_second 1000) "bob" "tok-1" ["web"]
       (Disable Demo.m0 (Demo.at_second 900) "bob" 0 Memory.NewStorage).1).1
  = true
  /\ GetTokenValue Demo.m0 (Demo.at_second 1500) "bob" ["web"]
       (LoginByToken Demo.m0 (Demo.at_second 1000) "bob" "tok-1" ["web"]
          (Disable Demo.m0 (Demo.at_second 900) "bob" 0 Memory.NewStorage).1).1
     = Ok "tok-1".
Proof.
  destruct (login_by_token_skips_checks (H := Demo.env) Demo.m0
              (Demo.at_second 1000) (Demo.at_second 1500) "bob" "tok-1" ["web"]
              (Disable Demo.m0 (Demo.at_second 900) "bob" 0 Memory.NewStorage).1)
    as (_ & Hget & _ & _ & Hban & _).
  - intros _. vm_compute. intros Hc. discriminate Hc.
  - split; [|exact Hget]. rewrite Hban. vm_compute. reflexivity.
Defined.

(** The token of ["alice"] is tagged at second 1500. *)
Lemma token_tag_round_trip_witness :
  exists st',
    SetTokenTag Demo.m0 (Demo.at_second 1500) Demo.alice_token "vip"
      Demo.alice_store = (Ok tt, st')
    /\ GetTokenTag Demo.m0 (Demo.at_second 1600) Demo.alice_token st' = Ok "vip".
Proof.
  destruct (token_tag_round_trip (H := Demo.env) Demo.m0 (Demo.at_second 1500)
              (Demo.at_second 1600) Demo.alice_token "vip" Demo.alice_store
              Demo.alice_info)
    as (st' & Hset & Hget & _).
  - vm_compute. reflexivity.
  - vm_compute. reflexivity.
  - intros _. vm_compute. intros Hc. discriminate Hc.
  - exists st'. split; [exact Hset | exact Hget].
Defined.

(** The token of ["alice"], issued at second 1000 for 30 days, is renewed
    at second 2000000 and used at second 2593001, one second after the
    mapping row expired. *)
Lemma renewal_outlives_mapping_witness :
  exists st2,
    renew Demo.m0 (Demo.at_second 2000000) Demo.alice_token Demo.alice_store
    = (Ok tt, st2)
    /\ IsLogin Demo.m0 (Demo.at_second 2593001) Demo.alice_token st2
       = (Ok {| logged_in := true; renewal_started := true |}, st2)
    /\ GetTokenValue Demo.m0 (Demo.at_second 2593001) "alice" [] st2
       = Err ("token not found for login id: " +:+ "alice")
    /\ Kickout Demo.m0 (Demo.at_second 2593001) "alice" [] st2 = (Ok tt, st2)
    /\ Logout Demo.m0 (Demo.at_second 2593001) "alice" [] st2 = (Ok tt, st2).
Proof.
  apply (renewal_outlives_mapping (H := Demo.env) Demo.m0 (Demo.at_second 1000)
           (Demo.at_second 2000000) (Demo.at_second 2593001) "alice" []
           Memory.NewStorage [Some Byte.x2a] Demo.alice_token Demo.alice_store []).
  - reflexivity.
  - reflexivity.
  - vm_compute. split; [intros Hc; discriminate Hc | reflexivity].
  - vm_compute. intros Hc. discriminate Hc.
  - exact alice_login_eq.
  - vm_compute. intros Hc. discriminate Hc.
  - vm_compute. intros Hc. discriminate Hc.
  - vm_compute. reflexivity.
  - vm_compute. intros Hc. discriminate Hc.
Defined.


(** ["alice"] is banned for an hour at second 100; the time left is asked
    for at second 200. *)
Lemma disable_time_sentinels_witness :
  GetDisableTime Demo.m0 (Demo.at_second 200) "alice"
    (Disable Demo.m0 (Demo.at_second 100) "alice" Hour Memory.NewStorage).1
  = (3500, None)
  /\ GetDisableTime Demo.m0 (Demo.at_second 200) "alice"
       (Disable Demo.m0 (Demo.at_second 100) "alice" 0 Memory.NewStorage).1
     = (-1, None)
  /\ GetDisableTime Demo.m0 (Demo.at_second 4000) "alice"
       (Disable Demo.m0 (Demo.at_second 100) "alice" Hour Memory.NewStorage).1
     = (-2, None).
Proof.
  split; [|split].
  - apply (disable_time_sentinels Demo.m0 (Demo.at_second 100)
             (Demo.at_second 200) "alice" Hour Memory.NewStorage).
    + reflexivity.
    + vm_compute. intros Hc. discriminate Hc.
    + vm_compute. intros Hc. discriminate Hc.
    + vm_compute. split; [intros Hc; discriminate Hc | reflexivity].
  - apply (disable_time_sentinels Demo.m0 (Demo.at_second 100)
             (Demo.at_second 200) "alice" 0 Memory.NewStorage).
    vm_compute. intros Hc. discriminate Hc.
  - apply (disable_time_sentinels Demo.m0 (Demo.at_second 100)
             (Demo.at_second 4000) "alice" Hour Memory.NewStorage).
    + reflexivity.
    + vm_compute. intros Hc. discriminate Hc.
    + reflexivity.
    + vm_compute. split; [intros Hc; discriminate Hc | reflexivity].
Defined.

End ManagerMoreExamples.

(** ** The OAuth2 server: guards, round trips and revocation *)
Section OAuth2More.
Context `{GoEnv}.
Import OAuth2.

Lemma existsb_eqb_elem (l : list string) (x : string) :
  existsb (fun y => String.eqb y x) l = true <-> x ∈ l.
Proof.
  rewrite existsb_exists. split.
  - intros (y & Hy & Heq). apply String.eqb_eq in Heq. subst y.
    by apply list_elem_of_In.
  - intros Hx. exists x. split; [by apply list_elem_of_In | apply String.eqb_refl].
Qed.

Lemma GetClient_unknown s cid :
  clients s !! cid = None -> GetClient s cid = Err "client not found".
Proof. unfold GetClient. by intros ->. Qed.

(** X17.  [GenerateAuthorizationCode] issues a code only to a registered
    client and only for one of its redirect URIs: an unknown client gets
    "client not found", a URI the client did not register gets "invalid
    redirect_uri", and a failing random source gives its error; in these
    cases nothing is stored.  Otherwise the code is the 64 hexadecimal
    digits of the 32 bytes read, it is stored unused under its own key and
    no other key changes; the user and the scopes are taken as given: the
    scopes are not compared with the client's. *)
Theorem authorization_code_guards :
  forall (s : OAuth2Server) (now : Time) (cid uri uid : string)
         (scopes : list string) (st : Memory.Storage) (r : Rand),
    (clients s !! cid = None ->
     GenerateAuthorizationCode s now cid uri uid scopes st r
     = (Err "client not found", st, r))
    /\ (forall client, clients s !! cid = Some client ->
          uri ∉ RedirectURIs client ->
          GenerateAuthorizationCode s now cid uri uid scopes st r
          = (Err "invalid redirect_uri", st, r))
    /\ (forall client e r', clients s !! cid = Some client ->
          uri ∈ RedirectURIs client -> rand_Read 32 r = (inr e, r') ->
          GenerateAuthorizationCode s now cid uri uid scopes st r
          = (Err e, st, r'))
    /\ (forall client bs r', clients s !! cid = Some client ->
          uri ∈ RedirectURIs client -> rand_Read 32 r = (inl bs, r') ->
          exists ac st',
            GenerateAuthorizationCode s now cid uri uid scopes st r
            = (Ok ac, st', r')
            /\ Code ac = hex_EncodeToString (fill 32 bs)
            /\ String.length (Code ac) = 64%nat
            /\ acClientID ac = cid /\ acRedirectURI ac = uri
            /\ acUserID ac = uid /\ acScopes ac = scopes /\ Used ac = false
            /\ Memory.Get now (codeKey (Code ac)) st' = inl (VAuthCode ac)
            /\ forall k, k <> codeKey (Code ac) -> st' !! k = st !! k).
Proof.
  intros s now cid uri uid scopes st r. split; [|split; [|split]].
  - intros Hc. unfold GenerateAuthorizationCode.
    by rewrite (GetClient_unknown _ _ Hc).
  - intros client Hc Huri. unfold GenerateAuthorizationCode.
    rewrite (GetClient_registered _ _ _ Hc).
    destruct (existsb _ _) eqn:Hex; [|reflexivity].
    apply existsb_eqb_elem in Hex. contradiction.
  - intros client e r' Hc Huri Hr. unfold GenerateAuthorizationCode.
    rewrite (GetClient_registered _ _ _ Hc).
    apply existsb_eqb_elem in Huri. rewrite Huri. simpl. by rewrite Hr.
  - intros client bs r' Hc Huri Hr. unfold GenerateAuthorizationCode.
    rewrite (GetClient_registered _ _ _ Hc).
    apply existsb_eqb_elem in Huri. rewrite Huri. simpl. rewrite Hr.
    unfold Memory.Set_. simpl. eexists _, _. split; [reflexivity|]. simpl.
    split; [reflexivity|].
    split; [by rewrite hex_EncodeToString_length, fill_length|].
    do 5 (split; [reflexivity|]). split.
    + rewrite (Get_live _ _ _ _ (lookup_insert_eq _ _ _))
        by apply Set_item_live.
      reflexivity.
    + intros k Hk. by rewrite lookup_insert_ne by congruence.
Qed.


(** The pair [generateAccessToken] returns and the two rows it writes. *)
Lemma generateAccessToken_rows s now uid cid scopes st r b1 ra b2 rb :
  rand_Read 32 r = (inl b1, ra) -> rand_Read 32 ra = (inl b2, rb) ->
  generateAccessToken s now uid cid scopes st r
  = (Ok {| Token_ := hex_EncodeToString (fill 32 b1); TokenType := "Bearer";
           atExpiresIn := Seconds_int64 (tokenExpiration s);
           RefreshToken := hex_EncodeToString (fill 32 b2);
           atScopes := scopes; atUserID := uid; atClientID := cid |},
     <[refreshKey (hex_EncodeToString (fill 32 b2)) :=
         {| Memory.value_ :=
              VAccessToken
                {| Token_ := hex_EncodeToString (fill 32 b1);
                   TokenType := "Bearer";
                   atExpiresIn := Seconds_int64 (tokenExpiration s);
                   RefreshToken := hex_EncodeToString (fill 32 b2);
                   atScopes := scopes; atUserID := uid; atClientID := cid |};
            Memory.expiration :=
              if 0 <? 30 * 24 * Hour then Unix (Add now (30 * 24 * Hour))
              else 0 |}]>
       (<[tokenKey (hex_EncodeToString (fill 32 b1)) :=
            {| Memory.value_ :=
                 VAccessToken
                   {| Token_ := hex_EncodeToString (fill 32 b1);
                      TokenType := "Bearer";
                      atExpiresIn := Seconds_int64 (tokenExpiration s);
                      RefreshToken := hex_EncodeToString (fill 32 b2);
                      atScopes := scopes; atUserID := uid; atClientID := cid |};
               Memory.expiration :=
                 if 0 <? tokenExpiration s then Unix (Add now (tokenExpiration s))
                 else 0 |}]> st),
     rb).
Proof.
  intros H1 H2. unfold generateAccessToken, Memory.Set_. by rewrite H1, H2.
Qed.

(** What the pair of a server with the default lifetimes is good for: the
    access token for two hours, the refresh token for thirty days. *)
Lemma issued_pair_lifetimes cs now uid cid scopes st r b1 ra b2 rb :
  rand_Read 32 r = (inl b1, ra) -> rand_Read 32 ra = (inl b2, rb) ->
  exists tok st1,
    generateAccessToken (registered cs) now uid cid scopes st r
    = (Ok tok, st1, rb)
    /\ Token_ tok = hex_EncodeToString (fill 32 b1)
    /\ RefreshToken tok = hex_EncodeToString (fill 32 b2)
    /\ TokenType tok = "Bearer" /\ atExpiresIn tok = 7200
    /\ atUserID tok = uid /\ atClientID tok = cid /\ atScopes tok = scopes
    /\ (forall t, Unix t <= Unix now + 7200 ->
                  ValidateAccessToken t (Token_ tok) st1 = Ok tok)
    /\ (forall t, Unix now + 7200 <> 0 -> Unix now + 7200 < Unix t ->
                  ValidateAccessToken t (Token_ tok) st1
                  = Err "invalid access token")
    /\ (forall t, Unix t <= Unix now + 2592000 ->
                  Memory.Get t (refreshKey (RefreshToken tok)) st1
                  = inl (VAccessToken tok))
    /\ (forall k, k <> tokenKey (Token_ tok) ->
                  k <> refreshKey (RefreshToken tok) -> st1 !! k = st !! k).
Proof.
  intros H1 H2.
  rewrite (generateAccessToken_rows _ now uid cid scopes st r b1 ra b2 rb H1 H2).
  destruct (registered_expirations cs) as [_ ->].
  change (30 * 24 * Hour) with (2592000 * Second).
  change (2 * Hour) with (7200 * Second).
  rewrite !Unix_Add_seconds.
  change (Seconds_int64 (7200 * Second)) with 7200.
  change (0 <? 7200 * Second) with true.
  change (0 <? 2592000 * Second) with true. cbv iota.
  set (tok := {| Token_ := hex_EncodeToString (fill 32 b1);
                 TokenType := "Bearer"; atExpiresIn := 7200;
                 RefreshToken := hex_EncodeToString (fill 32 b2);
                 atScopes := scopes; atUserID := uid; atClientID := cid |}).
  set (st1 := <[refreshKey _ := _]> _).
  assert (Ha : st1 !! tokenKey (Token_ tok)
               = Some {| Memory.value_ := VAccessToken tok;
                         Memory.expiration := Unix now + 7200 |}).
  { subst st1. simpl.
    rewrite lookup_insert_ne by apply not_eq_sym, tokenKey_ne_refreshKey.
    apply lookup_insert_eq. }
  assert (Hr : st1 !! refreshKey (RefreshToken tok)
               = Some {| Memory.value_ := VAccessToken tok;
                         Memory.expiration := Unix now + 2592000 |})
    by apply lookup_insert_eq.
  exists tok, st1. split; [reflexivity|].
  do 7 (split; [reflexivity|]).
  split; [|split; [|split]].
  - intros t Ht. unfold ValidateAccessToken.
    rewrite (Get_live _ _ _ _ Ha); [reflexivity|].
    apply not_true_iff_false. intros Hx.
    apply isExpired_true in Hx as [_ Hx]. simpl in Hx. lia.
  - intros t Hne Ht. unfold ValidateAccessToken.
    rewrite (Get_expired _ _ _ _ Ha); [reflexivity|].
    apply isExpired_true. simpl. lia.
  - intros t Ht. rewrite (Get_live _ _ _ _ Hr); [reflexivity|].
    apply not_true_iff_false. intros Hx.
    apply isExpired_true in Hx as [_ Hx]. simpl in Hx. lia.
  - intros k Hk1 Hk2. subst st1.
    rewrite lookup_insert_ne by (apply not_eq_sym; exact Hk2).
    by rewrite lookup_insert_ne by (apply not_eq_sym; exact Hk1).
Qed.

(** X19.  The access token a successful exchange returns carries the
    user and the scopes of the code and the client of the exchange, is a
    "Bearer" token that announces 7200 seconds, and [ValidateAccessToken]
    returns this very token up to 7200 seconds after the exchange and
    "invalid access token" afterwards; its refresh token stays readable
    for thirty days. *)
Theorem exchanged_token_validates :
  forall (cs : list Client) (client : Client) (code uri : string) (now : Time)
         (st : Memory.Storage) (r ra rb : Rand) (ac : AuthorizationCode)
         (b1 b2 : list Byte.byte),
    clients (registered cs) !! ClientID client = Some client ->
    Memory.Get now (codeKey code) st = inl (VAuthCode ac) ->
    Used ac = false ->
    acClientID ac = ClientID client -> acRedirectURI ac = uri ->
    in_int64 (CreateTime ac + acExpiresIn ac) ->
    Unix now <= CreateTime ac + acExpiresIn ac ->
    0 <= now ->
    rand_Read 32 r = (inl b1, ra) -> rand_Read 32 ra = (inl b2, rb) ->
    exists tok st1,
      ExchangeCodeForToken (registered cs) now code (ClientID client)
        (ClientSecret client) uri st r = (Ok tok, st1, rb)
      /\ atUserID tok = acUserID ac /\ atScopes tok = acScopes ac
      /\ atClientID tok = ClientID client
      /\ TokenType tok = "Bearer" /\ atExpiresIn tok = 7200
      /\ (forall t, Unix t <= Unix now + 7200 ->
                    ValidateAccessToken t (Token_ tok) st1 = Ok tok)
      /\ (forall t, Unix now + 7200 < Unix t ->
                    ValidateAccessToken t (Token_ tok) st1
                    = Err "invalid access token")
      /\ (forall t, Unix t <= Unix now + 2592000 ->
                    Memory.Get t (refreshKey (RefreshToken tok)) st1
                    = inl (VAccessToken tok)).
Proof.
  intros cs client code uri now st r ra rb ac b1 b2 Hc Hget Hused Hcid Huri
    Hrange Hlive Hnow H1 H2.
  rewrite (Exchange_fresh _ now code client _ uri st r ac Hc eq_refl Hget Hused
             Hcid Huri Hrange Hlive).
  destruct (issued_pair_lifetimes cs now (acUserID ac) (ClientID client)
              (acScopes ac)
              (<[codeKey code := {| Memory.value_ := VAuthCode (mark_used ac);
                                    Memory.expiration := Unix now + 60 |}]> st)
              r b1 ra b2 rb H1 H2)
    as (tok & st1 & Hgen & _ & _ & Hty & Hexp & Hu & Hcl & Hsc & Hval & Hinv
        & Href & _).
  assert (Hu0 : 0 <= Unix now) by (unfold Unix, Second; apply Z.div_pos; lia).
  exists tok, st1. split; [exact Hgen|].
  do 5 (split; [assumption|]). split; [exact Hval|]. split; [|exact Href].
  intros t Ht. apply Hinv; lia.
Qed.

(** X20.  [RefreshAccessToken] with a live refresh token of the client
    returns a new pair for the same user, client and scopes, valid for two
    hours, and deletes the record of the access token the refresh token
    came with, so that it is no longer valid.  A refresh token that was
    issued to another client is refused with "client mismatch", and a wrong
    secret with "invalid client credentials"; neither changes the storage
    or reads the random source. *)
Theorem refresh_carries_grant :
  forall (cs : list Client) (client : Client) (rt : string) (now : Time)
         (st : Memory.Storage) (r ra rb : Rand) (old : AccessToken)
         (b1 b2 : list Byte.byte),
    clients (registered cs) !! ClientID client = Some client ->
    Memory.Get now (refreshKey rt) st = inl (VAccessToken old) ->
    rand_Read 32 r = (inl b1, ra) -> rand_Read 32 ra = (inl b2, rb) ->
    (atClientID old = ClientID client ->
     exists tok st1,
       RefreshAccessToken (registered cs) now rt (ClientID client)
         (ClientSecret client) st r = (Ok tok, st1, rb)
       /\ atUserID tok = atUserID old /\ atScopes tok = atScopes old
       /\ atClientID tok = atClientID old
       /\ (forall t, Unix t <= Unix now + 7200 ->
                     ValidateAccessToken t (Token_ tok) st1 = Ok tok)
       /\ (Token_ tok <> Token_ old ->
           forall t, ValidateAccessToken t (Token_ old) st1
                     = Err "invalid access token"))
    /\ (atClientID old <> ClientID client ->
        RefreshAccessToken (registered cs) now rt (ClientID client)
          (ClientSecret client) st r = (Err "client mismatch", st, r))
    /\ (forall secret, secret <> ClientSecret client ->
          RefreshAccessToken (registered cs) now rt (ClientID client) secret
            st r = (Err "invalid client credentials", st, r)).
Proof.
  intros cs client rt now st r ra rb old b1 b2 Hc Hget H1 H2.
  split; [|split].
  - intros Hcid.
    rewrite (Refresh_live _ now rt client _ st r old Hc eq_refl Hget Hcid).
    destruct (issued_pair_lifetimes cs now (atUserID old) (ClientID client)
                (atScopes old) (delete (tokenKey (Token_ old)) st)
                r b1 ra b2 rb H1 H2)
      as (tok & st1 & Hgen & _ & _ & _ & _ & Hu & Hcl & Hsc & Hval & _ & _
          & Hframe).
    exists tok, st1. split; [exact Hgen|].
    split; [exact Hu|]. split; [exact Hsc|]. split; [congruence|].
    split; [exact Hval|].
    intros Hne t. unfold ValidateAccessToken. rewrite Get_absent; [reflexivity|].
    rewrite Hframe.
    + apply lookup_delete_eq.
    + intros Hk. apply tokenKey_inj in Hk. congruence.
    + apply tokenKey_ne_refreshKey.
  - intros Hne. unfold RefreshAccessToken.
    rewrite (GetClient_registered _ _ _ Hc), String.eqb_refl, Hget. simpl.
    destruct (String.eqb_spec (atClientID old) (ClientID client));
      [contradiction | reflexivity].
  - intros secret Hs. unfold RefreshAccessToken.
    rewrite (GetClient_registered _ _ _ Hc).
    destruct (String.eqb_spec (ClientSecret client) secret); [congruence|].
    reflexivity.
Qed.

End OAuth2More.

(** ** Revocation and the registry of clients *)
Section RevokeFacts.
Import OAuth2.

(** X21.  [RevokeToken] of a live access token deletes its record and the
    row of its refresh token and nothing else, and returns no error: the
    access token is no longer valid and the refresh token is no longer
    found.  When the access token is not found, or has expired, the
    storage's error is returned and nothing is deleted: the row of a
    refresh token then stays. *)
Theorem revoke_removes_both :
  forall (now : Time) (a : string) (st : Memory.Storage) (tok : AccessToken),
    Memory.Get now (tokenKey a) st = inl (VAccessToken tok) ->
    RefreshToken tok <> "" ->
    RevokeToken now a st
    = (None, delete (tokenKey a) (delete (refreshKey (RefreshToken tok)) st))
    /\ (forall t, ValidateAccessToken t a (RevokeToken now a st).2
                  = Err "invalid access token")
    /\ (forall t, Memory.Get t (refreshKey (RefreshToken tok))
                    (RevokeToken now a st).2
                  = inr ("key not found: " +:+ refreshKey (RefreshToken tok)))
    /\ (forall k, k <> tokenKey a -> k <> refreshKey (RefreshToken tok) ->
                  (RevokeToken now a st).2 !! k = st !! k)
    /\ (forall t a' e, Memory.Get t (tokenKey a') st = inr e ->
                       RevokeToken t a' st = (Some e, st)).
Proof.
  intros now a st tok Hget Hrt.
  assert (Hrev : RevokeToken now a st
            = (None, delete (tokenKey a)
                       (delete (refreshKey (RefreshToken tok)) st))).
  { unfold RevokeToken. rewrite Hget.
    destruct (String.eqb_spec (RefreshToken tok) ""); [contradiction|].
    reflexivity. }
  rewrite Hrev. simpl. split; [reflexivity|]. split; [|split; [|split]].
  - intros t. unfold ValidateAccessToken.
    by rewrite Get_absent by apply lookup_delete_eq.
  - intros t. apply Get_absent.
    rewrite lookup_delete_ne by apply tokenKey_ne_refreshKey.
    apply lookup_delete_eq.
  - intros k Hk1 Hk2. by rewrite !lookup_delete_ne by congruence.
  - intros t a' e He. unfold RevokeToken. by rewrite He.
Qed.

Lemma registered_snoc cs c : registered (cs ++ [c]) = RegisterClient (registered cs) c.
Proof. unfold registered. by rewrite foldl_snoc. Qed.

(** X22.  [GetClient] returns the client that was registered last under
    the id, and "client not found" for an id under which none was
    registered: a second registration under the same id replaces the
    first. *)
Theorem get_client_is_last_registered :
  forall (cs : list Client) (cid : string),
    GetClient (registered cs) cid
    = match find (fun c => String.eqb (ClientID c) cid) (rev cs) with
      | Some c => Ok c
      | None => Err "client not found"
      end.
Proof.
  intros cs cid. induction cs as [|c cs IH] using rev_ind; [reflexivity|].
  rewrite registered_snoc, rev_unit. simpl.
  unfold GetClient in *. simpl.
  destruct (String.eqb_spec (ClientID c) cid) as [->|Hne].
  - by rewrite lookup_insert_eq.
  - rewrite lookup_insert_ne by exact Hne. exact IH.
Qed.

End RevokeFacts.

(** ** The OAuth2 server on the example, continued *)
Section OAuth2MoreExamples.
Import OAuth2.
#[local] Existing Instance Demo.env.


(** The code of the example is exchanged one second after it was issued;
    the access token is validated an hour later. *)
Lemma exchanged_token_validates_witness :
  exists tok st1,
    ExchangeCodeForToken Demo.server (Demo.at_second 1001) Demo.the_code
      (ClientID Demo.client) (ClientSecret Demo.client)
      "https://app.example/cb" Demo.code_run.1.2 Demo.code_run.2
    = (Ok tok, st1, [Some Byte.xa2; Some Byte.xb2; Some Byte.xa3; Some Byte.xb3])
    /\ atUserID tok = "user1"
    /\ ValidateAccessToken (Demo.at_second 4601) (Token_ tok) st1 = Ok tok.
Proof.
  destruct (exchanged_token_validates (H := Demo.env) [Demo.client] Demo.client
              Demo.the_code "https://app.example/cb" (Demo.at_second 1001)
              Demo.code_run.1.2 Demo.code_run.2
              [Some Byte.xb1; Some Byte.xa2; Some Byte.xb2; Some Byte.xa3;
               Some Byte.xb3]
              [Some Byte.xa2; Some Byte.xb2; Some Byte.xa3; Some Byte.xb3]
              {| Code := Demo.the_code; acClientID := "app";
                 acRedirectURI := "https://app.example/cb"; acUserID := "user1";
                 acScopes := ["read"]; CreateTime := 1000; acExpiresIn := 600;
                 Used := false |}
              (repeat Byte.xa1 32) (repeat Byte.xb1 32))
    as (tok & st1 & Hex & Hu & _ & _ & _ & _ & Hval & _).
  - vm_compute. reflexivity.
  - vm_compute. reflexivity.
  - reflexivity.
  - reflexivity.
  - reflexivity.
  - vm_compute. split; [intros Hc; discriminate Hc | reflexivity].
  - vm_compute. intros Hc. discriminate Hc.
  - vm_compute. intros Hc. discriminate Hc.
  - vm_compute. reflexivity.
  - vm_compute. reflexivity.
  - exists tok, st1. split; [exact Hex|]. split; [exact Hu|].
    apply Hval. vm_compute. intros Hc. discriminate Hc.
Defined.

(** The refresh token of the example is used at second 1100. *)
Lemma refresh_carries_grant_witness :
  exists tok st1,
    RefreshAccessToken Demo.server (Demo.at_second 1100) Demo.refresh1
      (ClientID Demo.client) (ClientSecret Demo.client)
      Demo.first_exchange.1.2 Demo.first_exchange.2
    = (Ok tok, st1, [Some Byte.xa3; Some Byte.xb3])
    /\ atUserID tok = "user1" /\ atScopes tok = ["read"].
Proof.
  destruct (refresh_carries_grant (H := Demo.env) [Demo.client] Demo.client
              Demo.refresh1 (Demo.at_second 1100)
              Demo.first_exchange.1.2 Demo.first_exchange.2
              [Some Byte.xb2; Some Byte.xa3; Some Byte.xb3]
              [Some Byte.xa3; Some Byte.xb3]
              {| Token_ := Demo.access1; TokenType := "Bearer";
                 atExpiresIn := 7200; RefreshToken := Demo.refresh1;
                 atScopes := ["read"]; atUserID := "user1";
                 atClientID := "app" |}
              (repeat Byte.xa2 32) (repeat Byte.xb2 32))
    as (Hok & _).
  - vm_compute. reflexivity.
  - vm_compute. reflexivity.
  - vm_compute. reflexivity.
  - vm_compute. reflexivity.
  - destruct (Hok eq_refl) as (tok & st1 & Hrun & Hu & Hs & _).
    exists tok, st1. split; [exact Hrun|]. split; [exact Hu | exact Hs].
Defined.

(** The access token of the example is revoked at second 1100. *)
Lemma revoke_removes_both_witness :
  RevokeToken (Demo.at_second 1100) Demo.access1 Demo.first_exchange.1.2
  = (None, delete (tokenKey Demo.access1)
             (delete (refreshKey Demo.refresh1) Demo.first_exchange.1.2)).
Proof.
  destruct (revoke_removes_both (Demo.at_second 1100) Demo.access1
              Demo.first_exchange.1.2
              {| Token_ := Demo.access1; TokenType := "Bearer";
                 atExpiresIn := 7200; RefreshToken := Demo.refresh1;
                 atScopes := ["read"]; atUserID := "user1";
                 atClientID := "app" |})
    as (Hrev & _).
  - vm_compute. reflexivity.
  - vm_compute. intros Hc. discriminate Hc.
  - exact Hrev.
Defined.

End OAuth2MoreExamples.

(** ** Nonces: lifetime and distinctness *)
Section NonceMore.
Context `{GoEnv}.
Import Security.

(** X23.  A manager made by [NewNonceManager] with the duration 0 keeps
    its nonces for five minutes: a nonce is accepted by [VerifyAndConsume]
    up to 300 seconds after it was generated, and refused with "invalid or
    expired nonce", the storage unchanged, after that.  A manager made with
    a negative duration issues nonces that never expire.  [Generate]
    returns the 64 hexadecimal digits of the 32 bytes it read and writes
    the row of the nonce only; when the read fails it returns the error
    and writes nothing. *)
Theorem nonce_lifetime :
  forall (d : Duration) (now : Time) (st : Memory.Storage) (r : Rand),
    (forall e r', rand_Read 32 r = (inr e, r') ->
       Generate (NewNonceManager d) now st r = (Err e, st, r'))
    /\ (forall bs r', rand_Read 32 r = (inl bs, r') ->
          exists st',
            Generate (NewNonceManager d) now st r
            = (Ok (hex_EncodeToString (fill 32 bs)), st', r')
            /\ String.length (hex_EncodeToString (fill 32 bs)) = 64%nat
            /\ (forall k, k <> nonceKey (hex_EncodeToString (fill 32 bs)) ->
                          st' !! k = st !! k)
            /\ (d = 0 -> forall t, Unix t <= Unix now + 300 ->
                  VerifyAndConsume (NewNonceManager d) t
                    (hex_EncodeToString (fill 32 bs)) st'
                  = (None, delete (nonceKey (hex_EncodeToString (fill 32 bs)))
                             st'))
            /\ (d = 0 -> forall t, Unix now + 300 <> 0 ->
                  Unix now + 300 < Unix t ->
                  VerifyAndConsume (NewNonceManager d) t
                    (hex_EncodeToString (fill 32 bs)) st'
                  = (Some "invalid or expired nonce", st'))
            /\ (d < 0 -> forall t,
                  VerifyAndConsume (NewNonceManager d) t
                    (hex_EncodeToString (fill 32 bs)) st'
                  = (None, delete (nonceKey (hex_EncodeToString (fill 32 bs)))
                             st'))).
Proof.
  intros d now st r. split.
  - intros e r' Hr. unfold Generate. by rewrite Hr.
  - intros bs r' Hr. unfold Generate. rewrite Hr. unfold Memory.Set_. simpl.
    set (N := hex_EncodeToString (fill 32 bs)).
    set (st' := <[nonceKey N := _]> st).
    assert (HN : N <> "") by apply hex_fill_not_empty.
    assert (Hrow : st' !! nonceKey N
              = Some {| Memory.value_ := VInt64 (Unix now);
                        Memory.expiration :=
                          if 0 <? (if d =? 0 then 5 * Minute else d)
                          then Unix (Add now (if d =? 0 then 5 * Minute else d))
                          else 0 |}) by apply lookup_insert_eq.
    exists st'. split; [reflexivity|].
    split; [subst N; by rewrite hex_EncodeToString_length, fill_length|].
    split; [intros k Hk; subst st'; by rewrite lookup_insert_ne by congruence|].
    assert (Hyes : forall t it, st' !! nonceKey N = Some it ->
              Memory.isExpired t it = false ->
              VerifyAndConsume (NewNonceManager d) t N st'
              = (None, delete (nonceKey N) st')).
    { intros t it Hit Hlive. unfold VerifyAndConsume, Verify.
      destruct (String.eqb_spec N ""); [contradiction|].
      by rewrite (Exists_live _ _ _ _ Hit Hlive). }
    split; [|split].
    + intros -> t Ht. apply (Hyes t _ Hrow). simpl.
      change (5 * Minute) with (300 * Second). rewrite Unix_Add_seconds.
      apply not_true_iff_false. intros Hx.
      apply isExpired_true in Hx as [_ Hx]. simpl in Hx. lia.
    + intros -> t Hne Ht. unfold VerifyAndConsume, Verify.
      destruct (String.eqb_spec N ""); [contradiction|].
      rewrite (Exists_expired _ _ _ _ Hrow); [reflexivity|].
      simpl. change (5 * Minute) with (300 * Second). rewrite Unix_Add_seconds.
      apply isExpired_true. simpl. lia.
    + intros Hd t. apply (Hyes t _ Hrow).
      destruct (Z.eqb_spec d 0); [lia|].
      destruct (Z.ltb_spec 0 d); [lia|]. reflexivity.
Qed.

Lemma hex_digit_of_nat_inj (a b : nat) :
  (a < 16)%nat -> (b < 16)%nat ->
  hex_digit (N.of_nat a) = hex_digit (N.of_nat b) -> a = b.
Proof.
  intros Ha Hb.
  do 16 (destruct a as [|a];
         [do 16 (destruct b as [|b];
                 [simpl; intros Hq; try reflexivity; discriminate Hq|]); lia|]).
  lia.
Qed.

Lemma hex_digit_inj n m :
  (n < 16)%N -> (m < 16)%N -> hex_digit n = hex_digit m -> n = m.
Proof.
  intros Hn Hm Heq. rewrite <- (N2Nat.id n), <- (N2Nat.id m) in Heq.
  apply hex_digit_of_nat_inj in Heq; [lia | lia | lia].
Qed.

Lemma to_N_inj (b b' : Byte.byte) : Byte.to_N b = Byte.to_N b' -> b = b'.
Proof.
  intros Heq. pose proof (Byte.of_to_N b) as Hb.
  rewrite Heq, Byte.of_to_N in Hb. by injection Hb.
Qed.

(** [hex.EncodeToString] loses nothing: different bytes give different
    texts. *)
Lemma hex_EncodeToString_inj bs : forall bs',
  hex_EncodeToString bs = hex_EncodeToString bs' -> bs = bs'.
Proof.
  induction bs as [|b bs IH]; intros [|b' bs'] Heq; simpl in Heq;
    try discriminate Heq; [reflexivity|].
  injection Heq as Hhi Hlo Hrest.
  pose proof (Byte.to_N_bounded b) as Hb.
  pose proof (Byte.to_N_bounded b') as Hb'.
  apply hex_digit_inj in Hhi;
    [|apply N.Div0.div_lt_upper_bound; lia..].
  apply hex_digit_inj in Hlo; [|apply N.mod_lt; lia..].
  f_equal; [|by apply IH].
  apply to_N_inj.
  rewrite (N.div_mod (Byte.to_N b) 16), (N.div_mod (Byte.to_N b') 16) by lia.
  by rewrite Hhi, Hlo.
Qed.

(** X24.  Two nonces generated one after the other are the same text
    exactly when the two reads of the random source filled the buffer with
    the same bytes.  When they differ, verifying the first leaves the row of
    the second untouched; [Generate] itself never looks whether the nonce is
    already in the storage. *)
Theorem distinct_reads_distinct_nonces :
  forall (nm : NonceManager) (t1 t2 : Time) (st : Memory.Storage)
         (r r1 r2 : Rand) (bs1 bs2 : list Byte.byte),
    rand_Read 32 r = (inl bs1, r1) ->
    rand_Read 32 r1 = (inl bs2, r2) ->
    exists N1 N2 st1 st2,
      Generate nm t1 st r = (Ok N1, st1, r1)
      /\ Generate nm t2 st1 r1 = (Ok N2, st2, r2)
      /\ (N1 = N2 <-> fill 32 bs1 = fill 32 bs2)
      /\ (N1 <> N2 ->
          forall t, (Verify nm t N1 st2).2 !! nonceKey N2 = st2 !! nonceKey N2).
Proof.
  intros nm t1 t2 st r r1 r2 bs1 bs2 H1 H2.
  unfold Generate. rewrite H1. unfold Memory.Set_. simpl. rewrite H2. simpl.
  eexists _, _, _, _. split; [reflexivity|]. split; [reflexivity|]. split.
  - split; [apply hex_EncodeToString_inj | by intros ->].
  - intros Hne t.
    destruct (Verify_store nm t (hex_EncodeToString (fill 32 bs1))
                (<[nonceKey (hex_EncodeToString (fill 32 bs2)) :=
                     {| Memory.value_ := VInt64 (Unix t2);
                        Memory.expiration :=
                          if 0 <? ttl nm then Unix (Add t2 (ttl nm)) else 0 |}]>
                   (<[nonceKey (hex_EncodeToString (fill 32 bs1)) :=
                        {| Memory.value_ := VInt64 (Unix t1);
                           Memory.expiration :=
                             if 0 <? ttl nm then Unix (Add t1 (ttl nm))
                             else 0 |}]> st)))
      as [-> | ->]; [reflexivity|].
    apply lookup_delete_ne. intros Hk. apply nonceKey_inj in Hk. contradiction.
Qed.

End NonceMore.

(** ** The token generator: shapes of the tokens *)
Section TokenMore.
Context `{GoEnv}.
Import Config Token.

Lemma substring_0_length (s : string) : forall n,
  (n <= String.length s)%nat -> String.length (substring 0 n s) = n.
Proof.
  induction s as [|c s IH]; intros [|n] Hn; simpl in *; try reflexivity;
    [lia|]. rewrite IH; [reflexivity | lia].
Qed.

Lemma get_elem_of (s : string) : forall i c,
  String.get i s = Some c -> c ∈ list_ascii_of_string s.
Proof.
  induction s as [|a s IH]; intros i c Hget; simpl in *; [discriminate|].
  destruct i as [|i].
  - injection Hget as ->. apply list_elem_of_here.
  - apply list_elem_of_further. by apply (IH i).
Qed.

Lemma get_None_length (s : string) : forall i,
  String.get i s = None -> (String.length s <= i)%nat.
Proof.
  induction s as [|a s IH]; intros i Hget; simpl in *; [lia|].
  destruct i as [|i]; [discriminate|]. apply IH in Hget. lia.
Qed.

(** The loop of [generateTik] appends one character of the alphabet per
    round; it fails only with the error of the random source, as long as
    [rand.Int] keeps its contract of a result below the maximum. *)
Lemma generateTik_loop_shape n : forall acc r,
  (forall q v q', rand_Int (Z.of_nat (String.length tik_charset)) q = (inl v, q')
                  -> 0 <= v < Z.of_nat (String.length tik_charset)) ->
  match generateTik_loop n acc r with
  | (Ok tok, _) =>
      exists suffix, tok = acc +:+ suffix /\ String.length suffix = n
                     /\ Forall (fun c => c ∈ list_ascii_of_string tik_charset)
                          (list_ascii_of_string suffix)
  | (Err _, _) => True
  | (Panic, _) => False
  end.
Proof.
  intros acc r Hint. revert acc r.
  induction n as [|n IH]; intros acc r.
  - simpl. exists "". split; [by rewrite sapp_nil_r|]. split; [reflexivity|].
    constructor.
  - cbn [generateTik_loop].
    destruct (rand_Int (Z.of_nat (String.length tik_charset)) r)
      as [[v|e] r1] eqn:Hr; [|exact I].
    pose proof (Hint _ _ _ Hr) as Hv.
    destruct (Z.ltb_spec v 0) as [?|_]; [lia|].
    destruct (Z.leb_spec (Z.of_nat (String.length tik_charset)) v) as [?|_];
      [lia|]. cbn [orb].
    destruct (String.get (Z.to_nat v) tik_charset) as [c|] eqn:Hget.
    + specialize (IH (acc +:+ String c EmptyString) r1).
      destruct (generateTik_loop n (acc +:+ String c EmptyString) r1)
        as [[tok| |] r2]; [|exact I|exact IH].
      destruct IH as (suffix & -> & Hlen & Hall).
      exists (String c suffix). split; [|split].
      * by rewrite sapp_assoc, sapp_cons, sapp_nil_l.
      * simpl. by rewrite Hlen.
      * change (list_ascii_of_string (String c suffix))
          with (c :: list_ascii_of_string suffix).
        constructor; [exact (get_elem_of _ _ _ Hget) | exact Hall].
    + apply get_None_length in Hget. lia.
Qed.

(** X25.  The random styles give tokens of a fixed length: "simple" 16
    characters, "random32", "random64" and "random128" as many as the name
    says, each the beginning of the base64 text of as many random bytes,
    and "tik" 11 characters of the 62 digits and letters.  With a base64
    text that is at least as long as its input and a [rand.Int] that stays
    below its maximum, as the libraries guarantee, generation does not
    panic: it returns such a token or the error of the random source. *)
Theorem token_shapes :
  forall (cfg : Config) (now : Time) (loginID device : string) (r : Rand)
         (n : nat),
    (TokenStyle_ cfg, n)
      ∈ [(TokenStyleSimple, 16%nat); (TokenStyleRandom32, 32%nat);
         (TokenStyleRandom64, 64%nat); (TokenStyleRandom128, 128%nat);
         (TokenStyleTik, 11%nat)] ->
    (forall k bs, (k <= String.length (base64_URLEncoding (fill k bs)))%nat) ->
    (forall q v q', rand_Int 62 q = (inl v, q') -> 0 <= v < 62) ->
    match Generate cfg now loginID device r with
    | (Ok tok, _) =>
        String.length tok = n
        /\ (TokenStyle_ cfg = TokenStyleTik ->
            Forall (fun c => c ∈ list_ascii_of_string tik_charset)
              (list_ascii_of_string tok))
        /\ (TokenStyle_ cfg <> TokenStyleTik ->
            exists bs, tok = substring 0 n (base64_URLEncoding (fill n bs)))
    | (Err e, _) => True
    | (Panic, _) => False
    end.
Proof.
  intros cfg now l d r n Hstyle Hb64 Hint.
  assert (Hsimple : forall k,
            match generateSimple k r with
            | (Ok tok, _) =>
                String.length tok = k
                /\ exists bs, tok = substring 0 k (base64_URLEncoding (fill k bs))
            | (Err _, _) => True
            | (Panic, _) => False
            end).
  { intros k. unfold generateSimple.
    destruct (rand_Read k r) as [[bs|e] r1]; [|exact I].
    pose proof (Hb64 k bs) as Hlen.
    destruct (Nat.ltb_spec (String.length (base64_URLEncoding (fill k bs))) k);
      [lia|].
    split; [by apply substring_0_length | by exists bs]. }
  unfold Generate.
  repeat (apply elem_of_cons in Hstyle as [[= -> ->]|Hstyle]);
    [| | | | | by apply elem_of_nil in Hstyle]; simpl.
  1-4: match goal with
       | |- context [generateSimple ?k ?q] =>
           specialize (Hsimple k); destruct (generateSimple k q) as [[tok| |] r1]
       end; try exact Hsimple; try exact I;
       destruct Hsimple as [Hlen Hbs];
       (split; [exact Hlen|]); (split; [discriminate | intros _; exact Hbs]).
  pose proof (generateTik_loop_shape 11 "" r Hint) as Htik.
  unfold generateTik.
  destruct (generateTik_loop 11 "" r) as [[tok| |] r1]; [|exact I|exact Htik].
  destruct Htik as (suffix & -> & Hlen & Hall). rewrite sapp_nil_l.
  split; [exact Hlen|]. split; [intros _; exact Hall | intros Hc; by destruct Hc].
Qed.

(** X26.  The signed style is a function of the configuration, the login
    id, the device and the clock's second: it reads no randomness, and two
    generations for the same login id and device within the same second
    give the same result, so the token does not tell two such logins
    apart. *)
Theorem jwt_same_second_same_token :
  forall (cfg : Config) (now1 now2 : Time) (loginID device : string)
         (r1 r2 : Rand),
    TokenStyle_ cfg = TokenStyleJWT ->
    Unix now1 = Unix now2 ->
    in_int64 (Timeout cfg * Second) ->
    (Generate cfg now1 loginID device r1).1
    = (Generate cfg now2 loginID device r2).1
    /\ (Generate cfg now1 loginID device r1).2 = r1.
Proof.
  intros cfg now1 now2 l d r1 r2 Hstyle Hsec Hrange.
  rewrite !Generate_jwt by exact Hstyle. simpl. split; [|reflexivity].
  unfold generateJWT. rewrite (seconds_whole _ Hrange), !Unix_Add_seconds.
  by rewrite Hsec.
Qed.

End TokenMore.

(** ** Nonces and tokens on the example environment *)
Section ShapeExamples.
Import Config Token.
#[local] Existing Instance Demo.env.

(** Two nonces generated from the bytes [07] and [08]. *)
Lemma distinct_reads_distinct_nonces_witness :
  exists N1 N2 st1 st2,
    Security.Generate Demo.nonces (Demo.at_second 1000) Memory.NewStorage
      [Some Byte.x07; Some Byte.x08] = (Ok N1, st1, [Some Byte.x08])
    /\ Security.Generate Demo.nonces (Demo.at_second 1001) st1 [Some Byte.x08]
       = (Ok N2, st2, [])
    /\ (N1 = N2 <-> fill 32 (repeat Byte.x07 32) = fill 32 (repeat Byte.x08 32))
    /\ (N1 <> N2 ->
        forall t, (Security.Verify Demo.nonces t N1 st2).2 !! Security.nonceKey N2
                  = st2 !! Security.nonceKey N2).
Proof.
  apply (distinct_reads_distinct_nonces (H := Demo.env) Demo.nonces
           (Demo.at_second 1000) (Demo.at_second 1001) Memory.NewStorage
           [Some Byte.x07; Some Byte.x08] [Some Byte.x08] []
           (repeat Byte.x07 32) (repeat Byte.x08 32)).
  - reflexivity.
  - reflexivity.
Defined.

(** The tape as a random source keeps the contracts of the libraries. *)
Lemma tape_Int_bounded q v q' :
  Demo.tape_Int 62 q = (inl v, q') -> 0 <= v < 62.
Proof.
  destruct q as [|[b|] q]; simpl; intros Hq; try discriminate Hq.
  injection Hq as <- _. apply Z.mod_pos_bound. lia.
Qed.

Lemma hex_long_enough k bs :
  (k <= String.length (hex_EncodeToString (fill k bs)))%nat.
Proof. rewrite hex_EncodeToString_length, fill_length. lia. Qed.

(** A token of the style "tik" made from the bytes [00] to [0a]. *)
Lemma token_shapes_witness :
  match Generate (Demo.styled TokenStyleTik) (Demo.at_second 5) "alice"
          "default"
          [Some Byte.x00; Some Byte.x01; Some Byte.x02; Some Byte.x03;
           Some Byte.x04; Some Byte.x05; Some Byte.x06; Some Byte.x07;
           Some Byte.x08; Some Byte.x09; Some Byte.x0a] with
  | (Ok tok, _) =>
      String.length tok = 11%nat
      /\ (TokenStyle_ (Demo.styled TokenStyleTik) = TokenStyleTik ->
          Forall (fun c => c ∈ list_ascii_of_string tik_charset)
            (list_ascii_of_string tok))
      /\ (TokenStyle_ (Demo.styled TokenStyleTik) <> TokenStyleTik ->
          exists bs, tok = substring 0 11 (base64_URLEncoding (fill 11 bs)))
  | (Err e, _) => True
  | (Panic, _) => False
  end.
Proof.
  apply (token_shapes (H := Demo.env) (Demo.styled TokenStyleTik)
           (Demo.at_second 5) "alice" "default" _ 11%nat).
  - do 4 apply list_elem_of_further. apply list_elem_of_here.
  - exact hex_long_enough.
  - exact tape_Int_bounded.
Defined.

(** Two signed tokens for ["alice"] within second 5. *)
Lemma jwt_same_second_same_token_witness :
  (Generate (Demo.styled TokenStyleJWT) (Demo.at_second 5) "alice" "default"
     [Some Byte.x01]).1
  = (Generate (Demo.styled TokenStyleJWT) (Demo.at_second 5 + 999999999)
       "alice" "default" [Some Byte.x02]).1.
Proof.
  apply (jwt_same_second_same_token (H := Demo.env)
           (Demo.styled TokenStyleJWT) (Demo.at_second 5)
           (Demo.at_second 5 + 999999999) "alice" "default"
           [Some Byte.x01] [Some Byte.x02]).
  - reflexivity.
  - reflexivity.
  - vm_compute. split; [intros Hc; discriminate Hc | reflexivity].
Defined.

End ShapeExamples.

(** ** Sessions, permissions and roles *)
Section PermissionMore.
Context `{GoEnv}.
Import Config Manager ManagerSession.

(** A session that [save] wrote is the one [GetSession] loads, at every
    instant, when its text can be read back. *)
Lemma GetSession_saved m t l (st : Memory.Storage) sess :
  st !! (prefix m +:+ "session:" +:+ l)
  = Some {| Memory.value_ := VString (json_Marshal_Session sess);
            Memory.expiration := 0 |} ->
  json_Unmarshal_Session (json_Marshal_Session sess) = Some sess ->
  GetSession m t l st = Ok sess.
Proof.
  intros Hrow Hrt. unfold GetSession, Load.
  rewrite (Get_live _ _ _ _ Hrow) by reflexivity. simpl. by rewrite Hrt.
Qed.

Lemma HasPermission_of m t l q st perms :
  GetPermissions m t l st = Ok perms ->
  HasPermission m t l q st
  = Ok (existsb (fun p => matchPermission p q) perms).
Proof. intros Hg. unfold HasPermission. by rewrite Hg. Qed.

Lemma HasPermissionsAnd_of m t l st perms :
  GetPermissions m t l st = Ok perms ->
  forall qs,
    HasPermissionsAnd m t l qs st
    = Ok (forallb (fun q => existsb (fun p => matchPermission p q) perms) qs).
Proof.
  intros Hg qs. induction qs as [|q qs IH]; [reflexivity|].
  cbn [HasPermissionsAnd forallb]. rewrite (HasPermission_of _ _ _ _ _ _ Hg).
  destruct (existsb _ perms); [exact IH | reflexivity].
Qed.

Lemma HasPermissionsOr_of m t l st perms :
  GetPermissions m t l st = Ok perms ->
  forall qs,
    HasPermissionsOr m t l qs st
    = Ok (existsb (fun q => existsb (fun p => matchPermission p q) perms) qs).
Proof.
  intros Hg qs. induction qs as [|q qs IH]; [reflexivity|].
  cbn [HasPermissionsOr existsb]. rewrite (HasPermission_of _ _ _ _ _ _ Hg).
  destruct (existsb _ perms); [reflexivity | exact IH].
Qed.

Lemma HasRole_of m t l q st roles :
  GetRoles m t l st = Ok roles ->
  HasRole m t l q st = Ok (existsb (fun r => String.eqb r q) roles).
Proof. intros Hg. unfold HasRole. by rewrite Hg. Qed.

Lemma HasRolesAnd_of m t l st roles :
  GetRoles m t l st = Ok roles ->
  forall qs,
    HasRolesAnd m t l qs st
    = Ok (forallb (fun q => existsb (fun r => String.eqb r q) roles) qs).
Proof.
  intros Hg qs. induction qs as [|q qs IH]; [reflexivity|].
  cbn [HasRolesAnd forallb]. rewrite (HasRole_of _ _ _ _ _ _ Hg).
  destruct (existsb _ roles); [exact IH | reflexivity].
Qed.

Lemma HasRolesOr_of m t l st roles :
  GetRoles m t l st = Ok roles ->
  forall qs,
    HasRolesOr m t l qs st
    = Ok (existsb (fun q => existsb (fun r => String.eqb r q) roles) qs).
Proof.
  intros Hg qs. induction qs as [|q qs IH]; [reflexivity|].
  cbn [HasRolesOr existsb]. rewrite (HasRole_of _ _ _ _ _ _ Hg).
  destruct (existsb _ roles); [reflexivity | exact IH].
Qed.

Lemma existsb_matchPermission perms q :
  existsb (fun p => matchPermission p q) perms = true
  <-> exists p, p ∈ perms /\ PermissionSpec.matches p q.
Proof.
  rewrite existsb_exists. split; intros (p & Hp & Hm); exists p.
  - split; [by apply list_elem_of_In | by apply matchPermission_spec].
  - split; [by apply list_elem_of_In | by apply matchPermission_spec].
Qed.

(** X27.  Permissions set with [SetPermissions] are the ones the checks
    use, at every later instant: [GetPermissions] returns the list,
    [HasPermission] is true exactly when one of its patterns matches the
    permission asked for, [HasPermissionsAnd] when this holds for each of a
    list (so for the empty list), [HasPermissionsOr] when it holds for one.
    The roles of the session are kept, and only the session row of the
    account is written.  The session must survive its serialisation. *)
Theorem permissions_round_trip :
  forall (m : Manager) (now t : Time) (loginID : string) (perms : list string)
         (st : Memory.Storage) (sess : SessionData),
    GetSession m now loginID st = Ok sess ->
    sessID sess = loginID ->
    json_Unmarshal_Session
      (json_Marshal_Session
         {| sessID := sessID sess; sessCreateTime := sessCreateTime sess;
            Data := <["permissions" := SStrings perms]> (Data sess) |})
    = Some {| sessID := sessID sess; sessCreateTime := sessCreateTime sess;
              Data := <["permissions" := SStrings perms]> (Data sess) |} ->
    exists st',
      SetPermissions m now loginID perms st = (Ok tt, st')
      /\ GetPermissions m t loginID st' = Ok perms
      /\ (forall q, HasPermission m t loginID q st' = Ok true
                    <-> exists p, p ∈ perms /\ PermissionSpec.matches p q)
      /\ (forall qs,
            HasPermissionsAnd m t loginID qs st'
            = Ok (forallb (fun q => existsb (fun p => matchPermission p q) perms)
                    qs))
      /\ (forall qs,
            HasPermissionsOr m t loginID qs st'
            = Ok (existsb (fun q => existsb (fun p => matchPermission p q) perms)
                    qs))
      /\ GetRoles m t loginID st'
         = Ok (match Data sess !! "roles" with
               | Some v => toStringSlice v
               | None => []
               end)
      /\ (forall k, k <> prefix m +:+ "session:" +:+ loginID ->
                    st' !! k = st !! k).
Proof.
  intros m now t l perms st sess Hsess Hid Hrt.
  unfold SetPermissions. rewrite Hsess.
  unfold Session.Set_, Session.save, Memory.Set_. simpl.
  eexists. split; [reflexivity|].
  set (sess' := {| sessID := sessID sess; sessCreateTime := sessCreateTime sess;
                   Data := <["permissions" := SStrings perms]> (Data sess) |})
    in *.
  set (st' := <[_ := _]> st).
  assert (Hrow : st' !! (prefix m +:+ "session:" +:+ l)
                 = Some {| Memory.value_ := VString (json_Marshal_Session sess');
                           Memory.expiration := 0 |}).
  { subst st'. rewrite Hid. apply lookup_insert_eq. }
  pose proof (GetSession_saved m t l st' sess' Hrow Hrt) as Hload.
  assert (Hperms : GetPermissions m t l st' = Ok perms).
  { unfold GetPermissions. rewrite Hload. simpl. by rewrite lookup_insert_eq. }
  split; [exact Hperms|]. split; [|split; [|split; [|split]]].
  - intros q. rewrite (HasPermission_of _ _ _ _ _ _ Hperms).
    rewrite <- existsb_matchPermission. split; [by intros [= ->] | by intros ->].
  - by apply HasPermissionsAnd_of.
  - by apply HasPermissionsOr_of.
  - unfold GetRoles. rewrite Hload. simpl.
    rewrite lookup_insert_ne by discriminate. by destruct (Data sess !! "roles").
  - intros k Hk. subst st'. rewrite Hid. by rewrite lookup_insert_ne by congruence.
Qed.

(** X28.  Roles set with [SetRoles] are compared by equality: [HasRole] is
    true exactly for the roles in the list, with no wildcard, and
    [HasRolesAnd] and [HasRolesOr] ask it for each role of theirs.  The
    permissions of the session are kept. *)
Theorem roles_exact_match :
  forall (m : Manager) (now t : Time) (loginID : string) (roles : list string)
         (st : Memory.Storage) (sess : SessionData),
    GetSession m now loginID st = Ok sess ->
    sessID sess = loginID ->
    json_Unmarshal_Session
      (json_Marshal_Session
         {| sessID := sessID sess; sessCreateTime := sessCreateTime sess;
            Data := <["roles" := SStrings roles]> (Data sess) |})
    = Some {| sessID := sessID sess; sessCreateTime := sessCreateTime sess;
              Data := <["roles" := SStrings roles]> (Data sess) |} ->
    exists st',
      SetRoles m now loginID roles st = (Ok tt, st')
      /\ GetRoles m t loginID st' = Ok roles
      /\ (forall r, HasRole m t loginID r st' = Ok true <-> r ∈ roles)
      /\ (forall qs,
            HasRolesAnd m t loginID qs st'
            = Ok (forallb (fun q => existsb (fun r => String.eqb r q) roles) qs))
      /\ (forall qs,
            HasRolesOr m t loginID qs st'
            = Ok (existsb (fun q => existsb (fun r => String.eqb r q) roles) qs))
      /\ GetPermissions m t loginID st'
         = Ok (match Data sess !! "permissions" with
               | Some v => toStringSlice v
               | None => []
               end).
Proof.
  intros m now t l roles st sess Hsess Hid Hrt.
  unfold SetRoles. rewrite Hsess.
  unfold Session.Set_, Session.save, Memory.Set_. simpl.
  eexists. split; [reflexivity|].
  set (sess' := {| sessID := sessID sess; sessCreateTime := sessCreateTime sess;
                   Data := <["roles" := SStrings roles]> (Data sess) |}) in *.
  set (st' := <[_ := _]> st).
  assert (Hrow : st' !! (prefix m +:+ "session:" +:+ l)
                 = Some {| Memory.value_ := VString (json_Marshal_Session sess');
                           Memory.expiration := 0 |}).
  { subst st'. rewrite Hid. apply lookup_insert_eq. }
  pose proof (GetSession_saved m t l st' sess' Hrow Hrt) as Hload.
  assert (Hroles : GetRoles m t l st' = Ok roles).
  { unfold GetRoles. rewrite Hload. simpl. by rewrite lookup_insert_eq. }
  split; [exact Hroles|]. split; [|split; [|split]].
  - intros r. rewrite (HasRole_of _ _ _ _ _ _ Hroles).
    rewrite <- (existsb_eqb_elem roles r).
    split; [by intros [= ->] | by intros ->].
  - by apply HasRolesAnd_of.
  - by apply HasRolesOr_of.
  - unfold GetPermissions. rewrite Hload. simpl.
    rewrite lookup_insert_ne by discriminate.
    by destruct (Data sess !! "permissions").
Qed.

(** X29.  A successful [Login] leaves the account without permissions and
    without roles, whatever had been set before: the session [Login]
    writes replaces the stored one, so that from then on [GetPermissions]
    and [GetRoles] return the empty list and [HasPermission] and [HasRole]
    are false for everything. *)
Theorem login_wipes_permissions :
  forall (m : Manager) (now t : Time) (loginID : string) (device : list string)
         (st : Memory.Storage) (r : Rand) (tok : string)
         (st' : Memory.Storage) (r' : Rand),
    Login m now loginID device st r = (Ok tok, st', r') ->
    json_Unmarshal_Session
      (json_Marshal_Session
         {| sessID := loginID; sessCreateTime := Unix now;
            Data := <["loginTime" := SInt64 (Unix now)]>
                      (<["device" := SString (deviceType device)]>
                         (<["loginId" := SString loginID]> ∅)) |})
    = Some {| sessID := loginID; sessCreateTime := Unix now;
              Data := <["loginTime" := SInt64 (Unix now)]>
                        (<["device" := SString (deviceType device)]>
                           (<["loginId" := SString loginID]> ∅)) |} ->
    GetPermissions m t loginID st' = Ok []
    /\ GetRoles m t loginID st' = Ok []
    /\ (forall q, HasPermission m t loginID q st' = Ok false)
    /\ (forall q, HasRole m t loginID q st' = Ok false).
Proof.
  intros m now t l device st r tok st' r' Hlogin Hrt.
  destruct (Login_rows _ _ _ _ _ _ _ _ _ Hlogin) as (_ & _ & Hsess).
  pose proof (GetSession_saved m t l st' _ Hsess Hrt) as Hload.
  assert (Hp : GetPermissions m t l st' = Ok []).
  { unfold GetPermissions. rewrite Hload. simpl.
    by rewrite !lookup_insert_ne, lookup_empty by discriminate. }
  assert (Hr : GetRoles m t l st' = Ok []).
  { unfold GetRoles. rewrite Hload. simpl.
    by rewrite !lookup_insert_ne, lookup_empty by discriminate. }
  split; [exact Hp|]. split; [exact Hr|]. split.
  - intros q. by rewrite (HasPermission_of _ _ _ _ _ _ Hp).
  - intros q. by rewrite (HasRole_of _ _ _ _ _ _ Hr).
Qed.

End PermissionMore.

(** ** Permissions and roles on the example *)
Section PermissionExamples.
Import Config Manager ManagerSession.

(** ["bob"] gets the permissions ["user:*"] and ["order:read"]. *)
Lemma permissions_round_trip_witness :
  exists st',
    SetPermissions (H := Demo.env_sessions) Demo.m0 (Demo.at_second 2000) "bob"
      ["user:*"; "order:read"] Memory.NewStorage = (Ok tt, st')
    /\ GetPermissions (H := Demo.env_sessions) Demo.m0 (Demo.at_second 3000)
         "bob" st' = Ok ["user:*"; "order:read"]
    /\ HasPermissionsAnd (H := Demo.env_sessions) Demo.m0 (Demo.at_second 3000)
         "bob" ["user:delete"; "order:read"] st' = Ok true
    /\ HasPermissionsOr (H := Demo.env_sessions) Demo.m0 (Demo.at_second 3000)
         "bob" ["order:write"; "stock:read"] st' = Ok false.
Proof.
  destruct (permissions_round_trip (H := Demo.env_sessions) Demo.m0
              (Demo.at_second 2000) (Demo.at_second 3000) "bob"
              ["user:*"; "order:read"] Memory.NewStorage
              {| sessID := "bob"; sessCreateTime := 2000; Data := ∅ |})
    as (st' & Hset & Hget & _ & Hand & Hor & _).
  - vm_compute. reflexivity.
  - reflexivity.
  - vm_compute. reflexivity.
  - exists st'. split; [exact Hset|]. split; [exact Hget|]. split.
    + exact (Hand ["user:delete"; "order:read"]).
    + exact (Hor ["order:write"; "stock:read"]).
Defined.

(** ["bob"] gets the roles ["admin"] and ["auditor"] on top. *)
Lemma roles_exact_match_witness :
  exists st',
    SetRoles (H := Demo.env_sessions) Demo.m0 (Demo.at_second 2001) "bob"
      ["admin"; "auditor"] Demo.bob_permissions.2 = (Ok tt, st')
    /\ GetRoles (H := Demo.env_sessions) Demo.m0 (Demo.at_second 3000) "bob" st'
       = Ok ["admin"; "auditor"]
    /\ GetPermissions (H := Demo.env_sessions) Demo.m0 (Demo.at_second 3000)
         "bob" st' = Ok ["user:*"; "order:read"].
Proof.
  destruct (roles_exact_match (H := Demo.env_sessions) Demo.m0
              (Demo.at_second 2001) (Demo.at_second 3000) "bob"
              ["admin"; "auditor"] Demo.bob_permissions.2
              {| sessID := "bob"; sessCreateTime := 2000;
                 Data := <["permissions" := SStrings ["user:*"; "order:read"]]>
                           ∅ |})
    as (st' & Hset & Hget & _ & _ & _ & Hperm).
  - vm_compute. reflexivity.
  - reflexivity.
  - vm_compute. reflexivity.
  - exists st'. split; [exact Hset|]. split; [exact Hget | exact Hperm].
Defined.

(** ["bob"] logs in after he got his permissions and roles. *)
Lemma login_wipes_permissions_witness :
  GetPermissions (H := Demo.env_sessions) Demo.m0 (Demo.at_second 3000) "bob"
    Demo.bob_roles.2 = Ok ["user:*"; "order:read"]
  /\ GetPermissions (H := Demo.env_sessions) Demo.m0 (Demo.at_second 3000) "bob"
       Demo.bob_login.1.2 = Ok []
  /\ GetRoles (H := Demo.env_sessions) Demo.m0 (Demo.at_second 3000) "bob"
       Demo.bob_login.1.2 = Ok [].
Proof.
  destruct (login_wipes_permissions (H := Demo.env_sessions) Demo.m0
              (Demo.at_second 2002) (Demo.at_second 3000) "bob" []
              Demo.bob_roles.2 [Some Byte.x3c] Demo.bob_token
              Demo.bob_login.1.2 [])
    as (Hp & Hr & _).
  - apply (run_eta Demo.bob_login); vm_compute; reflexivity.
  - vm_compute. reflexivity.
  - split; [vm_compute; reflexivity|]. split; [exact Hp | exact Hr].
Defined.

End PermissionExamples.

(** ** Deleting a session *)
Section DeleteSessionFacts.
Context `{GoEnv}.
Import Config Manager ManagerSession.

(** [IsLogin] looks at the record of the token only. *)
Lemma IsLogin_frame m t tok (st1 st2 : Memory.Storage) :
  st1 !! getTokenKey m tok = st2 !! getTokenKey m tok ->
  (IsLogin m t tok st1).1 = (IsLogin m t tok st2).1.
Proof.
  intros Hk. unfold IsLogin, getTokenInfo, Memory.Exists_, Memory.Get.
  rewrite Hk. destruct (String.eqb tok ""); [reflexivity|].
  destruct (st2 !! getTokenKey m tok) as [it|]; [|reflexivity].
  destruct (Memory.isExpired t it); [reflexivity|]. simpl.
  destruct (0 <? ActiveTimeout (config m)); [|reflexivity].
  destruct (Memory.value_ it) as [|data| | |]; try reflexivity.
  destruct (json_Unmarshal_TokenInfo data) as [info|]; [|reflexivity].
  destruct (ActiveTimeout (config m) <? wrap64 (Unix t - ActiveTime info));
    reflexivity.
Qed.

(** X30.  [DeleteSession] of an account whose session can be loaded
    deletes the session row and nothing else.  The account then has no
    permissions and no roles: [GetPermissions] and [GetRoles] return the
    empty list, [HasPermission] is false for everything, while
    [HasPermissionsAnd] of the empty list is still true.  The tokens of
    the account are not touched: [IsLogin] answers as before. *)
Theorem delete_session_keeps_logins :
  forall (m : Manager) (now t : Time) (loginID : string)
         (st : Memory.Storage) (sess : SessionData),
    GetSession m now loginID st = Ok sess ->
    sessID sess = loginID ->
    DeleteSession m now loginID st
    = (Ok tt, delete (prefix m +:+ "session:" +:+ loginID) st)
    /\ GetPermissions m t loginID (DeleteSession m now loginID st).2 = Ok []
    /\ GetRoles m t loginID (DeleteSession m now loginID st).2 = Ok []
    /\ (forall q, HasPermission m t loginID q (DeleteSession m now loginID st).2
                  = Ok false)
    /\ HasPermissionsAnd m t loginID [] (DeleteSession m now loginID st).2
       = Ok true
    /\ (forall k, k <> prefix m +:+ "session:" +:+ loginID ->
                  (DeleteSession m now loginID st).2 !! k = st !! k)
    /\ (forall tok, (IsLogin m t tok (DeleteSession m now loginID st).2).1
                    = (IsLogin m t tok st).1).
Proof.
  intros m now t l st sess Hsess Hid.
  assert (Hdel : DeleteSession m now l st
                 = (Ok tt, delete (prefix m +:+ "session:" +:+ l) st)).
  { unfold DeleteSession, Destroy. rewrite Hsess. simpl. by rewrite Hid. }
  rewrite Hdel. simpl. split; [reflexivity|].
  assert (Hfresh : GetSession m t l (delete (prefix m +:+ "session:" +:+ l) st)
                   = Ok (Session.NewSession t l)).
  { unfold GetSession, Load. by rewrite Get_absent by apply lookup_delete_eq. }
  assert (Hp : GetPermissions m t l (delete (prefix m +:+ "session:" +:+ l) st)
               = Ok []).
  { unfold GetPermissions. by rewrite Hfresh. }
  split; [exact Hp|]. split; [|split; [|split; [|split]]].
  - unfold GetRoles. by rewrite Hfresh.
  - intros q. unfold HasPermission. by rewrite Hp.
  - reflexivity.
  - intros k Hk. by rewrite lookup_delete_ne by congruence.
  - intros tok. apply IsLogin_frame. apply lookup_delete_ne.
    apply not_eq_sym, token_key_ne_session.
Qed.

End DeleteSessionFacts.

(** ** Deleting the session of the example *)
Section DeleteSessionExample.
Import Config Manager ManagerSession.

(** The session of ["bob"], with his permissions and roles, is deleted at
    second 2500. *)
Lemma delete_session_keeps_logins_witness :
  DeleteSession (H := Demo.env_sessions) Demo.m0 (Demo.at_second 2500) "bob"
    Demo.bob_roles.2
  = (Ok tt, delete (prefix Demo.m0 +:+ "session:" +:+ "bob") Demo.bob_roles.2)
  /\ GetPermissions (H := Demo.env_sessions) Demo.m0 (Demo.at_second 3000) "bob"
       (DeleteSession (H := Demo.env_sessions) Demo.m0 (Demo.at_second 2500)
          "bob" Demo.bob_roles.2).2 = Ok [].
Proof.
  destruct (delete_session_keeps_logins (H := Demo.env_sessions) Demo.m0
              (Demo.at_second 2500) (Demo.at_second 3000) "bob"
              Demo.bob_roles.2
              {| sessID := "bob"; sessCreateTime := 2000;
                 Data := <["roles" := SStrings ["admin"; "auditor"]]>
                           (<["permissions" :=
                                SStrings ["user:*"; "order:read"]]> ∅) |})
    as (Hdel & Hp & _).
  - vm_compute. reflexivity.
  - reflexivity.
  - split; [exact Hdel | exact Hp].
Defined.

End DeleteSessionExample.

(** ** Earlier tokens of a pair *)
Section EarlierTokenExamples.
Import Config Manager.
#[local] Existing Instance Demo.env.

(** C4 for every live token of the pair does not hold.  After her two
    logins on the default device, with concurrent login allowed, the first
    token of ["alice"] is live, but the mapping row of the pair holds the
    second one: [Kickout] of the pair returns no error, deletes the record
    of the second token, and the first one is still accepted. *)
Lemma kickout_misses_earlier_token :
  Demo.alice_login.1.1 = Ok Demo.alice_token
  /\ Demo.alice_relogin.1.1 = Ok Demo.alice_token2
  /\ (IsLogin Demo.m0 (Demo.at_second 1002) Demo.alice_token
        Demo.alice_store2).1
     = Ok {| logged_in := true; renewal_started := true |}
  /\ Demo.relogin_kickout.1 = Ok tt
  /\ Demo.relogin_kickout.2 !! getTokenKey Demo.m0 Demo.alice_token2 = None
  /\ (IsLogin Demo.m0 (Demo.at_second 1003) Demo.alice_token
        Demo.relogin_kickout.2).1
     = Ok {| logged_in := true; renewal_started := true |}.
Proof. repeat split; vm_compute; reflexivity. Qed.

(** C6 for every TokenInfo of the pair does not hold.  In the same state
    [Logout] of the pair, called twice, returns no error both times and
    removes the mapping row and the record of the second token; the record
    of the first token stays in the storage and the token is still
    accepted. *)
Lemma logout_leaves_earlier_token :
  Demo.alice_login.1.1 = Ok Demo.alice_token
  /\ Demo.relogin_logout.1 = Ok tt
  /\ Demo.relogin_logout_again.1 = Ok tt
  /\ Demo.relogin_logout_again.2
       !! getAccountKey Demo.m0 "alice" (deviceType []) = None
  /\ Demo.relogin_logout_again.2 !! getTokenKey Demo.m0 Demo.alice_token2 = None
  /\ Memory.Exists_ (Demo.at_second 1007)
       (getTokenKey Demo.m0 Demo.alice_token) Demo.relogin_logout_again.2 = true
  /\ (IsLogin Demo.m0 (Demo.at_second 1007) Demo.alice_token
        Demo.relogin_logout_again.2).1
     = Ok {| logged_in := true; renewal_started := true |}.
Proof. repeat split; vm_compute; reflexivity. Qed.

End EarlierTokenExamples.
